(** * Room engine and room server of the multiplayer game service

    A shallow embedding of [GameEngine.Game] (one room: clients, items,
    movement, interaction, snapshots) and of the durability half of
    [GameServer.GameServer] (command log, checkpoint, replay, command
    dispatch), followed by the properties checked against them.

    Python data is dynamically typed and most of it arrives through
    [json.loads], so values are modelled by one type [pyval] of JSON-shaped
    values.  A [dict] is an association list in insertion order, because
    iteration order is observable ([get_room], [interact], [json.dumps]).
    Exceptions are results of a small state-and-exception monad; a raised
    exception keeps the mutations made before it, as in Python.

    Modelling boundaries: JSON numbers with a fraction or exponent (Python
    [float]) are not represented; strings are byte strings, so the
    non-ASCII white space and digits that [int()] accepts are not
    recognised; a line of a text file is represented by what [json.loads]
    makes of it. *)

From Stdlib Require Import ZArith Lia Bool List String Ascii.
From Stdlib Require Import DecimalString DecimalZ DecimalPos.
Import ListNotations.

Set Warnings "-register-all".
#[local] Open Scope string_scope.
#[local] Open Scope list_scope.
#[local] Open Scope Z_scope.

(* ================================================================== *)
(** ** Python values, exceptions and the effect monad *)
(* ================================================================== *)

Module Py.

(** The exception classes that the modelled code can raise. *)
Inductive exn : Set :=
| KeyError
| TypeError
| ValueError
| AttributeError
| JSONDecodeError
| FileNotFoundError.

(** Hashable values, the ones that can be keys of a [dict]. *)
Inductive key : Set :=
| KNone
| KBool (b : bool)
| KInt (z : Z)
| KStr (s : string).

(** Values: [None], [bool], [int], [str], [list] and [dict]. *)
Inductive pyval : Set :=
| PNone
| PBool (b : bool)
| PInt (z : Z)
| PStr (s : string)
| PList (l : list pyval)
| PDict (d : list (key * pyval)).

(** A Python [dict], in insertion order. *)
Definition dict : Set := list (key * pyval).

Inductive result (A : Type) : Type :=
| Ok (a : A)
| Raise (e : exn).
Arguments Ok {A} a.
Arguments Raise {A} e.

(** State-and-exception monad over a state [S]. *)
Definition M (S A : Type) : Type := S -> result A * S.

Definition ret {S A : Type} (a : A) : M S A := fun s => (Ok a, s).

Definition raise {S A : Type} (e : exn) : M S A := fun s => (Raise e, s).

Definition bind {S A B : Type} (m : M S A) (k : A -> M S B) : M S B :=
  fun s =>
    match m s with
    | (Ok a, s') => k a s'
    | (Raise e, s') => (Raise e, s')
    end.

Definition get {S : Type} : M S S := fun s => (Ok s, s).

Definition modify {S : Type} (f : S -> S) : M S unit := fun s => (Ok tt, f s).

Definition lift {S A : Type} (r : result A) : M S A := fun s => (r, s).

(** [try: m  except Exception: handler] *)
Definition try_except {S A : Type} (m : M S A) (handler : exn -> M S A) : M S A :=
  fun s =>
    match m s with
    | (Ok a, s') => (Ok a, s')
    | (Raise e, s') => handler e s'
    end.

(** [for x in l: body x] *)
Fixpoint for_each {S A : Type} (l : list A) (body : A -> M S unit) : M S unit :=
  match l with
  | [] => ret tt
  | x :: r => bind (body x) (fun _ => for_each r body)
  end.

Declare Scope py_scope.
Delimit Scope py_scope with py.
Notation "x <- m ;; k" := (bind m (fun x => k))
  (at level 61, m at next level, right associativity) : py_scope.
Notation "m ;; k" := (bind m (fun _ => k))
  (at level 61, right associativity) : py_scope.

(** *** Keys *)

(** [True == 1] and [False == 0], with equal hashes: as keys they are one. *)
Definition key_norm (k : key) : key :=
  match k with
  | KBool b => KInt (if b then 1 else 0)
  | _ => k
  end.

Definition key_eqb (a b : key) : bool :=
  match key_norm a, key_norm b with
  | KNone, KNone => true
  | KInt x, KInt y => Z.eqb x y
  | KStr x, KStr y => String.eqb x y
  | _, _ => false
  end.

Definition to_key (v : pyval) : option key :=
  match v with
  | PNone => Some KNone
  | PBool b => Some (KBool b)
  | PInt z => Some (KInt z)
  | PStr s => Some (KStr s)
  | PList _ | PDict _ => None
  end.

Definition of_key (k : key) : pyval :=
  match k with
  | KNone => PNone
  | KBool b => PBool b
  | KInt z => PInt z
  | KStr s => PStr s
  end.

(** [hash(v)]: lists and dicts are unhashable. *)
Definition hash (v : pyval) : result key :=
  match to_key v with
  | Some k => Ok k
  | None => Raise TypeError
  end.

(** *** Dictionaries *)

Fixpoint dict_get (k : key) (d : dict) : option pyval :=
  match d with
  | [] => None
  | (k', v) :: r => if key_eqb k' k then Some v else dict_get k r
  end.

Definition dict_mem (k : key) (d : dict) : bool :=
  match dict_get k d with
  | Some _ => true
  | None => false
  end.

(** [d[k] = v]: an existing entry keeps its place and its key object. *)
Fixpoint dict_set (k : key) (v : pyval) (d : dict) : dict :=
  match d with
  | [] => [(k, v)]
  | (k', v') :: r =>
      if key_eqb k' k then (k', v) :: r else (k', v') :: dict_set k v r
  end.

(** [d |= e] *)
Definition dict_update (d e : dict) : dict :=
  fold_left (fun acc kv => dict_set (fst kv) (snd kv) acc) e d.

(** The dict built from a sequence of key/value pairs, later pairs winning. *)
Definition dict_of_pairs (l : list (key * pyval)) : dict := dict_update [] l.

(** [d[k]] *)
Definition getitem (d : dict) (k : key) : result pyval :=
  match dict_get k d with
  | Some v => Ok v
  | None => Raise KeyError
  end.

(** [v[name]] for a string literal [name]: only a dict can be indexed by a
    string. *)
Definition subscript (v : pyval) (name : string) : result pyval :=
  match v with
  | PDict d => getitem d (KStr name)
  | _ => Raise TypeError
  end.

(** *** Strings *)

Fixpoint is_substring (p s : string) : bool :=
  prefix p s ||
  match s with
  | EmptyString => false
  | String _ r => is_substring p r
  end.

(** [name in v] for a string literal [name]. *)
Definition contains (name : string) (v : pyval) : result bool :=
  match v with
  | PDict d => Ok (dict_mem (KStr name) d)
  | PList l =>
      Ok (existsb (fun x => match x with PStr s => String.eqb s name | _ => false end) l)
  | PStr s => Ok (is_substring name s)
  | PNone | PBool _ | PInt _ => Raise TypeError
  end.

(** [str.split(sep)] for a one-character separator. *)
Fixpoint split (sep : ascii) (s : string) : list string :=
  match s with
  | EmptyString => [EmptyString]
  | String c r =>
      if Ascii.eqb c sep then EmptyString :: split sep r
      else match split sep r with
           | h :: t => String c h :: t
           | [] => [String c EmptyString]
           end
  end.

(** [sep.join(l)] *)
Fixpoint join (sep : string) (l : list string) : string :=
  match l with
  | [] => EmptyString
  | [s] => s
  | s :: r => s ++ sep ++ join sep r
  end.

(** [str(z)] for an [int]. *)
Definition str_of_int (z : Z) : string := NilZero.string_of_int (Z.to_int z).

Definition is_space (c : ascii) : bool :=
  let n := nat_of_ascii c in
  (Nat.leb 9 n && Nat.leb n 13) || (Nat.leb 28 n && Nat.leb n 32).

Fixpoint lstrip (s : string) : string :=
  match s with
  | EmptyString => EmptyString
  | String c r => if is_space c then lstrip r else s
  end.

Fixpoint rstrip (s : string) : string :=
  match s with
  | EmptyString => EmptyString
  | String c r =>
      match rstrip r with
      | EmptyString => if is_space c then EmptyString else String c EmptyString
      | r' => String c r'
      end
  end.

Definition strip (s : string) : string := rstrip (lstrip s).

(** The digits of an integer literal with its underscores removed; an
    underscore may only stand between two digits. *)
Fixpoint literal_digits (after_digit : bool) (s : string) : option string :=
  match s with
  | EmptyString => if after_digit then Some EmptyString else None
  | String c r =>
      if Ascii.eqb c "_" then
        if after_digit then literal_digits false r else None
      else option_map (String c) (literal_digits true r)
  end.

(** [int(s)] for a [str], base 10: surrounding white space, an optional
    sign, decimal digits. *)
Definition int_of_str (s : string) : result Z :=
  let t := strip s in
  let '(negative, body) :=
    match t with
    | String c r =>
        if Ascii.eqb c "-" then (true, r)
        else if Ascii.eqb c "+" then (false, r)
        else (false, t)
    | EmptyString => (false, t)
    end in
  match literal_digits false body with
  | None => Raise ValueError
  | Some ds =>
      match NilEmpty.uint_of_string ds with
      | None => Raise ValueError
      | Some u => Ok (if negative then - Z.of_uint u else Z.of_uint u)
      end
  end.

(** [str(k)] for a scalar, as an f-string formats it. *)
Definition str_of_key (k : key) : string :=
  match k with
  | KNone => "None"
  | KBool true => "True"
  | KBool false => "False"
  | KInt z => str_of_int z
  | KStr s => s
  end.

(** [s.split(':')] as a method call on an arbitrary value: only [str]
    has the method. *)
Definition split_colon (v : pyval) : result (list string) :=
  match v with
  | PStr s => Ok (split ":" s)
  | _ => Raise AttributeError
  end.

(** [a, b = map(int, parts)]: exactly two parts, each an integer literal. *)
Definition unpack_ints (parts : list string) : result (Z * Z) :=
  match parts with
  | [a; b] =>
      match int_of_str a with
      | Ok x =>
          match int_of_str b with
          | Ok y => Ok (x, y)
          | Raise e => Raise e
          end
      | Raise e => Raise e
      end
  | _ => Raise ValueError
  end.

(** ['and ' + v]: concatenation to a [str] needs a [str]. *)
Definition prepend (p : string) (k : key) : result key :=
  match k with
  | KStr s => Ok (KStr (p ++ s))
  | _ => Raise TypeError
  end.

(** The strings of a list that [str.join] accepts: every element a [str]. *)
Fixpoint all_str (l : list key) : result (list string) :=
  match l with
  | [] => Ok []
  | KStr s :: r =>
      match all_str r with
      | Ok t => Ok (s :: t)
      | Raise e => Raise e
      end
  | _ :: _ => Raise TypeError
  end.

(** [l[-1] = v] on a non-empty list. *)
Fixpoint set_last {A : Type} (v : A) (l : list A) : list A :=
  match l with
  | [] => []
  | [_] => [v]
  | x :: r => x :: set_last v r
  end.

(** *** Operators *)

(** [bool(v)] *)
Definition truthy (v : pyval) : bool :=
  match v with
  | PNone => false
  | PBool b => b
  | PInt z => negb (z =? 0)
  | PStr s => negb (String.eqb s EmptyString)
  | PList l => match l with [] => false | _ => true end
  | PDict d => match d with [] => false | _ => true end
  end.

(** [v == k] for a scalar [k]. *)
Definition eq_key (v : pyval) (k : key) : bool :=
  match to_key v with
  | Some k' => key_eqb k' k
  | None => false
  end.

(** [v - n] for an [int] literal [n]. *)
Definition sub (v : pyval) (n : Z) : result pyval :=
  match v with
  | PInt z => Ok (PInt (z - n))
  | PBool b => Ok (PInt ((if b then 1 else 0) - n))
  | _ => Raise TypeError
  end.

Fixpoint insert_sorted (x : Z) (l : list Z) : list Z :=
  match l with
  | [] => [x]
  | y :: r => if x <? y then x :: l else y :: insert_sorted x r
  end.

(** [sorted(l)] on integers (a stable insertion sort). *)
Definition sorted (l : list Z) : list Z :=
  fold_left (fun acc x => insert_sorted x acc) l [].

(** *** JSON *)

(** The key that [json.dumps] writes for a dict key. *)
Definition json_key (k : key) : string :=
  match k with
  | KNone => "null"
  | KBool true => "true"
  | KBool false => "false"
  | KInt z => str_of_int z
  | KStr s => s
  end.

(** [json.loads(json.dumps(v))]: keys become strings, and of the entries
    whose keys then coincide the last value stays, at the first place. *)
Fixpoint json_reload (v : pyval) : pyval :=
  match v with
  | PList l => PList (map json_reload l)
  | PDict d =>
      PDict (dict_of_pairs
               (map (fun kv => (KStr (json_key (fst kv)), json_reload (snd kv))) d))
  | _ => v
  end.

(** A line of a text file, as [json.loads] sees it: a document with its
    value, or text that it rejects. *)
Inductive line : Set :=
| LJson (v : pyval)
| LBad (text : string).

(** [json.loads(l)] *)
Definition json_loads (l : line) : result pyval :=
  match l with
  | LJson v => Ok v
  | LBad _ => Raise JSONDecodeError
  end.

(** The line that [f.write(json.dumps(v) + '\n')] adds to a file. *)
Definition json_line (v : pyval) : line := LJson (json_reload v).

End Py.

(* ================================================================== *)
(** ** GameEngine.py: the engine of one room *)
(* ================================================================== *)

Module GameEngine.
Import Py.
#[local] Open Scope py_scope.

Definition interactive_item
  (name : string) (uses : Z) (use_message empty_message conflict_message : string)
  (emptied_this_round : bool) : pyval :=
  PDict [ (KStr "name", PStr name);
          (KStr "uses", PInt uses);
          (KStr "use_message", PStr use_message);
          (KStr "empty_message", PStr empty_message);
          (KStr "conflict_message", PStr conflict_message);
          (KStr "emptied_this_round", PBool emptied_this_round) ].

Definition chest : pyval :=
  interactive_item "chest" 10
    "you put your hand in the box and get a surprise"
    "you put your hand in an empty box"
    "you put your hand in the box and feel someone else's hand"
    false.

Definition fire : pyval :=
  interactive_item "fire" 5
    "ow thats hot"
    "someone cooked here"
    "you approach the fire but it is too crowded and you cannot find a spot"
    false.

Definition INTERACTIVE_ITEMS : list pyval := [chest; fire].

Definition INTERACT_FAIL_MESSAGES : list string :=
  [ "you tried but there was nothing there";
    "you reach out and are disappointed";
    "you interact with the floor";
    "you tried to become one with the floor";
    "slow it down, not right now" ].

(** A format string, cut at its replacement field [{collided_users}]. *)
Inductive segment : Set :=
| Lit (s : string)
| Collided_users.

Definition INTERACT_ON_OTHER_USER : list (list segment) :=
  [ [Lit "You look at "; Collided_users; Lit " awkwardly"];
    [Collided_users; Lit " stare at you, you cant help but notice their concerned looks"];
    [Collided_users; Lit " turn to look at you"];
    [Lit "...hi!"];
    [Lit "WHAT ARE YOU LOOKING AT?!?"] ].

(** [template.format(collided_users=...)] *)
Definition format (template : list segment) (collided_users : string) : string :=
  String.concat EmptyString
    (map (fun seg => match seg with Lit s => s | Collided_users => collided_users end)
         template).

(** The state of a [Game]; [rng] stands for the state of the [random]
    module, a supply of draws. *)
Record Game : Set := mkGame {
  clients : dict;
  room : dict;
  room_dimension : Z;
  rng : list nat
}.

Definition set_clients (d : dict) (g : Game) : Game :=
  mkGame d (room g) (room_dimension g) (rng g).

Definition set_room (d : dict) (g : Game) : Game :=
  mkGame (clients g) d (room_dimension g) (rng g).

Definition set_rng (r : list nat) (g : Game) : Game :=
  mkGame (clients g) (room g) (room_dimension g) r.

(** One draw from the random source. *)
Definition draw : M Game nat :=
  fun g =>
    match rng g with
    | [] => (Ok O, g)
    | n :: r => (Ok n, set_rng r g)
    end.

(** [random.choice(l)] on a non-empty sequence. *)
Definition choice {A : Type} (default : A) (l : list A) : M Game A :=
  n <- draw ;; ret (nth (Nat.modulo n (List.length l)) l default).

(** [random.randint(a, b)] *)
Definition randint (a b : Z) : M Game Z :=
  n <- draw ;; ret (a + Z.of_nat n mod (b - a + 1)).

(** [client in self.clients] *)
Definition clients_contains (client : pyval) : M Game bool :=
  k <- lift (hash client) ;;
  g <- get ;;
  ret (dict_mem k (clients g)).

(** [self.clients[client]] *)
Definition clients_getitem (client : pyval) : M Game pyval :=
  k <- lift (hash client) ;;
  g <- get ;;
  lift (getitem (clients g) k).

(** [self.clients[client] = v] *)
Definition clients_setitem (client v : pyval) : M Game unit :=
  k <- lift (hash client) ;;
  modify (fun g => set_clients (dict_set k v (clients g)) g).

(** [pos in self.room] *)
Definition room_contains (pos : pyval) : M Game bool :=
  k <- lift (hash pos) ;;
  g <- get ;;
  ret (dict_mem k (room g)).

(** [self.room[pos][field]] *)
Definition room_item (pos : pyval) (field : string) : M Game pyval :=
  k <- lift (hash pos) ;;
  g <- get ;;
  it <- lift (getitem (room g) k) ;;
  lift (subscript it field).

(** [self.room[pos][field] = v]: the item is mutated in place, so the
    room sees the change. *)
Definition room_item_set (pos : pyval) (field : string) (v : pyval) : M Game unit :=
  k <- lift (hash pos) ;;
  g <- get ;;
  it <- lift (getitem (room g) k) ;;
  match it with
  | PDict fields =>
      modify (set_room (dict_set k (PDict (dict_set (KStr field) v fields)) (room g)))
  | _ => raise TypeError
  end.

(** [Game.__init__]: no clients, a random item on a random cell and a
    chest on [1:1]. *)
Definition __init__ (seed : list nat) : Game :=
  let g0 := mkGame [] [] 8 seed in
  let build : M Game unit :=
    g <- get ;;
    x <- randint 0 (room_dimension g) ;;
    y <- randint 0 (room_dimension g) ;;
    it <- choice PNone INTERACTIVE_ITEMS ;;
    modify (set_room
              (dict_of_pairs
                 [ (KStr (str_of_int x ++ ":" ++ str_of_int y), it);
                   (KStr "1:1", chest) ]))
  in snd (build g0).

Definition add_client (client : pyval) : M Game pyval :=
  known <- clients_contains client ;;
  if known then
    pos <- clients_getitem client ;;
    ret (PDict [(KStr "client_id", client); (KStr "pos", pos)])
  else
    g <- get ;;
    clients_setitem client
      (PStr (str_of_int (room_dimension g / 2) ++ ":" ++
             str_of_int (room_dimension g / 2))) ;;
    pos <- clients_getitem client ;;
    ret (PDict [(KStr "client_id", client); (KStr "pos", pos)]).

Definition _move (client : pyval) (x y : Z) : M Game bool :=
  p <- clients_getitem client ;;
  parts <- lift (split_colon p) ;;
  xy <- lift (unpack_ints parts) ;;
  let '(client_x, client_y) := xy in
  g <- get ;;
  let desired_x := client_x + x in
  let new_x := nth 1 (sorted [0; desired_x; room_dimension g]) 0 in
  let desired_y := client_y + y in
  let new_y := nth 1 (sorted [0; desired_y; room_dimension g]) 0 in
  clients_setitem client (PStr (str_of_int new_x ++ ":" ++ str_of_int new_y)) ;;
  if negb (new_x =? desired_x) then ret true
  else ret false.

Definition error (text : string) : pyval := PDict [(KStr "error", PStr text)].

Definition success (text : string) : pyval := PDict [(KStr "success", PStr text)].

Definition up (client : pyval) : M Game pyval :=
  known <- clients_contains client ;;
  if negb known then ret (error "client not in room")
  else
    _move client 0 1 ;;
    ret (success "move up").

Definition down (client : pyval) : M Game pyval :=
  known <- clients_contains client ;;
  if negb known then ret (error "client not in room")
  else
    _move client 0 (-1) ;;
    ret (success "move down").

Definition left (client : pyval) : M Game pyval :=
  known <- clients_contains client ;;
  if negb known then ret (error "client not in room")
  else
    exited <- _move client (-1) 0 ;;
    if exited then ret (success "exit left")
    else ret (success "move left").

Definition right (client : pyval) : M Game pyval :=
  known <- clients_contains client ;;
  if negb known then ret (error "client not in room")
  else
    exited <- _move client 1 0 ;;
    if exited then ret (success "exit right")
    else ret (success "move right").

(** [[c for c in self.clients if c != client and self.clients[c] == pos]] *)
Definition matching_clients (client pos : key) (g : Game) : list key :=
  filter
    (fun c =>
       negb (key_eqb c client) &&
       match dict_get c (clients g) with
       | Some p => eq_key p pos
       | None => false
       end)
    (map fst (clients g)).

(** The sentence part that names the clients met on a cell. *)
Definition collided_users (matching : list key) : result string :=
  match
    (if Nat.ltb 1 (List.length matching)
     then match prepend "and " (last matching KNone) with
          | Ok k => Ok (set_last k matching)
          | Raise e => Raise e
          end
     else Ok matching)
  with
  | Raise e => Raise e
  | Ok named =>
      match all_str named with
      | Raise e => Raise e
      | Ok strs =>
          if Nat.ltb 2 (List.length named) then Ok (join ", " strs)
          else Ok (join " " strs)
      end
  end.

Definition interact (client : pyval) : M Game pyval :=
  pos <- clients_getitem client ;;
  on_item <- room_contains pos ;;
  msg <-
    (if on_item then
       flag <- room_item pos "emptied_this_round" ;;
       if negb (truthy flag) then
         uses <- room_item pos "uses" ;;
         if eq_key uses (KInt 0) then
           room_item pos "empty_message"
         else
           uses <- room_item pos "uses" ;;
           less <- lift (sub uses 1) ;;
           room_item_set pos "uses" less ;;
           msg <- room_item pos "use_message" ;;
           uses <- room_item pos "uses" ;;
           (if eq_key uses (KInt 0)
            then room_item_set pos "emptied_this_round" (PBool true)
            else ret tt) ;;
           ret msg
       else
         room_item pos "conflict_message"
     else
       fail_msg <- choice EmptyString INTERACT_FAIL_MESSAGES ;;
       c <- lift (hash client) ;;
       p <- lift (hash pos) ;;
       g <- get ;;
       match matching_clients c p g with
       | [] => ret (PStr fail_msg)
       | matching =>
           names <- lift (collided_users matching) ;;
           template <- choice [] INTERACT_ON_OTHER_USER ;;
           ret (PStr (format template names))
       end) ;;
  ret (PDict [(KStr "msg", msg)]).

(** [for _, interactable in self.room.items():
       interactable['emptied_this_round'] = False] *)
Definition clear_empty_markers : M Game unit :=
  g <- get ;;
  for_each (map fst (room g))
    (fun k => room_item_set (of_key k) "emptied_this_round" (PBool false)).

(** [{val['name']: key for key, val in self.room.items()}] *)
Fixpoint items_by_name (cells : dict) (acc : dict) : result dict :=
  match cells with
  | [] => Ok acc
  | (cell, val) :: r =>
      match subscript val "name" with
      | Raise e => Raise e
      | Ok name =>
          match hash name with
          | Raise e => Raise e
          | Ok n => items_by_name r (dict_set n (of_key cell) acc)
          end
      end
  end.

(** The server passes a dict of the connected clients; another argument
    is rejected here. *)
Definition get_room (connected_clients : pyval) : M Game pyval :=
  g <- get ;;
  room_items <- lift (items_by_name (room g) []) ;;
  match connected_clients with
  | PDict connected =>
      ret (PDict [(KStr "room", PDict (dict_update room_items connected))])
  | _ => raise TypeError
  end.

Definition command_map : list (string * (pyval -> M Game pyval)) :=
  [ ("add_client", add_client);
    ("up", up);
    ("down", down);
    ("left", left);
    ("right", right);
    ("interact", interact);
    ("get_room", get_room) ].

End GameEngine.

(* ================================================================== *)
(** ** GameServer.py: command dispatch, log, checkpoint and replay *)
(* ================================================================== *)

Module GameServer.
Import Py.
#[local] Open Scope py_scope.

(** The calls made on the log file and on the checkpoint files. *)
Inductive fs_op : Set :=
| LogWrite (l : line)
| LogFlush
| LogFsync
| LogTruncate
| CkptNewOpen
| CkptNewWrite (l : line)
| CkptReplace.

(** A room server: its engine is a [Game], so [isinstance(self.engine,
    Game)] holds.  [log_file] is the content of the file opened in ['a+']
    mode, [ckpt_file] the content of the file [ckpt_name] when it exists,
    [ckpt_new_file] that of [ckpt_name + '.new'].  [fs_ops] records the
    file operations issued so far, oldest first. *)
Record GameServer : Set := mkServer {
  engine : GameEngine.Game;
  log_file : list line;
  log_length : Z;
  ckpt_file : option (list line);
  ckpt_new_file : option (list line);
  connections : dict;
  socket_id_map : list (nat * pyval);
  lifetime_stats : list (string * Z);
  fs_ops : list fs_op
}.

Definition set_engine (g : GameEngine.Game) (s : GameServer) : GameServer :=
  mkServer g (log_file s) (log_length s) (ckpt_file s) (ckpt_new_file s)
    (connections s) (socket_id_map s) (lifetime_stats s) (fs_ops s).

Definition set_log_file (l : list line) (s : GameServer) : GameServer :=
  mkServer (engine s) l (log_length s) (ckpt_file s) (ckpt_new_file s)
    (connections s) (socket_id_map s) (lifetime_stats s) (fs_ops s).

Definition set_log_length (n : Z) (s : GameServer) : GameServer :=
  mkServer (engine s) (log_file s) n (ckpt_file s) (ckpt_new_file s)
    (connections s) (socket_id_map s) (lifetime_stats s) (fs_ops s).

Definition set_ckpt_file (c : option (list line)) (s : GameServer) : GameServer :=
  mkServer (engine s) (log_file s) (log_length s) c (ckpt_new_file s)
    (connections s) (socket_id_map s) (lifetime_stats s) (fs_ops s).

Definition set_ckpt_new_file (c : option (list line)) (s : GameServer) : GameServer :=
  mkServer (engine s) (log_file s) (log_length s) (ckpt_file s) c
    (connections s) (socket_id_map s) (lifetime_stats s) (fs_ops s).

Definition set_connections (d : dict) (s : GameServer) : GameServer :=
  mkServer (engine s) (log_file s) (log_length s) (ckpt_file s) (ckpt_new_file s)
    d (socket_id_map s) (lifetime_stats s) (fs_ops s).

Definition set_lifetime_stats (l : list (string * Z)) (s : GameServer) : GameServer :=
  mkServer (engine s) (log_file s) (log_length s) (ckpt_file s) (ckpt_new_file s)
    (connections s) (socket_id_map s) l (fs_ops s).

Definition record_op (o : fs_op) (s : GameServer) : GameServer :=
  mkServer (engine s) (log_file s) (log_length s) (ckpt_file s) (ckpt_new_file s)
    (connections s) (socket_id_map s) (lifetime_stats s) (fs_ops s ++ [o]).

(** A call on [self.engine]. *)
Definition on_engine {A : Type} (m : M GameEngine.Game A) : M GameServer A :=
  fun s => let '(r, g) := m (engine s) in (r, set_engine g s).

(** *** File operations *)

(** [self.log_file.write(l)]: the file is in append mode. *)
Definition log_write (l : line) : M GameServer unit :=
  modify (fun s => record_op (LogWrite l) (set_log_file (log_file s ++ [l]) s)).

Definition log_flush : M GameServer unit := modify (record_op LogFlush).

Definition log_fsync : M GameServer unit := modify (record_op LogFsync).

(** [self.log_file.truncate(0)] *)
Definition log_truncate : M GameServer unit :=
  modify (fun s => record_op LogTruncate (set_log_file [] s)).

(** [open(self.ckpt_name + '.new', 'w')] *)
Definition ckpt_new_open : M GameServer unit :=
  modify (fun s => record_op CkptNewOpen (set_ckpt_new_file (Some []) s)).

(** [ckpt.write(l)] *)
Definition ckpt_new_write (l : line) : M GameServer unit :=
  modify (fun s =>
            record_op (CkptNewWrite l)
              (set_ckpt_new_file
                 (Some (match ckpt_new_file s with Some ls => ls | None => [] end ++ [l]))
                 s)).

(** [os.replace(self.ckpt_name + '.new', self.ckpt_name)] *)
Definition os_replace : M GameServer unit :=
  s <- get ;;
  match ckpt_new_file s with
  | None => raise FileNotFoundError
  | Some ls =>
      modify (fun s => record_op CkptReplace (set_ckpt_new_file None (set_ckpt_file (Some ls) s)))
  end.

(** [open(self.ckpt_name, 'r').readlines()] *)
Definition ckpt_readlines : M GameServer (list line) :=
  s <- get ;;
  match ckpt_file s with
  | None => raise FileNotFoundError
  | Some ls => ret ls
  end.

(** *** Persistence *)

Definition _truncate_log : M GameServer unit :=
  log_truncate ;;
  modify (set_log_length 0).

Definition _update_ckpt : M GameServer unit :=
  ckpt_new_open ;;
  s <- get ;;
  ckpt_new_write (json_line (PDict (GameEngine.room (engine s)))) ;;
  ckpt_new_write (json_line (PDict (GameEngine.clients (engine s)))) ;;
  os_replace ;;
  _truncate_log.

Definition _load_server : M GameServer unit :=
  loaded <-
    try_except
      (ckpt_lines <- ckpt_readlines ;;
       let '(ckpt_room_str, ckpt_client_str) :=
         match ckpt_lines with
         | [l0; l1] => (l0, l1)
         | _ => (LJson (PDict []), LJson (PDict []))
         end in
       new_room <- lift (json_loads ckpt_room_str) ;;
       new_clients <- lift (json_loads ckpt_client_str) ;;
       ret (new_room, new_clients))
      (fun e =>
         match e with
         | FileNotFoundError => ret (PDict [], PDict [])
         | _ => raise e
         end) ;;
  match loaded with
  | (PDict new_room, PDict new_clients) =>
      (if truthy (PDict new_room)
       then on_engine (modify (GameEngine.set_room new_room))
       else ret tt) ;;
      (if truthy (PDict new_clients)
       then on_engine (modify (GameEngine.set_clients new_clients))
       else ret tt)
  | _ => ret tt
  end.

(** *** Dispatch *)

Definition REQUIRED_ITEMS : list string := ["method"; "client"].

(** [all(item in v for item in items)] *)
Fixpoint all_in (items : list string) (v : pyval) : result bool :=
  match items with
  | [] => Ok true
  | item :: r =>
      match contains item v with
      | Raise e => Raise e
      | Ok false => Ok false
      | Ok true => all_in r v
      end
  end.

(** [method in self.engine.command_map] together with
    [self.engine.command_map[method]]: the keys of the map are strings. *)
Definition find_handler (method : key)
  : option (pyval -> M GameEngine.Game pyval) :=
  match method with
  | KStr name =>
      option_map snd
        (find (fun entry => String.eqb (fst entry) name) GameEngine.command_map)
  | _ => None
  end.

(** [{c: self.engine.clients[c] for c in self.socket_id_map.values()}] *)
Fixpoint alive_clients_of (ids : list pyval) (clients acc : dict) : result dict :=
  match ids with
  | [] => Ok acc
  | c :: r =>
      match hash c with
      | Raise e => Raise e
      | Ok k =>
          match getitem clients k with
          | Raise e => Raise e
          | Ok pos => alive_clients_of r clients (dict_set k pos acc)
          end
      end
  end.

Definition alive_clients : M GameServer dict :=
  s <- get ;;
  lift (alive_clients_of (map snd (socket_id_map s)) (GameEngine.clients (engine s)) []).

(** [self.connections[client] = addr] *)
Definition connections_setitem (client addr : pyval) : M GameServer unit :=
  k <- lift (hash client) ;;
  modify (fun s => set_connections (dict_set k addr (connections s)) s).

Fixpoint stats_get (name : string) (l : list (string * Z)) : option Z :=
  match l with
  | [] => None
  | (n, v) :: r => if String.eqb n name then Some v else stats_get name r
  end.

Fixpoint stats_set (name : string) (v : Z) (l : list (string * Z)) : list (string * Z) :=
  match l with
  | [] => [(name, v)]
  | (n, v') :: r =>
      if String.eqb n name then (n, v) :: r else (n, v') :: stats_set name v r
  end.

(** The count of error replies in [self.lifetime_stats]. *)
Definition count_error : M GameServer unit :=
  modify (fun s =>
            match stats_get "errors" (lifetime_stats s) with
            | Some n => set_lifetime_stats (stats_set "errors" (n + 1) (lifetime_stats s)) s
            | None => set_lifetime_stats (stats_set "errors" 1 (lifetime_stats s)) s
            end).

Definition _parse_command (incoming_command : pyval) (read_from_log : bool)
  : M GameServer pyval :=
  complete <- lift (all_in REQUIRED_ITEMS incoming_command) ;;
  return_message <-
    (if negb complete then
       ret (GameEngine.error "malformed incomming command")
     else
       has_addr <- lift (contains "broadcast_addr" incoming_command) ;;
       (if has_addr then
          addr <- lift (subscript incoming_command "broadcast_addr") ;;
          client <- lift (subscript incoming_command "client") ;;
          connections_setitem client addr
        else ret tt) ;;
       method <- lift (subscript incoming_command "method") ;;
       name <- lift (hash method) ;;
       match find_handler name with
       | None =>
           ret (GameEngine.error
                  ("method " ++ str_of_key name ++
                   " does not exist for engine: <class 'GameEngine.Game'>"))
       | Some handler =>
           return_message <-
             (if eq_key method (KStr "get_room") then
                alive <- alive_clients ;;
                on_engine (handler (PDict alive))
              else
                client <- lift (subscript incoming_command "client") ;;
                on_engine (handler client)) ;;
           (if negb read_from_log then
              log_write (json_line incoming_command) ;;
              log_flush ;;
              log_fsync ;;
              modify (fun s => set_log_length (log_length s + 1) s) ;;
              s <- get ;;
              if 100 <? log_length s then _update_ckpt else ret tt
            else ret tt) ;;
           ret return_message
       end) ;;
  is_error <- lift (contains "error" return_message) ;;
  (if is_error then count_error else ret tt) ;;
  ret return_message.

(** Replay of the command log.  The call [self._parse_command(jdata)]
    leaves [read_from_log] at its default, [False]. *)
Definition _load_from_log : M GameServer unit :=
  s <- get ;;
  let log_lines := log_file s in
  for_each log_lines
    (fun l =>
       try_except
         (jdata <- lift (json_loads l) ;;
          _parse_command jdata false ;;
          ret tt)
         (fun _ => ret tt)).

(** The part of [GameServer.__init__] that sets up the engine and the
    persistent state, for a log file and a checkpoint found on disk. *)
Definition __init__ (log : list line) (checkpoint : option (list line))
  (seed : list nat) : result unit * GameServer :=
  (_load_server ;; _load_from_log)
    (mkServer (GameEngine.__init__ seed) log 0 checkpoint None [] [] [] []).

End GameServer.

(* ================================================================== *)
(** ** Notions used to state the properties *)
(* ================================================================== *)

Module Spec.
Import Py.

Fixpoint string_forall (P : ascii -> bool) (s : string) : bool :=
  match s with
  | EmptyString => true
  | String c r => P c && string_forall P r
  end.

Definition is_digit (c : ascii) : bool :=
  let n := nat_of_ascii c in Nat.leb 48 n && Nat.leb n 57.

(** The text ["x:y"] of a position. *)
Definition pos_text (x y : Z) : string := str_of_int x ++ ":" ++ str_of_int y.

(** The coordinates that [_move] reads from a stored position. *)
Definition coordinates (p : pyval) : result (Z * Z) :=
  match split_colon p with
  | Ok parts => unpack_ints parts
  | Raise e => Raise e
  end.

(** [median(0, c, d)] *)
Definition median (c d : Z) : Z := Z.max 0 (Z.min c d).

(** The number of entries of [d] under key [k]. *)
Fixpoint entries (k : key) (d : dict) : nat :=
  match d with
  | [] => O
  | (k', _) :: r => ((if key_eqb k' k then 1 else 0) + entries k r)%nat
  end.

(** A Python dict has no two equal keys. *)
Definition dict_wf (d : dict) : Prop := forall k, (entries k d <= 1)%nat.

(** The item [it] carries the name [n]. *)
Definition named (it : pyval) (n : key) : Prop :=
  exists name, subscript it "name" = Ok name /\ to_key name = Some n.

Definition not_colon (c : ascii) : bool := negb (Ascii.eqb c ":").

(** [self.command_map[method](arg)] on the engine. *)
Definition call (method : string) (arg : pyval) : M GameEngine.Game pyval :=
  match find (fun entry => String.eqb (fst entry) method) GameEngine.command_map with
  | Some (_, handler) => handler arg
  | None => raise KeyError
  end.

(** The engine after a sequence of commands, each a method name with its
    argument; a command that raises leaves the engine as it was when the
    exception left the handler, and the sequence goes on. *)
Fixpoint run (commands : list (string * pyval)) (g : GameEngine.Game)
  : GameEngine.Game :=
  match commands with
  | [] => g
  | (method, arg) :: r => run r (snd (call method arg g))
  end.

(** The engine [g] with the client under key [k] put on cell [(x, y)]. *)
Definition moved (g : GameEngine.Game) (k : key) (x y : Z) : GameEngine.Game :=
  GameEngine.set_clients
    (dict_set k (PStr (pos_text x y)) (GameEngine.clients g)) g.

(** The coordinate that [_move] stores for the attempted coordinate [c]. *)
Definition clamped (g : GameEngine.Game) (c : Z) : Z :=
  nth 1 (sorted [0; c; GameEngine.room_dimension g]) 0.

(** The client under key [k] stands on a cell of the 9 x 9 room. *)
Definition in_room (k : key) (g : GameEngine.Game) : Prop :=
  GameEngine.room_dimension g = 8 /\
  exists x y,
    dict_get k (GameEngine.clients g) = Some (PStr (pos_text x y)) /\
    0 <= x <= 8 /\ 0 <= y <= 8.

(** The client under key [k] is in the client directory. *)
Definition known (k : key) (g : GameEngine.Game) : Prop :=
  exists pos, dict_get k (GameEngine.clients g) = Some pos.

(** [client] is in the directory at readable coordinates [(x, y)]. *)
Definition stands_at (g : GameEngine.Game) (client : pyval) (x y : Z) : Prop :=
  exists k p,
    to_key client = Some k /\
    dict_get k (GameEngine.clients g) = Some p /\
    coordinates p = Ok (x, y).

(** The fields of an item with [u] uses left after one more use. *)
Definition used_item (it : dict) (u : Z) : dict :=
  let it1 := dict_set (KStr "uses") (PInt (u - 1)) it in
  if u - 1 =? 0 then dict_set (KStr "emptied_this_round") (PBool true) it1
  else it1.

(** The reply of [interact]. *)
Definition msg_reply (msg : pyval) : pyval := PDict [(KStr "msg", msg)].

(** The coordinate [c] lies on the room, [0 <= c <= 8]. *)
Definition within (c : Z) : bool := (0 <=? c) && (c <=? 8).

(** The reply of [add_client]. *)
Definition client_reply (client pos : pyval) : pyval :=
  PDict [(KStr "client_id", client); (KStr "pos", pos)].

(** The part of the engine that the movement commands work on. *)
Definition directory (g : GameEngine.Game) : dict * Z :=
  (GameEngine.clients g, GameEngine.room_dimension g).

(** What a server keeps on disk, with the record of the file operations. *)
Definition durable (s : GameServer.GameServer) :=
  (GameServer.fs_ops s, GameServer.log_file s, GameServer.log_length s,
   GameServer.ckpt_file s, GameServer.ckpt_new_file s).

(** The request has both required fields and names a command of the
    engine. *)
Definition dispatchable (cmd : pyval) : Prop :=
  exists d m c,
    cmd = PDict d /\
    dict_get (KStr "method") d = Some (PStr m) /\
    dict_get (KStr "client") d = Some c /\
    In m (map fst GameEngine.command_map).

(** The server after the line [l] went to the log: written, flushed,
    synced and counted. *)
Definition appended (l : line) (s : GameServer.GameServer) : GameServer.GameServer :=
  GameServer.set_log_length (GameServer.log_length s + 1)
    (GameServer.record_op GameServer.LogFsync
       (GameServer.record_op GameServer.LogFlush
          (GameServer.record_op (GameServer.LogWrite l)
             (GameServer.set_log_file (GameServer.log_file s ++ [l]) s)))).

(** The two lines of a checkpoint of the engine [g]. *)
Definition ckpt_lines (g : GameEngine.Game) : list line :=
  [json_line (PDict (GameEngine.room g)); json_line (PDict (GameEngine.clients g))].

(** The server after [_update_ckpt]. *)
Definition checkpointed (s : GameServer.GameServer) : GameServer.GameServer :=
  GameServer.mkServer (GameServer.engine s) [] 0
    (Some (ckpt_lines (GameServer.engine s))) None
    (GameServer.connections s) (GameServer.socket_id_map s)
    (GameServer.lifetime_stats s)
    (GameServer.fs_ops s ++
     [GameServer.CkptNewOpen;
      GameServer.CkptNewWrite (json_line (PDict (GameEngine.room (GameServer.engine s))));
      GameServer.CkptNewWrite (json_line (PDict (GameEngine.clients (GameServer.engine s))));
      GameServer.CkptReplace;
      GameServer.LogTruncate]).

(** The server after a dispatched command was logged. *)
Definition logged_state (cmd : pyval) (s : GameServer.GameServer)
  : GameServer.GameServer :=
  let s1 := appended (json_line cmd) s in
  if 100 <? GameServer.log_length s1 then checkpointed s1 else s1.

(** The server after the reply was counted when it is an error. *)
Definition counted (reply : pyval) (s : GameServer.GameServer)
  : GameServer.GameServer :=
  match contains "error" reply with
  | Ok true => snd (GameServer.count_error s)
  | _ => s
  end.

(** The command log received an entry for [cmd]. *)
Definition logged (cmd : pyval) (s s' : GameServer.GameServer) : Prop :=
  exists rest,
    GameServer.fs_ops s' =
    GameServer.fs_ops s ++ GameServer.LogWrite (json_line cmd) :: rest.

(** [m] never changes the component [f] of the state. *)
Definition preserves {S A X : Type} (f : S -> X) (m : M S A) : Prop :=
  forall s, f (snd (m s)) = f s.

(** [m] returns only values that satisfy [P]. *)
Definition returns {S A : Type} (P : A -> Prop) (m : M S A) : Prop :=
  forall s a s', m s = (Ok a, s') -> P a.

End Spec.

(* ================================================================== *)
(** ** Concrete requests, rooms and servers *)
(* ================================================================== *)

Module Examples.
Import Py.

(** The request [{"method": method, "client": client}]. *)
Definition request (method client : string) : pyval :=
  PDict [(KStr "method", PStr method); (KStr "client", PStr client)].

(** An engine with an empty room and nobody in it. *)
Definition empty_engine : GameEngine.Game := GameEngine.mkGame [] [] 8 [].

(** An engine with client ["a"] alone on the cell [p] of an empty room. *)
Definition engine_with_a (p : string) : GameEngine.Game :=
  GameEngine.mkGame [(KStr "a", PStr p)] [] 8 [].

(** A room with a chest on [4:4] and another on [1:1], client ["a"] on
    [4:4]. *)
Definition two_chests : GameEngine.Game :=
  GameEngine.mkGame [(KStr "a", PStr "4:4")]
    [(KStr "4:4", GameEngine.chest); (KStr "1:1", GameEngine.chest)] 8 [].

(** A running server with engine [g], [n] lines counted in its log
    [log], no checkpoint and nobody connected. *)
Definition server (g : GameEngine.Game) (log : list line) (n : Z)
  : GameServer.GameServer :=
  GameServer.mkServer g log n None None [] [] [] [].

(** Client ["a"] walks five cells to the left and five cells up. *)
Definition walk : list (string * pyval) :=
  repeat ("left", PStr "a") 5 ++ repeat ("up", PStr "a") 5.

(** The fields of a fresh chest. *)
Definition chest_fields : dict :=
  match GameEngine.chest with
  | PDict fields => fields
  | _ => []
  end.

End Examples.

(* ================================================================== *)
(** ** GameServer._recv_all: the framing of messages *)
(* ================================================================== *)

Module Framing.
Import Py.

Definition END_SEQ : list string := ["END_OF_MESSAGE"; "ALT_TERMINATION"].

Fixpoint take (n : nat) (s : string) : string :=
  match n, s with
  | S m, String c r => String c (take m r)
  | _, _ => EmptyString
  end.

Fixpoint drop (n : nat) (s : string) : string :=
  match n, s with
  | S m, String _ r => drop m r
  | _, _ => s
  end.

(** [s[-n:]] for a positive [n]: the whole of [s] when it is shorter. *)
Definition last_chars (n : nat) (s : string) : string :=
  drop (String.length s - n) s.

(** [s[:-n]] for a positive [n]: empty when [s] is not longer. *)
Definition without_last (n : nat) (s : string) : string :=
  take (String.length s - n) s.

(** [for ending in endings:
       if new_data[-1 * len(ending):] == ending:
           return ... new_data[:-1 * len(ending)]] *)
Fixpoint strip_ending (endings : list string) (new_data : string) : option string :=
  match endings with
  | [] => None
  | ending :: r =>
      if String.eqb (last_chars (String.length ending) new_data) ending
      then Some (without_last (String.length ending) new_data)
      else strip_ending r new_data
  end.

(** The loop of [_recv_all] over the texts that the calls of
    [sock.recv(n).decode('utf-8')] yield, in order; the empty text, or the
    end of the list, is the closed connection.  The result comes with the
    texts that are left for later calls. *)
Fixpoint recv_loop (chunks : list string) (data : string) : string * list string :=
  match chunks with
  | [] => (data, [])
  | new_data :: rest =>
      if String.eqb new_data EmptyString then (data, rest)
      else
        match strip_ending END_SEQ new_data with
        | Some body => ((data ++ body)%string, rest)
        | None => recv_loop rest (data ++ new_data)%string
        end
  end.

Definition _recv_all (chunks : list string) : string * list string :=
  recv_loop chunks EmptyString.

End Framing.

(* ================================================================== *)
(** ** Further notions used to state properties *)
(* ================================================================== *)

Module Laws.
Import Py.

(** The names of the clients met on a cell, as they read in a message. *)
Definition sentence (names : list string) : string :=
  match names with
  | [a] => a
  | [a; b] => (a ++ " and " ++ b)%string
  | _ => join ", " (removelast names ++ [("and " ++ last names EmptyString)%string])
  end.

(** [k] is a [str]. *)
Definition is_str (k : key) : bool :=
  match k with
  | KStr _ => true
  | _ => false
  end.

(** No key of [d] comes twice. *)
Fixpoint nodup_keys (d : dict) : bool :=
  match d with
  | [] => true
  | (k, _) :: r => negb (dict_mem k r) && nodup_keys r
  end.

(** A value as [json.loads] builds it: the keys of its dicts are strings,
    each once. *)
Fixpoint json_native (v : pyval) : bool :=
  match v with
  | PList l => forallb json_native l
  | PDict d =>
      forallb (fun kv => is_str (fst kv) && json_native (snd kv)) d && nodup_keys d
  | _ => true
  end.

(** The line parses as JSON. *)
Definition is_json (l : line) : bool :=
  match l with
  | LJson _ => true
  | LBad _ => false
  end.

(** The loop of [_load_from_log] over the lines read from the log. *)
Definition replay (log_lines : list line) : M GameServer.GameServer unit :=
  for_each log_lines
    (fun l =>
       try_except
         (bind (lift (json_loads l))
            (fun jdata => bind (GameServer._parse_command jdata false) (fun _ => ret tt)))
         (fun _ => ret tt)).

(** The room with the marker of the item on [cell] cleared. *)
Definition reset_marker (cells : dict) (cell : key) : dict :=
  match dict_get cell cells with
  | Some (PDict it) =>
      dict_set cell (PDict (dict_set (KStr "emptied_this_round") (PBool false) it)) cells
  | _ => cells
  end.

(** Every item of the room is a dict. *)
Definition items_are_dicts (cells : dict) : Prop :=
  forall cell v, In (cell, v) cells -> exists it, v = PDict it.

(** The count of error replies, 0 before the first one. *)
Definition errors (s : GameServer.GameServer) : Z :=
  match GameServer.stats_get "errors" (GameServer.lifetime_stats s) with
  | Some n => n
  | None => 0
  end.

(** [n] times the command [method] for [client]. *)
Definition times (n : nat) (method : string) (client : pyval)
  : list (string * pyval) :=
  repeat (method, client) n.

(** [v] is a [dict]. *)
Definition is_dict (v : pyval) : bool :=
  match v with
  | PDict _ => true
  | _ => false
  end.

(** The log holds at most [extra] lines more than [log_length] counts,
    and [log_length] is at most 100. *)
Definition log_bound (extra : Z) (s : GameServer.GameServer) : Prop :=
  Z.of_nat (List.length (GameServer.log_file s)) <= GameServer.log_length s + extra /\
  GameServer.log_length s <= 100.

(** The server started on the files that [s] leaves behind. *)
Definition restarted (seed : list nat) (s : GameServer.GameServer)
  : result unit * GameServer.GameServer :=
  GameServer.__init__ (GameServer.log_file s) (GameServer.ckpt_file s) seed.

(** A received text that neither closes the connection nor ends a
    message. *)
Definition unterminated (new_data : string) : bool :=
  negb (String.eqb new_data EmptyString) &&
  match Framing.strip_ending Framing.END_SEQ new_data with
  | Some _ => false
  | None => true
  end.

(** The received texts, one after the other. *)
Definition text (chunks : list string) : string :=
  fold_right String.append EmptyString chunks.

End Laws.

(* ================================================================== *)
(** ** Further concrete rooms, servers and requests *)
(* ================================================================== *)

Module Cases.
Import Py.

(** A chest with [uses] uses left. *)
Definition worn_chest (uses : Z) (emptied_this_round : bool) : pyval :=
  GameEngine.interactive_item "chest" uses
    "you put your hand in the box and get a surprise"
    "you put your hand in an empty box"
    "you put your hand in the box and feel someone else's hand"
    emptied_this_round.

(** The fields of an item. *)
Definition fields_of (item : pyval) : dict :=
  match item with
  | PDict fields => fields
  | _ => []
  end.

(** Client ["a"] on a chest with one use left. *)
Definition last_use : GameEngine.Game :=
  GameEngine.mkGame [(KStr "a", PStr "4:4")] [(KStr "4:4", worn_chest 1 false)] 8 [].

(** Client ["a"] on a chest that was emptied in this tick. *)
Definition spent : GameEngine.Game :=
  GameEngine.mkGame [(KStr "a", PStr "4:4")] [(KStr "4:4", worn_chest 0 true)] 8 [].

(** Clients ["a"], ["b"] and ["c"] on the same cell of an empty room. *)
Definition crowd : GameEngine.Game :=
  GameEngine.mkGame
    [(KStr "a", PStr "4:4"); (KStr "b", PStr "4:4"); (KStr "c", PStr "4:4")] [] 8 [].

(** Clients [1] and [2], with integer ids, on the same cell. *)
Definition numbered : GameEngine.Game :=
  GameEngine.mkGame [(KInt 1, PStr "4:4"); (KInt 2, PStr "4:4")]
    [(KStr "1:1", GameEngine.chest)] 8 [].

(** The request [{"method": method, "client": client,
    "broadcast_addr": addr}]. *)
Definition request_from (method client addr : string) : pyval :=
  PDict [(KStr "method", PStr method); (KStr "client", PStr client);
         (KStr "broadcast_addr", PStr addr)].

(** The fields of a request. *)
Definition fields (request : pyval) : dict := fields_of request.

(** A server whose socket 3 belongs to client ["ghost"], who was never
    added to the room. *)
Definition haunted : GameServer.GameServer :=
  GameServer.mkServer Examples.empty_engine [] 0 None None []
    [(3%nat, PStr "ghost")] [] [].

(** A server that finds the lines [ls] in its checkpoint. *)
Definition with_checkpoint (ls : list line) : GameServer.GameServer :=
  GameServer.mkServer Examples.empty_engine [] 0 (Some ls) None [] [] [] [].

End Cases.

(* ================================================================== *)
(** ** Facts about keys, dictionaries and integer text *)
(* ================================================================== *)

Import Py Spec Examples.
Import Framing Laws Cases.

Section KeyFacts.

Lemma key_norm_idem (k : key) : key_norm (key_norm k) = key_norm k.
Proof. destruct k; reflexivity. Qed.

Lemma key_eqb_norm (a b : key) :
  key_eqb a b = true <-> key_norm a = key_norm b.
Proof.
  unfold key_eqb.
  destruct (key_norm a) eqn:Ha, (key_norm b) eqn:Hb;
    try (split; [discriminate | intros H; discriminate H]);
    try (destruct a; discriminate Ha);
    try (destruct b; discriminate Hb).
  - split; reflexivity.
  - rewrite Z.eqb_eq. split; [intros -> | intros [= ->]]; reflexivity.
  - rewrite String.eqb_eq. split; [intros -> | intros [= ->]]; reflexivity.
Qed.

Lemma key_eqb_refl (k : key) : key_eqb k k = true.
Proof. apply key_eqb_norm. reflexivity. Qed.

Lemma key_eqb_sym (a b : key) : key_eqb a b = key_eqb b a.
Proof.
  destruct (key_eqb a b) eqn:E, (key_eqb b a) eqn:F; try reflexivity.
  - apply key_eqb_norm in E. symmetry in E. apply key_eqb_norm in E. congruence.
  - apply key_eqb_norm in F. symmetry in F. apply key_eqb_norm in F. congruence.
Qed.

Lemma key_eqb_congr (a b c : key) :
  key_eqb a b = true -> key_eqb a c = key_eqb b c.
Proof.
  intros H. apply key_eqb_norm in H.
  unfold key_eqb. rewrite H. reflexivity.
Qed.

Lemma to_key_of_key (k : key) : to_key (of_key k) = Some k.
Proof. destruct k; reflexivity. Qed.

Lemma hash_ok (v : pyval) (k : key) : to_key v = Some k -> hash v = Ok k.
Proof. unfold hash. intros ->. reflexivity. Qed.

End KeyFacts.

Section DictFacts.

Lemma dict_get_set (k1 k2 : key) (v : pyval) (d : dict) :
  dict_get k2 (dict_set k1 v d) =
  if key_eqb k1 k2 then Some v else dict_get k2 d.
Proof.
  induction d as [|[k' v'] r IH]; simpl.
  - destruct (key_eqb k1 k2); reflexivity.
  - destruct (key_eqb k' k1) eqn:E; simpl.
    + rewrite (key_eqb_congr _ _ k2 E).
      destruct (key_eqb k1 k2); reflexivity.
    + destruct (key_eqb k' k2) eqn:F.
      * destruct (key_eqb k1 k2) eqn:G; [exfalso | reflexivity].
        pose proof (key_eqb_congr _ _ k' G) as H.
        rewrite (key_eqb_sym k1 k'), (key_eqb_sym k2 k') in H.
        congruence.
      * exact IH.
Qed.

Lemma dict_get_set_same (k : key) (v : pyval) (d : dict) :
  dict_get k (dict_set k v d) = Some v.
Proof. rewrite dict_get_set, key_eqb_refl. reflexivity. Qed.

Lemma dict_get_set_other (k1 k2 : key) (v : pyval) (d : dict) :
  key_eqb k1 k2 = false -> dict_get k2 (dict_set k1 v d) = dict_get k2 d.
Proof. intros H. rewrite dict_get_set, H. reflexivity. Qed.

Lemma dict_get_congr (a b : key) (d : dict) :
  key_eqb a b = true -> dict_get a d = dict_get b d.
Proof.
  intros H. induction d as [|[k' v'] r IH]; simpl; [reflexivity|].
  rewrite (key_eqb_sym k' a), (key_eqb_sym k' b), (key_eqb_congr _ _ k' H), IH.
  reflexivity.
Qed.

Lemma dict_mem_get (k : key) (d : dict) :
  dict_mem k d = true <-> exists v, dict_get k d = Some v.
Proof.
  unfold dict_mem. destruct (dict_get k d) as [v|].
  - split; [intros _; exists v; reflexivity | reflexivity].
  - split; [discriminate | intros [v H]; discriminate H].
Qed.

Lemma dict_set_known (k : key) (v : pyval) (d : dict) :
  dict_get k d = Some v -> dict_set k v d = d.
Proof.
  induction d as [|[k' v'] r IH]; simpl; [discriminate|].
  destruct (key_eqb k' k).
  - intros [= ->]. reflexivity.
  - intros H. rewrite (IH H). reflexivity.
Qed.

Lemma dict_set_absent (k : key) (v : pyval) (d : dict) :
  dict_get k d = None -> dict_set k v d = d ++ [(k, v)].
Proof.
  induction d as [|[k' v'] r IH]; simpl; [reflexivity|].
  destruct (key_eqb k' k); [discriminate|].
  intros H. rewrite (IH H). reflexivity.
Qed.

End DictFacts.

Section IntText.

Lemma digit_char (c : ascii) :
  is_digit c = true ->
  is_space c = false /\ Ascii.eqb c "_" = false /\ Ascii.eqb c ":" = false /\
  Ascii.eqb c "-" = false /\ Ascii.eqb c "+" = false.
Proof.
  destruct c as [[] [] [] [] [] [] [] []]; vm_compute; intros H;
    solve [discriminate H | repeat split].
Qed.

Lemma string_forall_impl (P Q : ascii -> bool) (s : string) :
  (forall c, P c = true -> Q c = true) ->
  string_forall P s = true -> string_forall Q s = true.
Proof.
  intros HPQ. induction s as [|c r IH]; simpl; [reflexivity|].
  rewrite !andb_true_iff. intros [Hc Hr]. auto.
Qed.

Lemma uint_digits (d : Decimal.uint) :
  string_forall is_digit (NilEmpty.string_of_uint d) = true.
Proof. induction d; simpl; auto. Qed.

Lemma uint_text_nonempty (d : Decimal.uint) :
  d <> Decimal.Nil -> NilEmpty.string_of_uint d <> EmptyString.
Proof. destruct d; simpl; congruence. Qed.

Lemma NilZero_nonnil (d : Decimal.uint) :
  d <> Decimal.Nil -> NilZero.string_of_uint d = NilEmpty.string_of_uint d.
Proof. destruct d; simpl; congruence. Qed.

Lemma lstrip_digits (s : string) :
  string_forall is_digit s = true -> lstrip s = s.
Proof.
  destruct s as [|c r]; simpl; [reflexivity|].
  rewrite andb_true_iff. intros [Hc _].
  destruct (digit_char c Hc) as [-> _]. reflexivity.
Qed.

Lemma rstrip_digits (s : string) :
  string_forall is_digit s = true -> rstrip s = s.
Proof.
  induction s as [|c r IH]; simpl; [reflexivity|].
  rewrite andb_true_iff. intros [Hc Hr].
  rewrite (IH Hr). destruct (digit_char c Hc) as [-> _].
  destruct r; reflexivity.
Qed.

Lemma literal_digits_digits (s : string) (b : bool) :
  string_forall is_digit s = true ->
  s <> EmptyString \/ b = true ->
  literal_digits b s = Some s.
Proof.
  revert b. induction s as [|c r IH]; simpl; intros b Hs Hb.
  - destruct Hb as [Hb | ->]; [congruence | reflexivity].
  - apply andb_true_iff in Hs. destruct Hs as [Hc Hr].
    destruct (digit_char c Hc) as (_ & -> & _).
    rewrite (IH true Hr (or_intror eq_refl)). reflexivity.
Qed.

Lemma int_of_str_uint (d : Decimal.uint) :
  d <> Decimal.Nil ->
  int_of_str (NilEmpty.string_of_uint d) = Ok (Z.of_uint d).
Proof.
  intros Hd. pose proof (uint_digits d) as Hdig.
  pose proof (uint_text_nonempty d Hd) as Hne.
  unfold int_of_str, strip.
  rewrite (lstrip_digits _ Hdig), (rstrip_digits _ Hdig).
  destruct (NilEmpty.string_of_uint d) as [|c r] eqn:E; [congruence|].
  assert (Hc : is_digit c = true).
  { simpl in Hdig. apply andb_true_iff in Hdig. tauto. }
  destruct (digit_char c Hc) as (_ & _ & _ & -> & ->).
  rewrite (literal_digits_digits _ false Hdig (or_introl Hne)).
  rewrite <- E, NilEmpty.usu. reflexivity.
Qed.

Lemma int_of_str_minus_uint (d : Decimal.uint) :
  d <> Decimal.Nil ->
  int_of_str (String "-" (NilEmpty.string_of_uint d)) = Ok (- Z.of_uint d).
Proof.
  intros Hd. pose proof (uint_digits d) as Hdig.
  pose proof (uint_text_nonempty d Hd) as Hne.
  unfold int_of_str, strip.
  change (lstrip (String "-" (NilEmpty.string_of_uint d)))
    with (String "-" (NilEmpty.string_of_uint d)).
  assert (Hr : rstrip (String "-" (NilEmpty.string_of_uint d)) =
               String "-" (NilEmpty.string_of_uint d)).
  { simpl. rewrite (rstrip_digits _ Hdig).
    destruct (NilEmpty.string_of_uint d); [congruence | reflexivity]. }
  rewrite Hr.
  change (Ascii.eqb "-" "-") with true. cbv iota beta.
  rewrite (literal_digits_digits _ false Hdig (or_introl Hne)).
  rewrite NilEmpty.usu. reflexivity.
Qed.

(** [int(str(z)) == z] *)
Lemma int_of_str_of_int (z : Z) : int_of_str (str_of_int z) = Ok z.
Proof.
  unfold str_of_int. destruct z as [|p|p]; simpl Z.to_int.
  - reflexivity.
  - simpl NilZero.string_of_int.
    rewrite (NilZero_nonnil _ (Unsigned.to_uint_nonnil p)).
    rewrite (int_of_str_uint _ (Unsigned.to_uint_nonnil p)).
    unfold Z.of_uint. rewrite Unsigned.of_to. reflexivity.
  - simpl NilZero.string_of_int.
    rewrite (NilZero_nonnil _ (Unsigned.to_uint_nonnil p)).
    rewrite (int_of_str_minus_uint _ (Unsigned.to_uint_nonnil p)).
    unfold Z.of_uint. rewrite Unsigned.of_to. reflexivity.
Qed.

Lemma str_of_int_no_colon (z : Z) :
  string_forall not_colon (str_of_int z) = true.
Proof.
  assert (Hu : forall d, string_forall not_colon (NilEmpty.string_of_uint d) = true).
  { intros d. apply (string_forall_impl is_digit); [|apply uint_digits].
    intros c Hc. unfold not_colon.
    destruct (digit_char c Hc) as (_ & _ & -> & _). reflexivity. }
  unfold str_of_int. destruct z as [|p|p]; simpl Z.to_int.
  - reflexivity.
  - simpl NilZero.string_of_int.
    rewrite (NilZero_nonnil _ (Unsigned.to_uint_nonnil p)). apply Hu.
  - simpl NilZero.string_of_int.
    rewrite (NilZero_nonnil _ (Unsigned.to_uint_nonnil p)).
    simpl. apply Hu.
Qed.

Lemma split_no_colon (s : string) :
  string_forall not_colon s = true -> split ":" s = [s].
Proof.
  induction s as [|c r IH]; simpl; [reflexivity|].
  rewrite andb_true_iff. intros [Hc Hr].
  unfold not_colon in Hc. apply negb_true_iff in Hc. rewrite Hc, (IH Hr).
  reflexivity.
Qed.

Lemma split_colon_app (a b : string) :
  string_forall not_colon a = true ->
  split ":" (a ++ String ":" b) = a :: split ":" b.
Proof.
  induction a as [|c r IH]; simpl; [reflexivity|].
  rewrite andb_true_iff. intros [Hc Hr].
  unfold not_colon in Hc. apply negb_true_iff in Hc. rewrite Hc, (IH Hr).
  reflexivity.
Qed.

(** A position written by the engine reads back as the same
    coordinates. *)
Lemma coordinates_pos_text (x y : Z) :
  coordinates (PStr (pos_text x y)) = Ok (x, y).
Proof.
  unfold coordinates, split_colon, pos_text.
  change (str_of_int x ++ ":" ++ str_of_int y)%string
    with (str_of_int x ++ String ":" (str_of_int y))%string.
  rewrite (split_colon_app _ _ (str_of_int_no_colon x)).
  rewrite (split_no_colon _ (str_of_int_no_colon y)).
  unfold unpack_ints. rewrite !int_of_str_of_int. reflexivity.
Qed.

(** [sorted((0, c, d))[1]] is the median of the three. *)
Lemma sorted_median (c d : Z) :
  0 <= d -> nth 1 (sorted [0; c; d]) 0 = median c d.
Proof.
  intros Hd. unfold sorted, median. simpl.
  destruct (c <? 0) eqn:E1; simpl.
  - apply Z.ltb_lt in E1.
    destruct (d <? c) eqn:E2; [apply Z.ltb_lt in E2; lia|].
    simpl. destruct (d <? 0) eqn:E3; [apply Z.ltb_lt in E3; lia|].
    simpl. lia.
  - apply Z.ltb_ge in E1.
    destruct (d <? 0) eqn:E3; [apply Z.ltb_lt in E3; lia|].
    simpl. destruct (d <? c) eqn:E2; simpl.
    + apply Z.ltb_lt in E2. lia.
    + apply Z.ltb_ge in E2. lia.
Qed.

Lemma median_bounds (c d : Z) : 0 <= d -> 0 <= median c d <= d.
Proof. unfold median. lia. Qed.

End IntText.

(* ================================================================== *)
(** ** Facts about the monad *)
(* ================================================================== *)

Section MonadFacts.
Context {S X : Type} (f : S -> X).

Lemma preserves_ret {A : Type} (a : A) : preserves f (ret a).
Proof. intros s. reflexivity. Qed.

Lemma preserves_raise {A : Type} (e : exn) : preserves f (@raise S A e).
Proof. intros s. reflexivity. Qed.

Lemma preserves_lift {A : Type} (r : result A) : preserves f (lift r).
Proof. intros s. reflexivity. Qed.

Lemma preserves_get : preserves f get.
Proof. intros s. reflexivity. Qed.

Lemma preserves_bind {A B : Type} (m : M S A) (k : A -> M S B) :
  preserves f m -> (forall a, preserves f (k a)) -> preserves f (bind m k).
Proof.
  intros Hm Hk s. unfold bind. specialize (Hm s).
  destruct (m s) as [[a|e] s1]; simpl in *.
  - rewrite Hk. exact Hm.
  - exact Hm.
Qed.

Lemma preserves_modify (h : S -> S) :
  (forall s, f (h s) = f s) -> preserves f (modify h).
Proof. intros H s. apply H. Qed.

Lemma preserves_try_except {A : Type} (m : M S A) (h : exn -> M S A) :
  preserves f m -> (forall e, preserves f (h e)) -> preserves f (try_except m h).
Proof.
  intros Hm Hh s. unfold try_except. specialize (Hm s).
  destruct (m s) as [[a|e] s1]; simpl in *.
  - exact Hm.
  - rewrite Hh. exact Hm.
Qed.

Lemma preserves_for_each {A : Type} (l : list A) (body : A -> M S unit) :
  (forall a, preserves f (body a)) -> preserves f (for_each l body).
Proof.
  intros H. induction l as [|a r IH]; simpl.
  - apply preserves_ret.
  - apply preserves_bind; [apply H | intros _; exact IH].
Qed.

End MonadFacts.

Section ReturnFacts.
Context {S : Type}.

Lemma bind_ok {A B : Type} (m : M S A) (k : A -> M S B) (s s' : S) (b : B) :
  bind m k s = (Ok b, s') ->
  exists a s1, m s = (Ok a, s1) /\ k a s1 = (Ok b, s').
Proof.
  unfold bind. destruct (m s) as [[a|e] s1]; intros H.
  - exists a, s1. split; [reflexivity | exact H].
  - discriminate H.
Qed.

Lemma returns_bind {A B : Type} (P : B -> Prop) (m : M S A) (k : A -> M S B) :
  (forall a, returns P (k a)) -> returns P (bind m k).
Proof.
  intros Hk s b s' H. apply bind_ok in H. destruct H as (a & s1 & _ & H).
  exact (Hk a s1 b s' H).
Qed.

Lemma returns_ret {A : Type} (P : A -> Prop) (a : A) :
  P a -> returns P (@ret S A a).
Proof. intros H s b s' [= <- _]. exact H. Qed.

Lemma returns_raise {A : Type} (P : A -> Prop) (e : exn) :
  returns P (@raise S A e).
Proof. intros s b s' H. discriminate H. Qed.

End ReturnFacts.

(* ================================================================== *)
(** ** The engine: primitives and movement *)
(* ================================================================== *)

Import GameEngine.

Ltac run_monad :=
  unfold bind, ret, lift, get, modify, raise; cbn beta iota.

Section EnginePrimitives.
Variables (client : pyval) (k : key).
Hypothesis Hk : to_key client = Some k.

Lemma clients_contains_eq (g : Game) :
  clients_contains client g = (Ok (dict_mem k (clients g)), g).
Proof. unfold clients_contains. run_monad. rewrite (hash_ok _ _ Hk). reflexivity. Qed.

Lemma clients_getitem_eq (g : Game) :
  clients_getitem client g = (getitem (clients g) k, g).
Proof. unfold clients_getitem. run_monad. rewrite (hash_ok _ _ Hk). reflexivity. Qed.

Lemma clients_setitem_eq (v : pyval) (g : Game) :
  clients_setitem client v g = (Ok tt, set_clients (dict_set k v (clients g)) g).
Proof. unfold clients_setitem. run_monad. rewrite (hash_ok _ _ Hk). reflexivity. Qed.

Lemma room_contains_eq (g : Game) :
  room_contains client g = (Ok (dict_mem k (room g)), g).
Proof. unfold room_contains. run_monad. rewrite (hash_ok _ _ Hk). reflexivity. Qed.

Lemma room_item_eq (field : string) (g : Game) :
  room_item client field g =
  (match getitem (room g) k with
   | Ok it => subscript it field
   | Raise e => Raise e
   end, g).
Proof.
  unfold room_item. run_monad. rewrite (hash_ok _ _ Hk).
  destruct (getitem (room g) k); reflexivity.
Qed.

Lemma room_item_set_eq (field : string) (v : pyval) (fields : dict) (g : Game) :
  dict_get k (room g) = Some (PDict fields) ->
  room_item_set client field v g =
  (Ok tt, set_room (dict_set k (PDict (dict_set (KStr field) v fields)) (room g)) g).
Proof.
  intros H. unfold room_item_set, getitem. run_monad.
  rewrite (hash_ok _ _ Hk), H. reflexivity.
Qed.

End EnginePrimitives.

Section Unhashable.
Variable client : pyval.
Hypothesis Hk : to_key client = None.

Lemma hash_unhashable : hash client = Raise TypeError.
Proof. unfold hash. rewrite Hk. reflexivity. Qed.

Lemma clients_contains_unhashable (g : Game) :
  clients_contains client g = (Raise TypeError, g).
Proof. unfold clients_contains. run_monad. rewrite hash_unhashable. reflexivity. Qed.

Lemma clients_getitem_unhashable (g : Game) :
  clients_getitem client g = (Raise TypeError, g).
Proof. unfold clients_getitem. run_monad. rewrite hash_unhashable. reflexivity. Qed.

End Unhashable.

Section Movement.

(** What [_move] does: it raises before any change, or it stores the
    clamped coordinates and reports whether x was clamped. *)
Lemma _move_eq (client : pyval) (k : key) (dx dy : Z) (g : Game) :
  to_key client = Some k ->
  _move client dx dy g =
  match dict_get k (clients g) with
  | None => (Raise KeyError, g)
  | Some p =>
      match coordinates p with
      | Raise e => (Raise e, g)
      | Ok (cx, cy) =>
          (Ok (negb (clamped g (cx + dx) =? cx + dx)),
           moved g k (clamped g (cx + dx)) (clamped g (cy + dy)))
      end
  end.
Proof.
  intros Hk.
  unfold _move, clients_getitem, clients_setitem, coordinates, getitem.
  run_monad. rewrite (hash_ok _ _ Hk).
  destruct (dict_get k (clients g)) as [p|]; [|reflexivity].
  destruct (split_colon p) as [parts|e]; [|reflexivity].
  destruct (unpack_ints parts) as [[cx cy]|e]; [|reflexivity].
  unfold clamped, moved, pos_text.
  destruct (negb _); reflexivity.
Qed.

Lemma _move_unhashable (client : pyval) (dx dy : Z) (g : Game) :
  to_key client = None -> _move client dx dy g = (Raise TypeError, g).
Proof.
  intros Hk. unfold _move. unfold bind at 1.
  rewrite (clients_getitem_unhashable _ Hk). reflexivity.
Qed.

Lemma _move_cases (client : pyval) (dx dy : Z) (g : Game) :
  (exists e, _move client dx dy g = (Raise e, g)) \/
  (exists k p cx cy,
      to_key client = Some k /\
      dict_get k (clients g) = Some p /\
      coordinates p = Ok (cx, cy) /\
      _move client dx dy g =
      (Ok (negb (clamped g (cx + dx) =? cx + dx)),
       moved g k (clamped g (cx + dx)) (clamped g (cy + dy)))).
Proof.
  destruct (to_key client) as [k|] eqn:Hk.
  - rewrite (_move_eq _ _ dx dy g Hk).
    destruct (dict_get k (clients g)) as [p|] eqn:Hp; [|left; eexists; reflexivity].
    destruct (coordinates p) as [[cx cy]|e] eqn:Hc; [|left; eexists; reflexivity].
    right. exists k, p, cx, cy. auto.
  - left. exists TypeError. apply _move_unhashable, Hk.
Qed.

Lemma _move_ok (client : pyval) (k : key) (p : pyval) (cx cy dx dy : Z) (g : Game) :
  to_key client = Some k ->
  dict_get k (clients g) = Some p ->
  coordinates p = Ok (cx, cy) ->
  _move client dx dy g =
  (Ok (negb (clamped g (cx + dx) =? cx + dx)),
   moved g k (clamped g (cx + dx)) (clamped g (cy + dy))).
Proof.
  intros Hk Hp Hc. rewrite (_move_eq _ _ dx dy g Hk), Hp, Hc. reflexivity.
Qed.

Lemma clamped_median (g : Game) (c : Z) :
  room_dimension g = 8 -> clamped g c = median c 8.
Proof. intros H. unfold clamped. rewrite H. apply sorted_median. lia. Qed.

Lemma in_room_moved (k k' : key) (p : pyval) (cx cy dx dy : Z) (g : Game) :
  in_room k g ->
  dict_get k' (clients g) = Some p ->
  coordinates p = Ok (cx, cy) ->
  in_room k (moved g k' (clamped g (cx + dx)) (clamped g (cy + dy))).
Proof.
  intros [HD (x & y & Hpos & Hx & Hy)] Hp Hc.
  split; [exact HD|]. unfold moved. simpl. rewrite dict_get_set.
  destruct (key_eqb k' k) eqn:E.
  - exists (clamped g (cx + dx)), (clamped g (cy + dy)).
    rewrite !(clamped_median _ _ HD). split; [reflexivity|].
    split; apply median_bounds; lia.
  - exists x, y. auto.
Qed.

Lemma _move_in_room (k : key) (client : pyval) (dx dy : Z) (g : Game) :
  in_room k g -> in_room k (snd (_move client dx dy g)).
Proof.
  intros H.
  destruct (_move_cases client dx dy g) as [[e He] | (k' & p & cx & cy & Hk' & Hp & Hc & Hm)].
  - rewrite He. exact H.
  - rewrite Hm. simpl. exact (in_room_moved _ _ _ _ _ _ _ _ H Hp Hc).
Qed.

End Movement.

Ltac preserves_step :=
  first
    [ apply preserves_ret
    | apply preserves_raise
    | apply preserves_lift
    | apply preserves_get
    | apply preserves_modify; intros ?; reflexivity
    | apply preserves_bind; [|intros ?]
    | match goal with
      | |- preserves _ (if ?b then _ else _) => destruct b
      | |- preserves _ (match ?x with _ => _ end) => destruct x
      end ].

Section Handlers.

Lemma draw_preserves_directory : preserves directory draw.
Proof. intros g. unfold draw. destruct (rng g); reflexivity. Qed.

Lemma choice_preserves_directory {A : Type} (d : A) (l : list A) :
  preserves directory (choice d l).
Proof.
  unfold choice. apply preserves_bind; [apply draw_preserves_directory|].
  intros n. apply preserves_ret.
Qed.

Lemma interact_preserves_directory (client : pyval) :
  preserves directory (interact client).
Proof.
  unfold interact, room_item, room_item_set, room_contains, clients_getitem.
  repeat (first [apply choice_preserves_directory | preserves_step]).
Qed.

Lemma get_room_unchanged (connected_clients : pyval) (g : Game) :
  snd (get_room connected_clients g) = g.
Proof.
  unfold get_room. run_monad.
  destruct (items_by_name (room g) []); [|reflexivity].
  destruct connected_clients; reflexivity.
Qed.

Lemma add_client_eq (client : pyval) (k : key) (g : Game) :
  to_key client = Some k ->
  add_client client g =
  match dict_get k (clients g) with
  | Some pos => (Ok (PDict [(KStr "client_id", client); (KStr "pos", pos)]), g)
  | None =>
      (Ok (PDict [(KStr "client_id", client);
                  (KStr "pos", PStr (pos_text (room_dimension g / 2) (room_dimension g / 2)))]),
       moved g k (room_dimension g / 2) (room_dimension g / 2))
  end.
Proof.
  intros Hk. unfold add_client. unfold bind at 1.
  rewrite (clients_contains_eq _ _ Hk). unfold dict_mem.
  destruct (dict_get k (clients g)) as [pos|] eqn:Hp.
  - unfold bind. rewrite (clients_getitem_eq _ _ Hk). unfold getitem. rewrite Hp.
    reflexivity.
  - unfold bind at 1, get at 1. unfold bind at 1.
    rewrite (clients_setitem_eq _ _ Hk). unfold bind.
    rewrite (clients_getitem_eq _ _ Hk). unfold getitem. simpl clients.
    rewrite dict_get_set_same. reflexivity.
Qed.

Lemma add_client_unhashable (client : pyval) (g : Game) :
  to_key client = None -> add_client client g = (Raise TypeError, g).
Proof.
  intros Hk. unfold add_client. unfold bind at 1.
  rewrite (clients_contains_unhashable _ Hk). reflexivity.
Qed.

(** A movement command either leaves the engine as it is or leaves it as
    [_move] does. *)
Lemma guarded_move_state (client : pyval) (dx dy : Z) (g : Game)
  (after : bool -> M Game pyval) :
  (forall b, preserves (fun g => g) (after b)) ->
  let m := bind (clients_contains client)
             (fun known =>
                if negb known then ret (error "client not in room")
                else bind (_move client dx dy) after) in
  snd (m g) = g \/ snd (m g) = snd (_move client dx dy g).
Proof.
  intros Hafter m. subst m.
  set (body := fun known : bool =>
                 if negb known then ret (error "client not in room")
                 else bind (_move client dx dy) after).
  destruct (to_key client) as [k|] eqn:Hk.
  - assert (E : bind (clients_contains client) body g =
                body (dict_mem k (clients g)) g).
    { unfold bind. rewrite (clients_contains_eq _ _ Hk). reflexivity. }
    rewrite E. unfold body.
    destruct (dict_mem k (clients g)); cbn [negb]; [|left; reflexivity].
    right. unfold bind.
    destruct (_move client dx dy g) as [[b|e] g1]; [|reflexivity].
    apply (Hafter b g1).
  - assert (E : bind (clients_contains client) body g = (Raise TypeError, g)).
    { unfold bind. rewrite (clients_contains_unhashable _ Hk). reflexivity. }
    rewrite E. left. reflexivity.
Qed.

Lemma up_state (client : pyval) (g : Game) :
  snd (up client g) = g \/ snd (up client g) = snd (_move client 0 1 g).
Proof.
  apply (guarded_move_state client 0 1 g (fun _ => ret (success "move up"))).
  intros b. apply preserves_ret.
Qed.

Lemma down_state (client : pyval) (g : Game) :
  snd (down client g) = g \/ snd (down client g) = snd (_move client 0 (-1) g).
Proof.
  apply (guarded_move_state client 0 (-1) g (fun _ => ret (success "move down"))).
  intros b. apply preserves_ret.
Qed.

Lemma left_state (client : pyval) (g : Game) :
  snd (left client g) = g \/ snd (left client g) = snd (_move client (-1) 0 g).
Proof.
  apply (guarded_move_state client (-1) 0 g
           (fun exited => if exited then ret (success "exit left")
                          else ret (success "move left"))).
  intros b. destruct b; apply preserves_ret.
Qed.

Lemma right_state (client : pyval) (g : Game) :
  snd (right client g) = g \/ snd (right client g) = snd (_move client 1 0 g).
Proof.
  apply (guarded_move_state client 1 0 g
           (fun exited => if exited then ret (success "exit right")
                          else ret (success "move right"))).
  intros b. destruct b; apply preserves_ret.
Qed.

Lemma in_room_directory (k : key) (g g' : Game) :
  directory g' = directory g -> in_room k g -> in_room k g'.
Proof.
  unfold directory, in_room. intros [= Hc Hd]. rewrite Hc, Hd. tauto.
Qed.

Lemma add_client_in_room (k : key) (client : pyval) (g : Game) :
  in_room k g -> in_room k (snd (add_client client g)).
Proof.
  intros H. destruct (to_key client) as [k'|] eqn:Hk.
  - rewrite (add_client_eq _ _ g Hk).
    destruct (dict_get k' (clients g)); [exact H|].
    destruct H as [HD (x & y & Hpos & Hx & Hy)].
    split; [exact HD|]. unfold moved. simpl. rewrite dict_get_set, HD.
    destruct (key_eqb k' k).
    + exists 4, 4. repeat split; lia.
    + exists x, y. auto.
  - rewrite (add_client_unhashable _ g Hk). exact H.
Qed.

(** No engine command moves a client off the room. *)
Lemma call_in_room (k : key) (method : string) (arg : pyval) (g : Game) :
  in_room k g -> in_room k (snd (call method arg g)).
Proof.
  intros H. unfold call, command_map. cbn [find fst].
  repeat match goal with
         | |- context [if String.eqb ?a method then _ else _] =>
             destruct (String.eqb a method); cbn [find fst]
         end.
  - apply add_client_in_room, H.
  - destruct (up_state arg g) as [-> | ->]; [exact H | apply _move_in_room, H].
  - destruct (down_state arg g) as [-> | ->]; [exact H | apply _move_in_room, H].
  - destruct (left_state arg g) as [-> | ->]; [exact H | apply _move_in_room, H].
  - destruct (right_state arg g) as [-> | ->]; [exact H | apply _move_in_room, H].
  - apply (in_room_directory k g); [apply interact_preserves_directory | exact H].
  - rewrite get_room_unchanged. exact H.
  - exact H.
Qed.

Lemma run_in_room (k : key) (commands : list (string * pyval)) (g : Game) :
  in_room k g -> in_room k (run commands g).
Proof.
  revert g. induction commands as [|[method arg] r IH]; intros g H; simpl.
  - exact H.
  - apply IH, call_in_room, H.
Qed.

End Handlers.

Section Replies.

Lemma median_fixed (c : Z) : median c 8 = c <-> 0 <= c <= 8.
Proof. unfold median. lia. Qed.

Lemma clamped_changed (g : Game) (c : Z) :
  room_dimension g = 8 ->
  negb (clamped g c =? c) = true <-> ~ 0 <= c <= 8.
Proof.
  intros HD. rewrite (clamped_median _ _ HD), negb_true_iff, Z.eqb_neq.
  rewrite median_fixed. tauto.
Qed.

(** A movement command on a client that stands on readable coordinates. *)
Lemma guarded_move_ok (client : pyval) (x y dx dy : Z) (g : Game)
  (after : bool -> M Game pyval) :
  stands_at g client x y ->
  bind (clients_contains client)
    (fun known =>
       if negb known then ret (error "client not in room")
       else bind (_move client dx dy) after) g =
  after (negb (clamped g (x + dx) =? x + dx))
    (snd (_move client dx dy g)).
Proof.
  intros (k & p & Hk & Hp & Hc).
  unfold bind. rewrite (clients_contains_eq _ _ Hk). unfold dict_mem. rewrite Hp.
  cbn [negb]. rewrite (_move_ok _ _ _ _ _ dx dy g Hk Hp Hc). reflexivity.
Qed.

(** A movement command on a client that is not in the directory. *)
Lemma guarded_move_absent (client : pyval) (k : key) (dx dy : Z) (g : Game)
  (after : bool -> M Game pyval) :
  to_key client = Some k ->
  dict_get k (clients g) = None ->
  bind (clients_contains client)
    (fun known =>
       if negb known then ret (error "client not in room")
       else bind (_move client dx dy) after) g =
  (Ok (error "client not in room"), g).
Proof.
  intros Hk Hp.
  unfold bind. rewrite (clients_contains_eq _ _ Hk). unfold dict_mem. rewrite Hp.
  reflexivity.
Qed.

(** A reply of a movement command comes from the guard or follows a
    completed [_move]. *)
Lemma guarded_move_reply (client : pyval) (dx dy : Z) (g g' : Game)
  (after : bool -> M Game pyval) (r : pyval) :
  bind (clients_contains client)
    (fun known =>
       if negb known then ret (error "client not in room")
       else bind (_move client dx dy) after) g = (Ok r, g') ->
  r = error "client not in room" \/
  exists x y,
    stands_at g client x y /\
    after (negb (clamped g (x + dx) =? x + dx)) (snd (_move client dx dy g)) = (Ok r, g').
Proof.
  destruct (to_key client) as [k|] eqn:Hk.
  - destruct (dict_get k (clients g)) as [p|] eqn:Hp.
    + destruct (coordinates p) as [[x y]|e] eqn:Hc.
      * intros H. right. exists x, y.
        assert (Hs : stands_at g client x y) by (exists k, p; auto).
        rewrite (guarded_move_ok _ _ _ dx dy g after Hs) in H. auto.
      * unfold bind. rewrite (clients_contains_eq _ _ Hk). unfold dict_mem.
        rewrite Hp. cbn [negb]. rewrite (_move_eq _ _ dx dy g Hk), Hp, Hc.
        discriminate.
    + rewrite (guarded_move_absent _ _ dx dy g after Hk Hp).
      intros [= <- _]. left. reflexivity.
  - unfold bind. rewrite (clients_contains_unhashable _ Hk). discriminate.
Qed.

Lemma add_client_reply (client : pyval) :
  returns (fun r => exists pos, r = client_reply client pos) (add_client client).
Proof.
  intros g r g'. destruct (to_key client) as [k|] eqn:Hk.
  - rewrite (add_client_eq _ _ g Hk).
    destruct (dict_get k (clients g)); intros [= <- _]; eexists; reflexivity.
  - rewrite (add_client_unhashable _ g Hk). discriminate.
Qed.

Lemma interact_reply (client : pyval) :
  returns (fun r => exists msg, r = PDict [(KStr "msg", msg)]) (interact client).
Proof.
  unfold interact. apply returns_bind. intros pos.
  apply returns_bind. intros on_item.
  apply returns_bind. intros msg.
  apply returns_ret. exists msg. reflexivity.
Qed.

Lemma get_room_reply (connected_clients : pyval) :
  returns (fun r => exists m, r = PDict [(KStr "room", m)]) (get_room connected_clients).
Proof.
  unfold get_room. apply returns_bind. intros g.
  apply returns_bind. intros room_items.
  destruct connected_clients; try apply returns_raise.
  apply returns_ret. eexists. reflexivity.
Qed.

End Replies.

Section Directory.

Lemma known_moved (k k' : key) (x y : Z) (g : Game) :
  known k g -> known k (moved g k' x y).
Proof.
  intros [pos H]. unfold known, moved. simpl. rewrite dict_get_set, H.
  destruct (key_eqb k' k); eexists; reflexivity.
Qed.

Lemma known_directory (k : key) (g g' : Game) :
  directory g' = directory g -> known k g -> known k g'.
Proof. unfold directory, known. intros [= -> _]. tauto. Qed.

Lemma _move_known (k : key) (client : pyval) (dx dy : Z) (g : Game) :
  known k g -> known k (snd (_move client dx dy g)).
Proof.
  intros H.
  destruct (_move_cases client dx dy g) as [[e He] | (k' & p & cx & cy & _ & _ & _ & Hm)].
  - rewrite He. exact H.
  - rewrite Hm. apply known_moved, H.
Qed.

Lemma add_client_known (k : key) (client : pyval) (g : Game) :
  known k g -> known k (snd (add_client client g)).
Proof.
  intros H. destruct (to_key client) as [k'|] eqn:Hk.
  - rewrite (add_client_eq _ _ g Hk).
    destruct (dict_get k' (clients g)); [exact H | apply known_moved, H].
  - rewrite (add_client_unhashable _ g Hk). exact H.
Qed.

(** No engine command removes a client from the directory. *)
Lemma call_known (k : key) (method : string) (arg : pyval) (g : Game) :
  known k g -> known k (snd (call method arg g)).
Proof.
  intros H. unfold call, command_map. cbn [find fst].
  repeat match goal with
         | |- context [if String.eqb ?a method then _ else _] =>
             destruct (String.eqb a method); cbn [find fst]
         end.
  - apply add_client_known, H.
  - destruct (up_state arg g) as [-> | ->]; [exact H | apply _move_known, H].
  - destruct (down_state arg g) as [-> | ->]; [exact H | apply _move_known, H].
  - destruct (left_state arg g) as [-> | ->]; [exact H | apply _move_known, H].
  - destruct (right_state arg g) as [-> | ->]; [exact H | apply _move_known, H].
  - apply (known_directory k g); [apply interact_preserves_directory | exact H].
  - rewrite get_room_unchanged. exact H.
  - exact H.
Qed.

Lemma run_known (k : key) (commands : list (string * pyval)) (g : Game) :
  known k g -> known k (run commands g).
Proof.
  revert g. induction commands as [|[method arg] r IH]; intros g H; simpl.
  - exact H.
  - apply IH, call_known, H.
Qed.

Lemma moved_same (g : Game) (k : key) (x y : Z) :
  dict_get k (clients g) = Some (PStr (pos_text x y)) -> moved g k x y = g.
Proof.
  intros H. unfold moved. rewrite (dict_set_known _ _ _ H).
  destruct g; reflexivity.
Qed.

Lemma stands_at_moved (g : Game) (client : pyval) (k : key) (x y : Z) :
  to_key client = Some k -> stands_at (moved g k x y) client x y.
Proof.
  intros Hk. exists k, (PStr (pos_text x y)). split; [exact Hk|].
  split; [|apply coordinates_pos_text].
  unfold moved. simpl. apply dict_get_set_same.
Qed.

End Directory.

Section Interaction.

Lemma bind_step {S A B : Type} (m : M S A) (k : A -> M S B) (s s1 : S) (a : A) :
  m s = (Ok a, s1) -> bind m k s = k a s1.
Proof. intros H. unfold bind. rewrite H. reflexivity. Qed.

Lemma dict_set_set (k : key) (v w : pyval) (d : dict) :
  dict_set k v (dict_set k w d) = dict_set k v d.
Proof.
  induction d as [|[k' v'] r IH]; simpl.
  - rewrite key_eqb_refl. reflexivity.
  - destruct (key_eqb k' k) eqn:E; simpl; rewrite E; [reflexivity|].
    rewrite IH. reflexivity.
Qed.

Variables (g : Game) (client pos : pyval) (k pk : key) (it : dict).
Variables (u : Z) (b : bool) (use_message empty_message conflict_message : pyval).
Hypothesis Hk : to_key client = Some k.
Hypothesis Hpos : dict_get k (clients g) = Some pos.
Hypothesis Hpk : to_key pos = Some pk.
Hypothesis Hit : dict_get pk (room g) = Some (PDict it).
Hypothesis Hflag : dict_get (KStr "emptied_this_round") it = Some (PBool b).
Hypothesis Huses : dict_get (KStr "uses") it = Some (PInt u).
Hypothesis Huse : dict_get (KStr "use_message") it = Some use_message.
Hypothesis Hempty : dict_get (KStr "empty_message") it = Some empty_message.
Hypothesis Hconflict : dict_get (KStr "conflict_message") it = Some conflict_message.

Lemma item_field (field : string) (v : pyval) (fields : dict) (g1 : Game) :
  dict_get pk (room g1) = Some (PDict fields) ->
  dict_get (KStr field) fields = Some v ->
  room_item pos field g1 = (Ok v, g1).
Proof.
  intros H1 H2. rewrite (room_item_eq _ _ Hpk). unfold getitem. rewrite H1.
  unfold subscript, getitem. rewrite H2. reflexivity.
Qed.

Lemma interact_item_eq :
  interact client g =
  if b then (Ok (msg_reply conflict_message), g)
  else if u =? 0 then (Ok (msg_reply empty_message), g)
  else (Ok (msg_reply use_message),
        set_room (dict_set pk (PDict (used_item it u)) (room g)) g).
Proof.
  unfold interact.
  rewrite (bind_step _ _ g g pos).
  2:{ rewrite (clients_getitem_eq _ _ Hk). unfold getitem. rewrite Hpos. reflexivity. }
  rewrite (bind_step _ _ g g true).
  2:{ rewrite (room_contains_eq _ _ Hpk). unfold dict_mem. rewrite Hit. reflexivity. }
  cbv iota. unfold bind at 1.
  rewrite (bind_step _ _ g g (PBool b)) by (apply item_field with it; assumption).
  cbn [truthy]. destruct b; cbn [negb].
  - rewrite (item_field _ _ _ _ Hit Hconflict). reflexivity.
  - rewrite (bind_step _ _ g g (PInt u)) by (apply item_field with it; assumption).
    change (eq_key (PInt u) (KInt 0)) with (u =? 0).
    destruct (u =? 0) eqn:Hu.
    + rewrite (item_field _ _ _ _ Hit Hempty). reflexivity.
    + rewrite (bind_step _ _ g g (PInt u)) by (apply item_field with it; assumption).
      rewrite (bind_step _ _ g g (PInt (u - 1))) by reflexivity.
      rewrite (bind_step _ _ g _ tt) by (apply (room_item_set_eq _ _ Hpk), Hit).
      set (it1 := dict_set (KStr "uses") (PInt (u - 1)) it).
      set (g1 := set_room (dict_set pk (PDict it1) (room g)) g).
      assert (Hit1 : dict_get pk (room g1) = Some (PDict it1))
        by apply dict_get_set_same.
      assert (Huse1 : dict_get (KStr "use_message") it1 = Some use_message).
      { unfold it1. rewrite dict_get_set_other; [exact Huse | reflexivity]. }
      assert (Huses1 : dict_get (KStr "uses") it1 = Some (PInt (u - 1)))
        by apply dict_get_set_same.
      rewrite (bind_step _ _ g1 g1 use_message) by (apply item_field with it1; assumption).
      rewrite (bind_step _ _ g1 g1 (PInt (u - 1))) by (apply item_field with it1; assumption).
      change (eq_key (PInt (u - 1)) (KInt 0)) with (u - 1 =? 0).
      unfold used_item. fold it1.
      destruct (u - 1 =? 0).
      * rewrite (bind_step _ _ g1 _ tt) by (apply (room_item_set_eq _ _ Hpk), Hit1).
        unfold g1. simpl room. rewrite dict_set_set. reflexivity.
      * reflexivity.
Qed.

End Interaction.

Section Snapshot.

Lemma entries_absent (k : key) (d : dict) :
  dict_get k d = None -> entries k d = O.
Proof.
  induction d as [|[k' v'] r IH]; simpl; [reflexivity|].
  destruct (key_eqb k' k); [discriminate | exact IH].
Qed.

Lemma entries_present (k : key) (v : pyval) (d : dict) :
  dict_get k d = Some v -> (1 <= entries k d)%nat.
Proof.
  induction d as [|[k' v'] r IH]; simpl; [discriminate|].
  destruct (key_eqb k' k); [lia | exact IH].
Qed.

Lemma entries_set (k1 k2 : key) (v : pyval) (d : dict) :
  entries k2 (dict_set k1 v d) =
  (entries k2 d + if key_eqb k1 k2 && negb (dict_mem k1 d) then 1 else 0)%nat.
Proof.
  unfold dict_mem. induction d as [|[k' v'] r IH]; simpl.
  - destruct (key_eqb k1 k2); reflexivity.
  - destruct (key_eqb k' k1) eqn:E; simpl.
    + rewrite andb_false_r. lia.
    + rewrite IH. lia.
Qed.

Lemma dict_wf_nil : dict_wf [].
Proof. intros k. simpl. lia. Qed.

Lemma dict_wf_set (k : key) (v : pyval) (d : dict) :
  dict_wf d -> dict_wf (dict_set k v d).
Proof.
  intros H k2. rewrite entries_set. specialize (H k2).
  destruct (key_eqb k k2) eqn:E; simpl; [|lia].
  unfold dict_mem. destruct (dict_get k d) eqn:G; simpl; [lia|].
  rewrite (dict_get_congr _ _ d E) in G. rewrite (entries_absent _ _ G). lia.
Qed.

Lemma dict_wf_update (d e : dict) : dict_wf d -> dict_wf (dict_update d e).
Proof.
  unfold dict_update. revert d. induction e as [|[k v] r IH]; intros d H; simpl.
  - exact H.
  - apply IH, dict_wf_set, H.
Qed.

Lemma dict_mem_set (k1 k2 : key) (v : pyval) (d : dict) :
  dict_mem k2 d = true -> dict_mem k2 (dict_set k1 v d) = true.
Proof.
  unfold dict_mem. rewrite dict_get_set.
  destruct (key_eqb k1 k2); [reflexivity | tauto].
Qed.

Lemma dict_mem_update (k : key) (d e : dict) :
  dict_mem k d = true -> dict_mem k (dict_update d e) = true.
Proof.
  unfold dict_update. revert d. induction e as [|[k1 v1] r IH]; intros d H; simpl.
  - exact H.
  - apply IH, dict_mem_set, H.
Qed.

(** In [d |= e] the entries of [e] win. *)
Lemma dict_get_update (k : key) (d e : dict) :
  dict_wf e ->
  dict_get k (dict_update d e) =
  match dict_get k e with
  | Some v => Some v
  | None => dict_get k d
  end.
Proof.
  unfold dict_update. revert d. induction e as [|[k1 v1] r IH]; intros d H; simpl.
  - reflexivity.
  - assert (Hr : dict_wf r).
    { intros k2. specialize (H k2). simpl in H. lia. }
    rewrite (IH _ Hr), dict_get_set.
    destruct (key_eqb k1 k) eqn:E; [|reflexivity].
    specialize (H k). simpl in H. rewrite E in H.
    destruct (dict_get k r) eqn:G; [|reflexivity].
    apply entries_present in G. lia.
Qed.

Lemma items_by_name_wf (cells acc inv : dict) :
  items_by_name cells acc = Ok inv -> dict_wf acc -> dict_wf inv.
Proof.
  revert acc. induction cells as [|[cell val] r IH]; intros acc; simpl.
  - intros [= <-]. tauto.
  - destruct (subscript val "name") as [name|]; [|discriminate].
    destruct (hash name) as [n|]; [|discriminate].
    intros H Hacc. exact (IH _ H (dict_wf_set _ _ _ Hacc)).
Qed.

Lemma items_by_name_keeps (cells acc inv : dict) (n : key) :
  items_by_name cells acc = Ok inv ->
  dict_mem n acc = true -> dict_mem n inv = true.
Proof.
  revert acc. induction cells as [|[cell val] r IH]; intros acc; simpl.
  - intros [= <-]. tauto.
  - destruct (subscript val "name") as [name|]; [|discriminate].
    destruct (hash name) as [n'|]; [|discriminate].
    intros H Hacc. exact (IH _ H (dict_mem_set _ _ _ _ Hacc)).
Qed.

Lemma items_by_name_has (cells acc inv : dict) (cell : key) (it : pyval) (n : key) :
  items_by_name cells acc = Ok inv ->
  In (cell, it) cells -> named it n -> dict_mem n inv = true.
Proof.
  revert acc. induction cells as [|[cell' val] r IH]; intros acc; simpl.
  - tauto.
  - intros H [E | Hin] Hn.
    + injection E as -> ->. destruct Hn as (name & Hs & Hk).
      rewrite Hs, (hash_ok _ _ Hk) in H.
      apply (items_by_name_keeps _ _ _ n H).
      unfold dict_mem. rewrite dict_get_set_same. reflexivity.
    + destruct (subscript val "name") as [name|]; [|discriminate].
      destruct (hash name) as [n'|]; [|discriminate].
      exact (IH _ H Hin Hn).
Qed.

Lemma get_room_eq (connected inv : dict) (g : Game) :
  items_by_name (room g) [] = Ok inv ->
  get_room (PDict connected) g =
  (Ok (PDict [(KStr "room", PDict (dict_update inv connected))]), g).
Proof. intros H. unfold get_room. run_monad. rewrite H. reflexivity. Qed.

Lemma entries_one (k : key) (d : dict) :
  dict_wf d -> dict_mem k d = true -> entries k d = 1%nat.
Proof.
  intros Hwf Hm. specialize (Hwf k). apply dict_mem_get in Hm.
  destruct Hm as [v Hv]. apply entries_present in Hv. lia.
Qed.

End Snapshot.

(* ================================================================== *)
(** ** The server: dispatch and persistence *)
(* ================================================================== *)

Import GameServer.

Section Dispatch.

Lemma handler_reply_dict (name : key) (handler : pyval -> M Game pyval)
  (arg : pyval) (g g' : Game) (r : pyval) :
  find_handler name = Some handler ->
  handler arg g = (Ok r, g') ->
  exists d, r = PDict d.
Proof.
  unfold find_handler. destruct name as [| | |m]; try discriminate.
  unfold command_map. cbn [find fst].
  repeat match goal with
         | |- context [if String.eqb ?a m then _ else _] =>
             destruct (String.eqb a m); cbn [find fst option_map snd]
         end;
    intros [= <-] H.
  - apply add_client_reply in H. destruct H as [pos ->]. eexists. reflexivity.
  - apply guarded_move_reply in H.
    destruct H as [-> | (x & y & _ & [= <- _])]; eexists; reflexivity.
  - apply guarded_move_reply in H.
    destruct H as [-> | (x & y & _ & [= <- _])]; eexists; reflexivity.
  - apply guarded_move_reply in H.
    destruct H as [-> | (x & y & _ & H)]; [eexists; reflexivity|].
    destruct (negb _); injection H as <- _; eexists; reflexivity.
  - apply guarded_move_reply in H.
    destruct H as [-> | (x & y & _ & H)]; [eexists; reflexivity|].
    destruct (negb _); injection H as <- _; eexists; reflexivity.
  - apply interact_reply in H. destruct H as [msg ->]. eexists. reflexivity.
  - apply get_room_reply in H. destruct H as [m' ->]. eexists. reflexivity.
Qed.

Lemma find_handler_known (name : key) (handler : pyval -> M Game pyval) :
  find_handler name = Some handler ->
  exists m, name = KStr m /\ In m (map fst command_map).
Proof.
  unfold find_handler. destruct name as [| | |m]; try discriminate.
  intros H. exists m. split; [reflexivity|].
  destruct (find _ command_map) as [[m' h]|] eqn:F; [|discriminate H].
  apply find_some in F. destruct F as [Hin Heq]. simpl in Heq.
  apply String.eqb_eq in Heq. subst m'.
  apply (in_map fst) in Hin. exact Hin.
Qed.

Lemma find_handler_some (m : string) :
  In m (map fst command_map) -> exists handler, find_handler (KStr m) = Some handler.
Proof.
  simpl. intros H.
  repeat (destruct H as [<- | H]; [eexists; reflexivity|]).
  destruct H.
Qed.

Lemma update_ckpt_eq (s : GameServer) : _update_ckpt s = (Ok tt, checkpointed s).
Proof.
  destruct s. unfold _update_ckpt, checkpointed, ckpt_lines. run_monad.
  cbv -[app json_line]. rewrite <- !app_assoc. reflexivity.
Qed.

Lemma bind_raise_step {S A B : Type} (m : M S A) (k : A -> M S B) (s s1 : S) (e : exn) :
  m s = (Raise e, s1) -> bind m k s = (Raise e, s1).
Proof. intros H. unfold bind. rewrite H. reflexivity. Qed.

Lemma appended_ops (l : line) (s : GameServer) :
  fs_ops (appended l s) = fs_ops s ++ [LogWrite l; LogFlush; LogFsync].
Proof. unfold appended. cbn. rewrite <- !app_assoc. reflexivity. Qed.

Lemma log_block_eq (cmd : pyval) (s : GameServer) :
  bind (log_write (json_line cmd))
    (fun _ => bind log_flush
       (fun _ => bind log_fsync
          (fun _ => bind (modify (fun s => set_log_length (log_length s + 1) s))
             (fun _ => bind get
                (fun s => if 100 <? log_length s then _update_ckpt else ret tt)))))
    s = (Ok tt, logged_state cmd s).
Proof.
  unfold logged_state.
  set (s1 := appended (json_line cmd) s).
  change ((if 100 <? log_length s1 then _update_ckpt else ret tt) s1 =
          (Ok tt, if 100 <? log_length s1 then checkpointed s1 else s1)).
  destruct (100 <? log_length s1).
  - apply update_ckpt_eq.
  - reflexivity.
Qed.

Lemma finish_eq (d : dict) (s : GameServer) :
  bind (lift (contains "error" (PDict d)))
    (fun is_error => bind (if is_error then count_error else ret tt)
       (fun _ => ret (PDict d)))
    s = (Ok (PDict d), counted (PDict d) s).
Proof.
  unfold counted, bind, lift, contains.
  destruct (dict_mem (KStr "error") d); reflexivity.
Qed.

Lemma counted_durable (reply : pyval) (s : GameServer) :
  durable (counted reply s) = durable s.
Proof.
  unfold counted. destruct (contains "error" reply) as [[|]|]; try reflexivity.
  unfold count_error, modify. simpl.
  destruct (stats_get "errors" (lifetime_stats s)); reflexivity.
Qed.

Lemma counted_engine (reply : pyval) (s : GameServer) :
  engine (counted reply s) = engine s.
Proof.
  unfold counted. destruct (contains "error" reply) as [[|]|]; try reflexivity.
  unfold count_error, modify. simpl.
  destruct (stats_get "errors" (lifetime_stats s)); reflexivity.
Qed.

Lemma not_dispatchable_shape (cmd : pyval) :
  (forall d, cmd <> PDict d) -> ~ dispatchable cmd.
Proof. intros H (d & m & c & E & _). exact (H d E). Qed.

Lemma on_engine_ok {A : Type} (m : M Game A) (s s' : GameServer) (a : A) :
  on_engine m s = (Ok a, s') ->
  exists g', m (engine s) = (Ok a, g') /\ s' = set_engine g' s.
Proof.
  unfold on_engine. destruct (m (engine s)) as [[a'|e] g']; intros [= <- <-].
  exists g'. auto.
Qed.

Lemma on_engine_durable {A : Type} (m : M Game A) : preserves durable (on_engine m).
Proof. intros s. unfold on_engine. destruct (m (engine s)) as [r g']. reflexivity. Qed.

Lemma alive_clients_durable : preserves durable alive_clients.
Proof. unfold alive_clients. repeat preserves_step. Qed.

(** The handler call of [_parse_command]. *)
Lemma handler_call (name : key) (handler : pyval -> M Game pyval)
  (method client : pyval) (s s2 : GameServer) (r : result pyval) :
  find_handler name = Some handler ->
  (if eq_key method (KStr "get_room")
   then bind alive_clients (fun alive => on_engine (handler (PDict alive)))
   else bind (lift (Ok client)) (fun client0 => on_engine (handler client0))) s = (r, s2) ->
  durable s2 = durable s /\
  forall reply, r = Ok reply -> exists d, reply = PDict d.
Proof.
  intros Hf H. split.
  - change s2 with (snd (r, s2)). rewrite <- H.
    destruct (eq_key method (KStr "get_room")).
    + apply preserves_bind; [apply alive_clients_durable|].
      intros a. apply on_engine_durable.
    + apply preserves_bind; [apply preserves_lift|].
      intros a. apply on_engine_durable.
  - intros reply ->.
    destruct (eq_key method (KStr "get_room"));
      apply bind_ok in H; destruct H as (a & s1 & _ & H);
      apply on_engine_ok in H; destruct H as (g' & H & _);
      exact (handler_reply_dict _ _ _ _ _ _ Hf H).
Qed.

Lemma parse_command_dict (d : dict) (s s' : GameServer) (r : result pyval) :
  _parse_command (PDict d) false s = (r, s') ->
  (durable s' = durable s /\ ((exists e, r = Raise e) \/ ~ dispatchable (PDict d))) \/
  (dispatchable (PDict d) /\
   exists reply s2,
     r = Ok reply /\ durable s2 = durable s /\
     s' = counted reply (logged_state (PDict d) s2)).
Proof.
  unfold _parse_command. unfold all_in, REQUIRED_ITEMS, contains at 1 2, dict_mem.
  destruct (dict_get (KStr "method") d) as [method|] eqn:Hm.
  2:{ rewrite (bind_step _ _ s s false) by reflexivity.
      cbn [negb]. rewrite (bind_step _ _ s s _) by reflexivity.
      unfold error. rewrite finish_eq. intros [= <- <-]. left.
      split; [apply counted_durable|]. right.
      intros (d' & m & c & [= <-] & H & _). congruence. }
  destruct (dict_get (KStr "client") d) as [client|] eqn:Hc.
  2:{ rewrite (bind_step _ _ s s false) by reflexivity.
      cbn [negb]. rewrite (bind_step _ _ s s _) by reflexivity.
      unfold error. rewrite finish_eq. intros [= <- <-]. left.
      split; [apply counted_durable|]. right.
      intros (d' & m & c & [= <-] & _ & H & _). congruence. }
  rewrite (bind_step _ _ s s true) by reflexivity.
  cbn [negb]. unfold bind at 1.
  rewrite (bind_step _ _ s s (dict_mem (KStr "broadcast_addr") d)) by reflexivity.
  match goal with
  | |- context [bind (if dict_mem (KStr "broadcast_addr") d then ?a else ?b) _ s] =>
      set (blk := if dict_mem (KStr "broadcast_addr") d then a else b)
  end.
  assert (Hblk : (exists s1, blk s = (Ok tt, s1) /\ durable s1 = durable s) \/
                 blk s = (Raise TypeError, s)).
  { unfold blk, dict_mem, subscript, getitem.
    destruct (dict_get (KStr "broadcast_addr") d) as [addr|].
    - rewrite Hc. unfold bind, lift, connections_setitem, hash.
      destruct (to_key client) as [k|]; [left | right; reflexivity].
      eexists. split; reflexivity.
    - left. exists s. split; reflexivity. }
  clearbody blk.
  destruct Hblk as [(s1 & Hb & Hd1) | Hb].
  2:{ rewrite (bind_raise_step _ _ _ _ _ Hb). intros [= <- <-].
      left. split; [reflexivity | left; eexists; reflexivity]. }
  rewrite (bind_step _ _ _ _ _ Hb).
  unfold subscript, getitem. rewrite Hm, Hc.
  rewrite (bind_step _ _ s1 s1 method) by reflexivity.
  unfold hash. destruct (to_key method) as [name|] eqn:Hn.
  2:{ rewrite (bind_raise_step _ _ s1 s1 TypeError) by reflexivity.
      intros [= <- <-]. left. split; [exact Hd1 | left; eexists; reflexivity]. }
  rewrite (bind_step _ _ s1 s1 name) by reflexivity.
  destruct (find_handler name) as [handler|] eqn:Hf.
  - destruct (find_handler_known _ _ Hf) as (m & -> & Hin).
    assert (method = PStr m) as -> by (destruct method; inversion Hn; reflexivity).
    assert (Hdisp : dispatchable (PDict d)) by (exists d, m, client; auto).
    match goal with
    | |- context [bind (if eq_key (PStr m) (KStr "get_room") then ?a else ?b) _ s1] =>
        set (call := if eq_key (PStr m) (KStr "get_room") then a else b)
    end.
    destruct (call s1) as [[reply|e] s2] eqn:Hcall;
      destruct (handler_call _ _ _ _ _ _ _ Hf Hcall) as [Hd2 Hdict].
    + rewrite (bind_step _ _ _ _ _ Hcall).
      rewrite (bind_step _ _ _ _ _ (log_block_eq _ _)).
      destruct (Hdict reply eq_refl) as [d' ->].
      unfold ret at 1. rewrite finish_eq. intros [= <- <-].
      right. split; [exact Hdisp|]. exists (PDict d'), s2.
      split; [reflexivity|]. split; [congruence | reflexivity].
    + rewrite (bind_raise_step _ _ _ _ _ Hcall). intros [= <- <-].
      left. split; [congruence | left; eexists; reflexivity].
  - unfold ret at 1, error. rewrite finish_eq. intros [= <- <-].
    left. split; [rewrite counted_durable; exact Hd1|]. right.
    intros (d' & m & c & [= <-] & Hm' & _ & Hin).
    rewrite Hm in Hm'. injection Hm' as ->. injection Hn as <-.
    destruct (find_handler_some _ Hin) as [h Hh]. congruence.
Qed.

Lemma parse_command_other (cmd : pyval) (s s' : GameServer) (r : result pyval) :
  (forall d, cmd <> PDict d) ->
  _parse_command cmd false s = (r, s') ->
  durable s' = durable s.
Proof.
  intros Hshape. unfold _parse_command.
  assert (Hsub : forall name, subscript cmd name = Raise TypeError).
  { intros name. destruct cmd; try reflexivity. exfalso. exact (Hshape d eq_refl). }
  destruct (all_in REQUIRED_ITEMS cmd) as [[|]|e] eqn:Hall.
  - rewrite (bind_step _ _ s s true) by reflexivity.
    cbn [negb]. unfold bind at 1.
    destruct (contains "broadcast_addr" cmd) as [[|]|e] eqn:Hb.
    + rewrite (bind_step _ _ s s true) by reflexivity.
      rewrite !Hsub.
      rewrite (bind_raise_step _ _ s s TypeError) by reflexivity.
      intros [= <- <-]. reflexivity.
    + rewrite (bind_step _ _ s s false) by reflexivity.
      rewrite (bind_step _ _ s s tt) by reflexivity.
      rewrite !Hsub.
      rewrite (bind_raise_step _ _ s s TypeError) by reflexivity.
      intros [= <- <-]. reflexivity.
    + rewrite (bind_raise_step _ _ s s e) by reflexivity.
      intros [= <- <-]. reflexivity.
  - rewrite (bind_step _ _ s s false) by reflexivity.
    cbn [negb]. rewrite (bind_step _ _ s s _) by reflexivity.
    unfold error. rewrite finish_eq. intros [= <- <-]. apply counted_durable.
  - rewrite (bind_raise_step _ _ s s e) by reflexivity.
    intros [= <- <-]. reflexivity.
Qed.

(** What [_parse_command] does to the disk: nothing, or the handler
    returned a reply and the command went to the log. *)
Lemma parse_command_cases (cmd : pyval) (s s' : GameServer) (r : result pyval) :
  _parse_command cmd false s = (r, s') ->
  (durable s' = durable s /\ ((exists e, r = Raise e) \/ ~ dispatchable cmd)) \/
  (dispatchable cmd /\
   exists reply s2,
     r = Ok reply /\ durable s2 = durable s /\
     s' = counted reply (logged_state cmd s2)).
Proof.
  destruct cmd as [| | | |l|d]; try apply parse_command_dict;
    intros H; left;
    (split; [eapply parse_command_other; [|exact H]; intros ?; discriminate
            | right; apply not_dispatchable_shape; intros ?; discriminate]).
Qed.

End Dispatch.

(* ================================================================== *)
(** ** Properties of the engine *)
(* ================================================================== *)

Section EngineProperties.

(** C5.  A client that [add_client] has inserted stays on the room: after
    any finite sequence of engine commands (the movement commands [up],
    [down], [left], [right] among them, issued for any client) its stored
    position is ["x:y"] with [0 <= x <= 8] and [0 <= y <= 8].  Each move
    stores, for an attempted coordinate [c], the median of [0], [c] and
    [8]. *)
Theorem positions_stay_in_room
  (g : Game) (client : pyval) (k : key) (commands : list (string * pyval)) :
  room_dimension g = 8 ->
  to_key client = Some k ->
  dict_get k (clients g) = None ->
  (exists x y,
      dict_get k (clients (run commands (snd (add_client client g)))) =
      Some (PStr (pos_text x y)) /\
      0 <= x <= 8 /\ 0 <= y <= 8) /\
  (forall g1 mover x y dx dy,
      room_dimension g1 = 8 ->
      stands_at g1 mover x y ->
      stands_at (snd (_move mover dx dy g1)) mover
        (median (x + dx) 8) (median (y + dy) 8)).
Proof.
  intros HD Hk Habsent. split.
  - assert (H : in_room k (snd (add_client client g))).
    { rewrite (add_client_eq _ _ g Hk), Habsent. simpl snd.
      split; [exact HD|]. exists 4, 4. unfold moved. simpl clients.
      rewrite dict_get_set_same, HD. repeat split; lia. }
    apply (run_in_room k commands) in H.
    destruct H as [_ H]. exact H.
  - intros g1 mover x y dx dy HD1 (k1 & p & Hk1 & Hp & Hc).
    rewrite (_move_ok _ _ _ _ _ dx dy g1 Hk1 Hp Hc). simpl snd.
    rewrite !(clamped_median _ _ HD1). apply stands_at_moved, Hk1.
Qed.

(** C9.  [add_client] is idempotent: the first call for a client id puts
    it on the centre ["4:4"] and replies [{client_id, pos}]; any later
    call for that id, whatever commands ran in between, replies with the
    client's current position and leaves the whole engine unchanged. *)
Theorem add_client_idempotent (g : Game) (client : pyval) (k : key) :
  room_dimension g = 8 ->
  to_key client = Some k ->
  (dict_get k (clients g) = None ->
   add_client client g =
   (Ok (client_reply client (PStr "4:4")),
    set_clients (clients g ++ [(k, PStr "4:4")]) g)) /\
  (forall pos,
      dict_get k (clients g) = Some pos ->
      add_client client g = (Ok (client_reply client pos), g)) /\
  (forall commands,
      let g' := run commands (snd (add_client client g)) in
      exists pos,
        dict_get k (clients g') = Some pos /\
        add_client client g' = (Ok (client_reply client pos), g')).
Proof.
  intros HD Hk. split; [|split].
  - intros Habsent. rewrite (add_client_eq _ _ g Hk), Habsent, HD.
    unfold moved. rewrite (dict_set_absent _ _ _ Habsent). reflexivity.
  - intros pos Hpos. rewrite (add_client_eq _ _ g Hk), Hpos. reflexivity.
  - intros commands g'.
    assert (H : known k (snd (add_client client g))).
    { rewrite (add_client_eq _ _ g Hk).
      destruct (dict_get k (clients g)) as [pos|] eqn:Hpos.
      - exists pos. exact Hpos.
      - eexists. unfold moved. simpl. apply dict_get_set_same. }
    apply (run_known k commands) in H. fold g' in H.
    destruct H as [pos Hpos]. exists pos. split; [exact Hpos|].
    rewrite (add_client_eq _ _ g' Hk), Hpos. reflexivity.
Qed.

(** C7.  For a client of the room at coordinates [(x, y)]: [left] and
    [right] reply ["exit left"] / ["exit right"] exactly when the
    attempted x coordinate is outside [0, 8], and store the clamped
    position; [up] and [down] always reply ["move up"] / ["move down"];
    at [y = 8] ([y = 0]) [up] ([down]) leaves the position where it is.
    No other command of the engine replies with an exit, and an exit
    reply tells that the attempted x coordinate was outside [0, 8]. *)
Theorem room_exit_only_horizontal
  (g : Game) (client : pyval) (k : key) (p : pyval) (x y : Z) :
  room_dimension g = 8 ->
  to_key client = Some k ->
  dict_get k (clients g) = Some p ->
  coordinates p = Ok (x, y) ->
  left client g =
  (Ok (success (if within (x - 1) then "move left" else "exit left")),
   moved g k (median (x - 1) 8) (median y 8)) /\
  right client g =
  (Ok (success (if within (x + 1) then "move right" else "exit right")),
   moved g k (median (x + 1) 8) (median y 8)) /\
  up client g =
  (Ok (success "move up"), moved g k (median x 8) (median (y + 1) 8)) /\
  down client g =
  (Ok (success "move down"), moved g k (median x 8) (median (y - 1) 8)) /\
  (0 <= x <= 8 -> y = 8 ->
   stands_at (snd (up client g)) client x y /\
   (p = PStr (pos_text x y) -> snd (up client g) = g)) /\
  (0 <= x <= 8 -> y = 0 ->
   stands_at (snd (down client g)) client x y /\
   (p = PStr (pos_text x y) -> snd (down client g) = g)) /\
  (forall method arg reply g',
      call method arg g = (Ok reply, g') ->
      reply = success "exit left" \/ reply = success "exit right" ->
      exists cx cy,
        stands_at g arg cx cy /\
        (method = "left" /\ reply = success "exit left" /\ ~ 0 <= cx - 1 <= 8 \/
         method = "right" /\ reply = success "exit right" /\ ~ 0 <= cx + 1 <= 8)).
Proof.
  intros HD Hk Hp Hc.
  assert (Hs : stands_at g client x y) by (exists k, p; auto).
  assert (Hwithin : forall c, negb (clamped g c =? c) = negb (within c)).
  { intros c. rewrite (clamped_median _ _ HD). f_equal. unfold within, median.
    destruct (0 <=? c) eqn:E1, (c <=? 8) eqn:E2; simpl;
      [apply Z.eqb_eq | apply Z.eqb_neq ..]; lia. }
  assert (Hmove : forall dx dy,
             snd (_move client dx dy g) =
             moved g k (median (x + dx) 8) (median (y + dy) 8)).
  { intros dx dy. rewrite (_move_ok _ _ _ _ _ dx dy g Hk Hp Hc).
    rewrite !(clamped_median _ _ HD). reflexivity. }
  assert (Hleft : left client g =
                  (Ok (success (if within (x - 1) then "move left" else "exit left")),
                   moved g k (median (x - 1) 8) (median y 8))).
  { unfold left. rewrite (guarded_move_ok _ _ _ _ _ _ _ Hs), Hmove, Hwithin.
    replace (x + -1) with (x - 1) by lia. replace (y + 0) with y by lia.
    destruct (within (x - 1)); reflexivity. }
  assert (Hright : right client g =
                   (Ok (success (if within (x + 1) then "move right" else "exit right")),
                    moved g k (median (x + 1) 8) (median y 8))).
  { unfold right. rewrite (guarded_move_ok _ _ _ _ _ _ _ Hs), Hmove, Hwithin.
    replace (y + 0) with y by lia.
    destruct (within (x + 1)); reflexivity. }
  assert (Hup : up client g =
                (Ok (success "move up"), moved g k (median x 8) (median (y + 1) 8))).
  { unfold up. rewrite (guarded_move_ok _ _ _ _ _ _ _ Hs), Hmove.
    replace (x + 0) with x by lia. reflexivity. }
  assert (Hdown : down client g =
                  (Ok (success "move down"), moved g k (median x 8) (median (y - 1) 8))).
  { unfold down. rewrite (guarded_move_ok _ _ _ _ _ _ _ Hs), Hmove.
    replace (x + 0) with x by lia. replace (y + -1) with (y - 1) by lia.
    reflexivity. }
  repeat split; try assumption.
  - rewrite Hup. simpl snd.
    replace (median x 8) with x by (unfold median; lia).
    replace (median (y + 1) 8) with y by (unfold median; lia).
    apply stands_at_moved, Hk.
  - intros ->. rewrite Hup. simpl snd.
    replace (median x 8) with x by (unfold median; lia).
    replace (median (y + 1) 8) with y by (unfold median; lia).
    apply moved_same, Hp.
  - rewrite Hdown. simpl snd.
    replace (median x 8) with x by (unfold median; lia).
    replace (median (y - 1) 8) with y by (unfold median; lia).
    apply stands_at_moved, Hk.
  - intros ->. rewrite Hdown. simpl snd.
    replace (median x 8) with x by (unfold median; lia).
    replace (median (y - 1) 8) with y by (unfold median; lia).
    apply moved_same, Hp.
  - intros method arg reply g'. unfold call, command_map. cbn [find fst].
    destruct (String.eqb "add_client" method); cbn [find fst].
    { intros H Hexit. apply add_client_reply in H. destruct H as [pos ->].
      destruct Hexit as [E | E]; discriminate E. }
    destruct (String.eqb "up" method); cbn [find fst].
    { intros H Hexit. apply guarded_move_reply in H.
      destruct H as [-> | (cx & cy & _ & [= <- _])];
        destruct Hexit as [E | E]; discriminate E. }
    destruct (String.eqb "down" method); cbn [find fst].
    { intros H Hexit. apply guarded_move_reply in H.
      destruct H as [-> | (cx & cy & _ & [= <- _])];
        destruct Hexit as [E | E]; discriminate E. }
    destruct (String.eqb "left" method) eqn:El; cbn [find fst].
    { apply String.eqb_eq in El. subst method.
      intros H Hexit. apply guarded_move_reply in H.
      destruct H as [-> | (cx & cy & Hst & H)];
        [destruct Hexit as [E | E]; discriminate E|].
      exists cx, cy. split; [exact Hst|]. left.
      destruct (negb (clamped g (cx + -1) =? cx + -1)) eqn:Ec;
        injection H as <- _.
      - apply (clamped_changed _ _ HD) in Ec.
        replace (cx + -1) with (cx - 1) in Ec by lia. auto.
      - destruct Hexit as [E | E]; discriminate E. }
    destruct (String.eqb "right" method) eqn:Er; cbn [find fst].
    { apply String.eqb_eq in Er. subst method.
      intros H Hexit. apply guarded_move_reply in H.
      destruct H as [-> | (cx & cy & Hst & H)];
        [destruct Hexit as [E | E]; discriminate E|].
      exists cx, cy. split; [exact Hst|]. right.
      destruct (negb (clamped g (cx + 1) =? cx + 1)) eqn:Ec;
        injection H as <- _.
      - apply (clamped_changed _ _ HD) in Ec. auto.
      - destruct Hexit as [E | E]; discriminate E. }
    destruct (String.eqb "interact" method); cbn [find fst].
    { intros H Hexit. apply interact_reply in H. destruct H as [msg ->].
      destruct Hexit as [E | E]; discriminate E. }
    destruct (String.eqb "get_room" method); cbn [find fst].
    { intros H Hexit. apply get_room_reply in H. destruct H as [m ->].
      destruct Hexit as [E | E]; discriminate E. }
    discriminate.
Qed.

End EngineProperties.

Section ItemProperties.

Lemma items_by_name_sound (cells acc inv : dict) (n : key) (p : pyval) :
  items_by_name cells acc = Ok inv ->
  dict_get n inv = Some p ->
  dict_get n acc = Some p \/
  exists cell it n',
    In (cell, it) cells /\ named it n' /\ key_eqb n' n = true /\ p = of_key cell.
Proof.
  revert acc. induction cells as [|[cell val] r IH]; intros acc; simpl.
  - intros [= <-]. auto.
  - destruct (subscript val "name") as [name|] eqn:Hs; [|discriminate].
    unfold hash. destruct (to_key name) as [n0|] eqn:Hk; [|discriminate].
    intros H Hget. destruct (IH _ H Hget) as [Hacc | (c & it & n' & Hin & Hn & He & Hp)].
    + rewrite dict_get_set in Hacc. destruct (key_eqb n0 n) eqn:E.
      * injection Hacc as <-. right. exists cell, val, n0.
        repeat split; auto. exists name. auto.
      * auto.
    + right. exists c, it, n'. auto.
Qed.

(** C6.  For a client that stands on a cell with an item: when
    [emptied_this_round] is true, [interact] replies the conflict message
    and changes nothing; when it is false and [uses] is 0, it replies the
    empty message and changes nothing; otherwise it replies the use
    message, [uses] goes down by exactly 1, and [emptied_this_round]
    becomes true exactly when [uses] reached 0; nothing else changes. *)
Theorem interact_uses_item
  (g : Game) (client pos : pyval) (k pk : key) (it : dict) (u : Z) (b : bool)
  (use_message empty_message conflict_message : pyval) :
  to_key client = Some k ->
  dict_get k (clients g) = Some pos ->
  to_key pos = Some pk ->
  dict_get pk (room g) = Some (PDict it) ->
  dict_get (KStr "emptied_this_round") it = Some (PBool b) ->
  dict_get (KStr "uses") it = Some (PInt u) ->
  dict_get (KStr "use_message") it = Some use_message ->
  dict_get (KStr "empty_message") it = Some empty_message ->
  dict_get (KStr "conflict_message") it = Some conflict_message ->
  (b = true -> interact client g = (Ok (msg_reply conflict_message), g)) /\
  (b = false -> u = 0 -> interact client g = (Ok (msg_reply empty_message), g)) /\
  (b = false -> u <> 0 ->
   exists g' it',
     interact client g = (Ok (msg_reply use_message), g') /\
     dict_get pk (room g') = Some (PDict it') /\
     dict_get (KStr "uses") it' = Some (PInt (u - 1)) /\
     dict_get (KStr "emptied_this_round") it' = Some (PBool (u - 1 =? 0)) /\
     (forall field,
         field <> "uses" -> field <> "emptied_this_round" ->
         dict_get (KStr field) it' = dict_get (KStr field) it) /\
     (forall cell, key_eqb pk cell = false ->
                   dict_get cell (room g') = dict_get cell (room g)) /\
     clients g' = clients g /\
     room_dimension g' = room_dimension g).
Proof.
  intros Hk Hpos Hpk Hit Hflag Huses Huse Hempty Hconflict.
  pose proof (interact_item_eq g client pos k pk it u b
                use_message empty_message conflict_message
                Hk Hpos Hpk Hit Hflag Huses Huse Hempty Hconflict) as E.
  split; [|split].
  - intros ->. exact E.
  - intros -> ->. exact E.
  - intros -> Hu. apply Z.eqb_neq in Hu. rewrite Hu in E.
    exists (set_room (dict_set pk (PDict (used_item it u)) (room g)) g),
      (used_item it u).
    split; [exact E|]. split; [apply dict_get_set_same|].
    assert (Hne : forall a c : string, a <> c -> key_eqb (KStr a) (KStr c) = false).
    { intros a c H. unfold key_eqb. simpl. apply String.eqb_neq, H. }
    unfold used_item. destruct (u - 1 =? 0).
    + split; [|split; [|split; [|split; [|split]]]].
      * rewrite dict_get_set_other by reflexivity. apply dict_get_set_same.
      * apply dict_get_set_same.
      * intros field H1 H2.
        rewrite !dict_get_set_other by (apply Hne; congruence). reflexivity.
      * intros cell H. simpl. apply dict_get_set_other, H.
      * reflexivity.
      * reflexivity.
    + split; [|split; [|split; [|split; [|split]]]].
      * apply dict_get_set_same.
      * rewrite dict_get_set_other by reflexivity. exact Hflag.
      * intros field H1 H2.
        rewrite !dict_get_set_other by (apply Hne; congruence). reflexivity.
      * intros cell H. simpl. apply dict_get_set_other, H.
      * reflexivity.
      * reflexivity.
Qed.

(** C10.  [get_room] inverts the room map, keying the cells by the name
    of their item, and merges the map of connected clients over it.  So
    when two distinct cells hold items of one name, the result has a
    single entry for that name; an entry that no client overrides is the
    cell of an item of that name; and a connected client's position is
    the entry under its id, also when the id is the name of an item. *)
Theorem get_room_merges_by_name (g : Game) (connected inv : dict) :
  items_by_name (room g) [] = Ok inv ->
  dict_wf connected ->
  get_room (PDict connected) g =
  (Ok (PDict [(KStr "room", PDict (dict_update inv connected))]), g) /\
  (forall cell1 cell2 it1 it2 n,
      In (cell1, it1) (room g) -> In (cell2, it2) (room g) ->
      cell1 <> cell2 -> named it1 n -> named it2 n ->
      entries n (dict_update inv connected) = 1%nat) /\
  (forall n p,
      dict_get n connected = None ->
      dict_get n (dict_update inv connected) = Some p ->
      exists cell it n',
        In (cell, it) (room g) /\ named it n' /\ key_eqb n' n = true /\
        p = of_key cell) /\
  (forall c p,
      dict_get c connected = Some p ->
      dict_get c (dict_update inv connected) = Some p).
Proof.
  intros Hinv Hwf. split; [|split; [|split]].
  - apply get_room_eq, Hinv.
  - intros cell1 cell2 it1 it2 n Hin1 _ _ Hn1 _.
    apply entries_one.
    + apply dict_wf_update, (items_by_name_wf _ _ _ Hinv), dict_wf_nil.
    + apply dict_mem_update, (items_by_name_has _ _ _ _ _ _ Hinv Hin1 Hn1).
  - intros n p Hnone Hget. rewrite (dict_get_update _ _ _ Hwf), Hnone in Hget.
    destruct (items_by_name_sound _ _ _ _ _ Hinv Hget) as [H | H];
      [discriminate H | exact H].
  - intros c p Hget. rewrite (dict_get_update _ _ _ Hwf), Hget. reflexivity.
Qed.

End ItemProperties.

(* ================================================================== *)
(** ** Properties of the server *)
(* ================================================================== *)

Section ServerProperties.

Lemma not_logged_when_untouched (cmd : pyval) (s s' : GameServer) :
  durable s' = durable s -> ~ logged cmd s s'.
Proof.
  unfold durable. intros [= Hops _ _ _ _] [rest H]. rewrite Hops in H.
  apply (f_equal (@List.length fs_op)) in H.
  rewrite length_app in H. simpl in H. lia.
Qed.

Lemma logged_state_ops (cmd : pyval) (s : GameServer) :
  fs_ops (logged_state cmd s) =
  fs_ops s ++
  LogWrite (json_line cmd) :: LogFlush :: LogFsync ::
  (if 100 <=? log_length s
   then [CkptNewOpen;
         CkptNewWrite (json_line (PDict (room (engine s))));
         CkptNewWrite (json_line (PDict (clients (engine s))));
         CkptReplace; LogTruncate]
   else []).
Proof.
  unfold logged_state.
  replace (100 <? log_length (appended (json_line cmd) s)) with (100 <=? log_length s).
  2:{ simpl. destruct (100 <=? log_length s) eqn:E; symmetry;
      [apply Z.ltb_lt; apply Z.leb_le in E | apply Z.ltb_ge; apply Z.leb_gt in E]; lia. }
  destruct (100 <=? log_length s).
  - unfold checkpointed. cbn [fs_ops]. rewrite appended_ops, <- app_assoc. reflexivity.
  - apply appended_ops.
Qed.

(** C1.  Replay appends to the log: a server started on a log that holds
    the one line [{"method": "add_client", "client": "a"}] and on no
    checkpoint ends its replay with that line twice in the log and with
    [log_length] 1, where the log held one line and [log_length] was 0
    before the replay. *)
Theorem replay_appends_to_the_log :
  let l := LJson (request "add_client" "a") in
  let started := GameServer.__init__ [l] None [] in
  fst started = Ok tt /\
  log_file (snd started) = [l; l] /\
  log_length (snd started) = 1 /\
  fs_ops (snd started) = [LogWrite l; LogFlush; LogFsync].
Proof. repeat split. Qed.

(** C2, as the code has it.  A request is appended to the command log if
    and only if it carries [method] and [client], its method is one of
    the engine's commands and the handler returns a reply; a request that
    is not appended leaves log, checkpoint and [log_length] untouched. *)
Theorem command_logged_iff_dispatched
  (cmd : pyval) (s s' : GameServer) (r : result pyval) :
  _parse_command cmd false s = (r, s') ->
  (logged cmd s s' <-> (exists reply, r = Ok reply) /\ dispatchable cmd) /\
  (~ logged cmd s s' -> durable s' = durable s).
Proof.
  intros H.
  destruct (parse_command_cases _ _ _ _ H)
    as [[Hd Hwhy] | (Hdisp & reply & s2 & -> & Hd2 & ->)].
  - split; [|intros _; exact Hd]. split.
    + intros Hl. exfalso. exact (not_logged_when_untouched _ _ _ Hd Hl).
    + intros [[reply ->] Hdisp]. exfalso.
      destruct Hwhy as [[e He] | Hn]; [discriminate He | exact (Hn Hdisp)].
  - assert (Hl : logged cmd s (counted reply (logged_state cmd s2))).
    { pose proof (counted_durable reply (logged_state cmd s2)) as Hc.
      unfold durable in Hc, Hd2. injection Hc as Hc _ _ _ _.
      injection Hd2 as Hd2 _ _ _ _.
      unfold logged. rewrite Hc, logged_state_ops, Hd2. eexists. reflexivity. }
    split; [|intros Hn; exfalso; exact (Hn Hl)].
    split; [intros _ | intros _; exact Hl].
    split; [exists reply; reflexivity | exact Hdisp].
Qed.

(** C2, as the claim has it, fails: on a fresh room server a [get_room]
    request and an [up] request for a client that is not in the room
    (answered with an error) are both appended to the command log, and
    neither changes the engine. *)
Lemma read_only_and_rejected_commands_are_logged :
  let s := server empty_engine [] 0 in
  (fst (_parse_command (request "get_room" "a") false s) =
     Ok (PDict [(KStr "room", PDict [])]) /\
   engine (snd (_parse_command (request "get_room" "a") false s)) = engine s /\
   log_file (snd (_parse_command (request "get_room" "a") false s)) =
     [LJson (request "get_room" "a")]) /\
  (fst (_parse_command (request "up" "a") false s) =
     Ok (error "client not in room") /\
   engine (snd (_parse_command (request "up" "a") false s)) = engine s /\
   log_file (snd (_parse_command (request "up" "a") false s)) =
     [LJson (request "up" "a")]).
Proof. repeat split. Qed.

(** C3.  [interact] raises [KeyError] for a client id that is not in the
    client directory; the engine is left as it was. *)
Theorem interact_raises_for_unknown_client (g : Game) (client : pyval) (k : key) :
  to_key client = Some k ->
  dict_get k (clients g) = None ->
  interact client g = (Raise KeyError, g).
Proof.
  intros Hk Habsent. unfold interact. apply bind_raise_step.
  rewrite (clients_getitem_eq _ _ Hk). unfold getitem. rewrite Habsent.
  reflexivity.
Qed.

(** The checkpoints that [_load_server] does ignore: a missing file and
    a file that has not exactly two lines. *)
Lemma checkpoint_of_other_length_ignored (s : GameServer) (ls : list line) :
  ckpt_file s = None \/ (ckpt_file s = Some ls /\ List.length ls <> 2%nat) ->
  _load_server s = (Ok tt, s).
Proof.
  unfold _load_server, try_except, ckpt_readlines. run_monad.
  intros [-> | [-> Hlen]]; [reflexivity|].
  destruct ls as [|a [|b [|c r]]]; try reflexivity.
  exfalso. apply Hlen. reflexivity.
Qed.

(** C4.  A checkpoint of two lines of which one does not parse as JSON
    makes the start of the server raise [JSONDecodeError]. *)
Theorem unparseable_checkpoint_raises
  (log : list line) (text : string) (l : line) (v : pyval) (seed : list nat) :
  fst (GameServer.__init__ log (Some [LBad text; l]) seed) = Raise JSONDecodeError /\
  fst (GameServer.__init__ log (Some [LJson v; LBad text]) seed) = Raise JSONDecodeError.
Proof. split; reflexivity. Qed.

(** C8.  When an append takes [log_length] above 100, the server writes
    one checkpoint: the item map and then the client map, as two JSON
    lines, to the [.new] file, which then replaces the checkpoint; after
    that it truncates the log and sets [log_length] to 0.  An append that
    leaves [log_length] at 100 or below writes no checkpoint. *)
Theorem checkpoint_when_log_exceeds_100
  (cmd : pyval) (s s' : GameServer) (reply : pyval) :
  _parse_command cmd false s = (Ok reply, s') ->
  dispatchable cmd ->
  (100 <= log_length s ->
   fs_ops s' =
   fs_ops s ++
   [LogWrite (json_line cmd); LogFlush; LogFsync;
    CkptNewOpen;
    CkptNewWrite (json_line (PDict (room (engine s'))));
    CkptNewWrite (json_line (PDict (clients (engine s'))));
    CkptReplace; LogTruncate] /\
   ckpt_file s' =
   Some [json_line (PDict (room (engine s')));
         json_line (PDict (clients (engine s')))] /\
   ckpt_new_file s' = None /\
   log_file s' = [] /\
   log_length s' = 0) /\
  (log_length s < 100 ->
   fs_ops s' = fs_ops s ++ [LogWrite (json_line cmd); LogFlush; LogFsync] /\
   ckpt_file s' = ckpt_file s /\
   ckpt_new_file s' = ckpt_new_file s /\
   log_file s' = log_file s ++ [json_line cmd] /\
   log_length s' = log_length s + 1).
Proof.
  intros H Hdisp.
  destruct (parse_command_cases _ _ _ _ H)
    as [[_ [[e He] | Hn]] | (_ & reply' & s2 & _ & Hd2 & ->)];
    [discriminate He | exfalso; exact (Hn Hdisp) |].
  pose proof (counted_durable reply' (logged_state cmd s2)) as Hc.
  pose proof (counted_engine reply' (logged_state cmd s2)) as He.
  unfold durable in Hc, Hd2.
  injection Hc as -> -> -> -> ->. injection Hd2 as Ho Hf Hn Hk Hk'.
  rewrite He. clear He H.
  split; intros Hlen.
  - rewrite logged_state_ops. unfold logged_state.
    assert (E : (100 <? log_length (appended (json_line cmd) s2)) = true).
    { simpl. apply Z.ltb_lt. lia. }
    rewrite E.
    assert (E' : (100 <=? log_length s2) = true) by (apply Z.leb_le; lia).
    rewrite E'. cbn [engine checkpointed ckpt_file ckpt_new_file log_file log_length].
    change (engine (appended (json_line cmd) s2)) with (engine s2).
    rewrite Ho. repeat split.
  - rewrite logged_state_ops. unfold logged_state.
    assert (E : (100 <? log_length (appended (json_line cmd) s2)) = false).
    { simpl. apply Z.ltb_ge. lia. }
    rewrite E.
    assert (E' : (100 <=? log_length s2) = false) by (apply Z.leb_gt; lia).
    rewrite E'. cbn. rewrite Ho, Hf, Hn, Hk, Hk'. repeat split.
Qed.

End ServerProperties.

(* ================================================================== *)
(** ** The properties at concrete rooms and servers *)
(* ================================================================== *)

Section Witnesses.

(** The walk of [walk] ends on the cell [0:8]. *)
Lemma positions_stay_in_room_witness :
  exists x y,
    dict_get (KStr "a") (clients (run walk (snd (add_client (PStr "a") empty_engine)))) =
    Some (PStr (pos_text x y)) /\
    0 <= x <= 8 /\ 0 <= y <= 8.
Proof.
  apply (positions_stay_in_room empty_engine (PStr "a") (KStr "a") walk);
    reflexivity.
Defined.

(** On the empty room the first [add_client] puts ["a"] on [4:4] and the
    second changes nothing. *)
Lemma add_client_idempotent_witness :
  add_client (PStr "a") empty_engine =
  (Ok (client_reply (PStr "a") (PStr "4:4")), engine_with_a "4:4") /\
  add_client (PStr "a") (engine_with_a "4:4") =
  (Ok (client_reply (PStr "a") (PStr "4:4")), engine_with_a "4:4").
Proof.
  split.
  - apply (add_client_idempotent empty_engine (PStr "a") (KStr "a")); reflexivity.
  - apply (add_client_idempotent (engine_with_a "4:4") (PStr "a") (KStr "a"));
      reflexivity.
Defined.

(** In the corner [0:8], [left] signals the exit and [up] does not, and
    both leave the client in the corner. *)
Lemma room_exit_only_horizontal_witness :
  left (PStr "a") (engine_with_a "0:8") =
  (Ok (success "exit left"), engine_with_a "0:8") /\
  up (PStr "a") (engine_with_a "0:8") =
  (Ok (success "move up"), engine_with_a "0:8").
Proof.
  destruct (room_exit_only_horizontal (engine_with_a "0:8") (PStr "a") (KStr "a")
              (PStr "0:8") 0 8 eq_refl eq_refl eq_refl eq_refl)
    as (Hleft & _ & Hup & _).
  split; [exact Hleft | exact Hup].
Defined.

(** The client on the chest of [4:4] uses it once: nine uses are left. *)
Lemma interact_uses_item_witness :
  exists g' it',
    interact (PStr "a") two_chests =
    (Ok (msg_reply (PStr "you put your hand in the box and get a surprise")), g') /\
    dict_get (KStr "4:4") (room g') = Some (PDict it') /\
    dict_get (KStr "uses") it' = Some (PInt 9) /\
    dict_get (KStr "emptied_this_round") it' = Some (PBool false).
Proof.
  destruct (interact_uses_item two_chests (PStr "a") (PStr "4:4") (KStr "a")
              (KStr "4:4") chest_fields 10 false
              (PStr "you put your hand in the box and get a surprise")
              (PStr "you put your hand in an empty box")
              (PStr "you put your hand in the box and feel someone else's hand")
              eq_refl eq_refl eq_refl eq_refl eq_refl eq_refl eq_refl eq_refl eq_refl)
    as (_ & _ & H).
  destruct (H eq_refl ltac:(discriminate)) as (g' & it' & H1 & H2 & H3 & H4 & _).
  exists g', it'. repeat split; assumption.
Defined.

(** With two chests in the room the snapshot has one entry ["chest"],
    and a connected client called ["chest"] takes it. *)
Lemma get_room_merges_by_name_witness :
  get_room (PDict [(KStr "chest", PStr "0:0")]) two_chests =
  (Ok (PDict [(KStr "room", PDict [(KStr "chest", PStr "0:0")])]), two_chests) /\
  get_room (PDict []) two_chests =
  (Ok (PDict [(KStr "room", PDict [(KStr "chest", PStr "1:1")])]), two_chests).
Proof.
  split.
  - apply (get_room_merges_by_name two_chests [(KStr "chest", PStr "0:0")]
             [(KStr "chest", PStr "1:1")] eq_refl).
    intros k. simpl. destruct (key_eqb (KStr "chest") k); lia.
  - apply (get_room_merges_by_name two_chests [] [(KStr "chest", PStr "1:1")] eq_refl).
    intros k. simpl. lia.
Defined.

(** On the empty room [interact] raises for ["a"]. *)
Lemma interact_raises_for_unknown_client_witness :
  interact (PStr "a") empty_engine = (Raise KeyError, empty_engine).
Proof.
  apply (interact_raises_for_unknown_client empty_engine (PStr "a") (KStr "a"));
    reflexivity.
Defined.

(** A [get_room] request to a fresh server is appended to its log. *)
Lemma command_logged_iff_dispatched_witness :
  logged (request "get_room" "a") (server empty_engine [] 0)
    (snd (_parse_command (request "get_room" "a") false (server empty_engine [] 0))).
Proof.
  apply (command_logged_iff_dispatched (request "get_room" "a")
           (server empty_engine [] 0)
           (snd (_parse_command (request "get_room" "a") false (server empty_engine [] 0)))
           (fst (_parse_command (request "get_room" "a") false (server empty_engine [] 0)))
           eq_refl).
  split.
  - eexists. reflexivity.
  - exists [(KStr "method", PStr "get_room"); (KStr "client", PStr "a")],
      "get_room", (PStr "a").
    repeat split. simpl. tauto.
Defined.

(** The 101st logged command writes the checkpoint and empties the log. *)
Lemma checkpoint_when_log_exceeds_100_witness :
  let s' := snd (_parse_command (request "add_client" "a") false
                   (server empty_engine [] 100)) in
  fs_ops s' =
  [LogWrite (LJson (request "add_client" "a")); LogFlush; LogFsync;
   CkptNewOpen;
   CkptNewWrite (LJson (PDict []));
   CkptNewWrite (LJson (PDict [(KStr "a", PStr "4:4")]));
   CkptReplace; LogTruncate] /\
  ckpt_file s' = Some [LJson (PDict []); LJson (PDict [(KStr "a", PStr "4:4")])] /\
  ckpt_new_file s' = None /\
  log_file s' = [] /\
  log_length s' = 0.
Proof.
  assert (Hd : dispatchable (request "add_client" "a")).
  { exists [(KStr "method", PStr "add_client"); (KStr "client", PStr "a")],
      "add_client", (PStr "a").
    repeat split. simpl. tauto. }
  apply (proj1 (checkpoint_when_log_exceeds_100 (request "add_client" "a")
                  (server empty_engine [] 100)
                  (snd (_parse_command (request "add_client" "a") false
                          (server empty_engine [] 100)))
                  (client_reply (PStr "a") (PStr "4:4")) eq_refl Hd)).
  simpl. lia.
Defined.

End Witnesses.

(* ================================================================== *)
(** ** More about the engine: construction and movement *)
(* ================================================================== *)

Section FreshEngine.

Lemma init_shape (seed : list nat) :
  exists a b c rest,
    GameEngine.__init__ seed =
    mkGame []
      (dict_of_pairs
         [(KStr (pos_text (Z.of_nat a mod 9) (Z.of_nat b mod 9)),
           nth (Nat.modulo c 2) INTERACTIVE_ITEMS PNone);
          (KStr "1:1", chest)])
      8 rest.
Proof.
  destruct seed as [|a [|b [|c rest]]].
  - exists O, O, O, []. reflexivity.
  - exists a, O, O, []. reflexivity.
  - exists a, b, O, []. reflexivity.
  - exists a, b, c, rest. reflexivity.
Qed.

Lemma choice_of_items (c : nat) :
  nth (Nat.modulo c 2) INTERACTIVE_ITEMS PNone = chest \/
  nth (Nat.modulo c 2) INTERACTIVE_ITEMS PNone = fire.
Proof.
  pose proof (Nat.mod_upper_bound c 2 ltac:(discriminate)) as H.
  destruct (Nat.modulo c 2) as [|[|n]]; [left | right | lia]; reflexivity.
Qed.

(** X1.  Whatever the random draws, a new engine has no clients, room
    dimension 8, the fresh chest on [1:1] (also when the random item fell
    on that cell), one or two items, each a chest or a fire on a cell of
    the room. *)
Theorem fresh_engine (seed : list nat) :
  clients (GameEngine.__init__ seed) = [] /\
  room_dimension (GameEngine.__init__ seed) = 8 /\
  dict_get (KStr "1:1") (room (GameEngine.__init__ seed)) = Some chest /\
  (forall cell it,
      In (cell, it) (room (GameEngine.__init__ seed)) ->
      (it = chest \/ it = fire) /\
      exists x y, cell = KStr (pos_text x y) /\ 0 <= x <= 8 /\ 0 <= y <= 8) /\
  (1 <= List.length (room (GameEngine.__init__ seed)) <= 2)%nat.
Proof.
  destruct (init_shape seed) as (a & b & c & rest & ->).
  cbn [clients room room_dimension].
  set (x := Z.of_nat a mod 9). set (y := Z.of_nat b mod 9).
  assert (Hx : 0 <= x <= 8) by (pose proof (Z.mod_pos_bound (Z.of_nat a) 9); lia).
  assert (Hy : 0 <= y <= 8) by (pose proof (Z.mod_pos_bound (Z.of_nat b) 9); lia).
  set (it0 := nth (Nat.modulo c 2) INTERACTIVE_ITEMS PNone).
  assert (Hit0 : it0 = chest \/ it0 = fire) by apply choice_of_items.
  unfold dict_of_pairs, dict_update. cbn [fold_left dict_set fst snd].
  destruct (key_eqb (KStr (pos_text x y)) (KStr "1:1")) eqn:E.
  - repeat split.
    + cbn [dict_get]. rewrite E. reflexivity.
    + destruct H as [[= <- <-] | []]. left. reflexivity.
    + destruct H as [[= <- <-] | []]. exists x, y. auto.
    + simpl. lia.
    + simpl. lia.
  - repeat split.
    + cbn [dict_get]. rewrite E. reflexivity.
    + destruct H as [[= <- <-] | [[= <- <-] | []]]; [exact Hit0 | left; reflexivity].
    + destruct H as [[= <- <-] | [[= <- <-] | []]].
      * exists x, y. auto.
      * exists 1, 1. repeat split; lia.
    + simpl. lia.
    + simpl. lia.
Qed.

End FreshEngine.

Section MovementEdges.

Lemma guarded_move_raise (client : pyval) (k : key) (p : pyval) (e : exn)
  (dx dy : Z) (g : Game) (after : bool -> M Game pyval) :
  to_key client = Some k ->
  dict_get k (clients g) = Some p ->
  coordinates p = Raise e ->
  bind (clients_contains client)
    (fun known =>
       if negb known then ret (error "client not in room")
       else bind (_move client dx dy) after) g =
  (Raise e, g).
Proof.
  intros Hk Hp Hc.
  unfold bind. rewrite (clients_contains_eq _ _ Hk). unfold dict_mem. rewrite Hp.
  cbn [negb]. rewrite (_move_eq _ _ dx dy g Hk), Hp, Hc. reflexivity.
Qed.

Lemma guarded_move_unhashable (client : pyval) (dx dy : Z) (g : Game)
  (after : bool -> M Game pyval) :
  to_key client = None ->
  bind (clients_contains client)
    (fun known =>
       if negb known then ret (error "client not in room")
       else bind (_move client dx dy) after) g =
  (Raise TypeError, g).
Proof.
  intros Hk. unfold bind. rewrite (clients_contains_unhashable _ Hk). reflexivity.
Qed.

Lemma int_of_str_raises (s : string) (e : exn) :
  int_of_str s = Raise e -> e = ValueError.
Proof.
  unfold int_of_str.
  destruct (match strip s with
            | EmptyString => (false, strip s)
            | String c r =>
                if Ascii.eqb c "-" then (true, r)
                else if Ascii.eqb c "+" then (false, r) else (false, strip s)
            end) as [negative body].
  destruct (literal_digits false body) as [ds|]; [|congruence].
  destruct (NilEmpty.uint_of_string ds); congruence.
Qed.

Lemma coordinates_raises (p : pyval) (e : exn) :
  coordinates p = Raise e ->
  (e = AttributeError /\ forall s, p <> PStr s) \/
  (e = ValueError /\ exists s, p = PStr s).
Proof.
  unfold coordinates, split_colon.
  destruct p as [| | |s| |];
    try (intros [= <-]; left; split; [reflexivity | intros s'; discriminate]).
  intros H. right. split; [|exists s; reflexivity].
  unfold unpack_ints in H.
  destruct (split ":" s) as [|a [|b [|c r]]]; try congruence.
  destruct (int_of_str a) eqn:Ea.
  - destruct (int_of_str b) eqn:Eb; [discriminate H|].
    injection H as <-. exact (int_of_str_raises _ _ Eb).
  - injection H as <-. exact (int_of_str_raises _ _ Ea).
Qed.

(** X2.  A movement command for a client that is not in the directory
    replies [{error: client not in room}] and changes nothing. *)
Theorem move_of_unknown_client (g : Game) (client : pyval) (k : key) :
  to_key client = Some k ->
  dict_get k (clients g) = None ->
  up client g = (Ok (error "client not in room"), g) /\
  down client g = (Ok (error "client not in room"), g) /\
  left client g = (Ok (error "client not in room"), g) /\
  right client g = (Ok (error "client not in room"), g).
Proof.
  intros Hk Habsent.
  repeat split; apply (guarded_move_absent _ _ _ _ _ _ Hk Habsent).
Qed.

(** X3.  A movement command raises, before it changes anything, when the
    client id is not hashable ([TypeError]), when the stored position is
    not a string ([AttributeError]) and when it is a string that does not
    read as two integers around one colon ([ValueError]). *)
Theorem move_raises_and_keeps_engine (g : Game) (client : pyval) :
  (to_key client = None ->
   up client g = (Raise TypeError, g) /\ down client g = (Raise TypeError, g) /\
   left client g = (Raise TypeError, g) /\ right client g = (Raise TypeError, g)) /\
  (forall k p e,
      to_key client = Some k ->
      dict_get k (clients g) = Some p ->
      coordinates p = Raise e ->
      (up client g = (Raise e, g) /\ down client g = (Raise e, g) /\
       left client g = (Raise e, g) /\ right client g = (Raise e, g)) /\
      ((e = AttributeError /\ forall s, p <> PStr s) \/
       (e = ValueError /\ exists s, p = PStr s))).
Proof.
  split.
  - intros Hk. repeat split; apply (guarded_move_unhashable _ _ _ _ _ Hk).
  - intros k p e Hk Hp Hc. split.
    + repeat split; apply (guarded_move_raise _ _ _ _ _ _ _ _ Hk Hp Hc).
    + apply coordinates_raises, Hc.
Qed.

End MovementEdges.

Section WalkingThere.

Lemma run_app (l1 l2 : list (string * pyval)) (g : Game) :
  run (l1 ++ l2) g = run l2 (run l1 g).
Proof.
  revert g. induction l1 as [|[m a] r IH]; intros g; simpl; [reflexivity|].
  apply IH.
Qed.

Variables (client : pyval) (k : key).
Hypothesis Hk : to_key client = Some k.

(** The engine has room dimension 8 and the client on [(x, y)]. *)
Let placed (g : Game) (x y : Z) : Prop :=
  room_dimension g = 8 /\ dict_get k (clients g) = Some (PStr (pos_text x y)).

Lemma placed_step (g : Game) (x y dx : Z) (after : bool -> M Game pyval) :
  placed g x y -> 0 <= y <= 8 ->
  (forall b, preserves (fun g => g) (after b)) ->
  placed
    (snd (bind (clients_contains client)
            (fun known =>
               if negb known then ret (error "client not in room")
               else bind (_move client dx 0) after) g))
    (median (x + dx) 8) y.
Proof.
  intros [HD Hp] Hy Hafter.
  assert (Hs : stands_at g client x y).
  { exists k, (PStr (pos_text x y)). repeat split; auto. apply coordinates_pos_text. }
  rewrite (guarded_move_ok _ _ _ dx 0 g after Hs), Hafter.
  rewrite (_move_ok _ _ _ _ _ dx 0 g Hk Hp (coordinates_pos_text x y)).
  cbn [snd]. rewrite !(clamped_median _ _ HD).
  replace (median (y + 0) 8) with y by (unfold median; lia).
  split; [exact HD|]. unfold moved. cbn [clients]. apply dict_get_set_same.
Qed.

Lemma placed_left (g : Game) (x y : Z) :
  placed g x y -> 0 <= x <= 8 -> 0 <= y <= 8 ->
  placed (snd (call "left" client g)) (Z.max 0 (x - 1)) y.
Proof.
  intros H Hx Hy.
  replace (Z.max 0 (x - 1)) with (median (x + -1) 8) by (unfold median; lia).
  apply (placed_step g x y (-1)
           (fun exited => if exited then ret (success "exit left")
                          else ret (success "move left")) H Hy).
  intros b. destruct b; apply preserves_ret.
Qed.

Lemma placed_right (g : Game) (x y : Z) :
  placed g x y -> 0 <= x <= 8 -> 0 <= y <= 8 ->
  placed (snd (call "right" client g)) (Z.min 8 (x + 1)) y.
Proof.
  intros H Hx Hy.
  replace (Z.min 8 (x + 1)) with (median (x + 1) 8) by (unfold median; lia).
  apply (placed_step g x y 1
           (fun exited => if exited then ret (success "exit right")
                          else ret (success "move right")) H Hy).
  intros b. destruct b; apply preserves_ret.
Qed.

Lemma placed_lefts (n : nat) (g : Game) (x y : Z) :
  placed g x y -> 0 <= x <= 8 -> 0 <= y <= 8 ->
  placed (run (times n "left" client) g) (Z.max 0 (x - Z.of_nat n)) y.
Proof.
  revert g x. induction n as [|n IH]; intros g x H Hx Hy.
  - simpl. replace (Z.max 0 (x - 0)) with x by lia. exact H.
  - change (run (times (S n) "left" client) g)
      with (run (times n "left" client) (snd (call "left" client g))).
    replace (Z.max 0 (x - Z.of_nat (S n)))
      with (Z.max 0 (Z.max 0 (x - 1) - Z.of_nat n)) by lia.
    apply IH; [apply placed_left; assumption | lia | exact Hy].
Qed.

Lemma placed_rights (n : nat) (g : Game) (x y : Z) :
  placed g x y -> 0 <= x <= 8 -> 0 <= y <= 8 ->
  placed (run (times n "right" client) g) (Z.min 8 (x + Z.of_nat n)) y.
Proof.
  revert g x. induction n as [|n IH]; intros g x H Hx Hy.
  - simpl. replace (Z.min 8 (x + 0)) with x by lia. exact H.
  - change (run (times (S n) "right" client) g)
      with (run (times n "right" client) (snd (call "right" client g))).
    replace (Z.min 8 (x + Z.of_nat (S n)))
      with (Z.min 8 (Z.min 8 (x + 1) + Z.of_nat n)) by lia.
    apply IH; [apply placed_right; assumption | lia | exact Hy].
Qed.

(** X4.  For a client on a cell [(x, y)] of the room, [n] times [left]
    and then [n] times [right] end on x coordinate
    [min(8, max(0, x - n) + n)]: back on [x] when the walk met no wall
    ([n <= x]), and [n] cells from the left wall otherwise; y is kept. *)
Theorem lefts_then_rights (g : Game) (x y : Z) (n : nat) :
  room_dimension g = 8 ->
  dict_get k (clients g) = Some (PStr (pos_text x y)) ->
  0 <= x <= 8 -> 0 <= y <= 8 ->
  dict_get k
    (clients (run (times n "left" client ++ times n "right" client) g)) =
  Some (PStr (pos_text (Z.min 8 (Z.max 0 (x - Z.of_nat n) + Z.of_nat n)) y)) /\
  (Z.of_nat n <= x ->
   dict_get k
     (clients (run (times n "left" client ++ times n "right" client) g)) =
   Some (PStr (pos_text x y))).
Proof.
  intros HD Hp Hx Hy.
  assert (H : placed (run (times n "left" client ++ times n "right" client) g)
                (Z.min 8 (Z.max 0 (x - Z.of_nat n) + Z.of_nat n)) y).
  { rewrite run_app. apply placed_rights; [|lia|exact Hy].
    apply placed_lefts; [split|..]; assumption. }
  destruct H as [_ H]. split; [exact H|].
  intros Hn. rewrite H. do 3 f_equal. lia.
Qed.

End WalkingThere.

Section RoomCells.

Lemma map_fst_dict_set (k : key) (v w : pyval) (d : dict) :
  dict_get k d = Some w -> map fst (dict_set k v d) = map fst d.
Proof.
  induction d as [|[k' v'] r IH]; simpl; [discriminate|].
  destruct (key_eqb k' k); simpl; [reflexivity|].
  intros H. rewrite (IH H). reflexivity.
Qed.

Lemma room_item_set_cells (pos : pyval) (field : string) (v : pyval) :
  preserves (fun g => map fst (room g)) (room_item_set pos field v).
Proof.
  intros g. unfold room_item_set, getitem. run_monad.
  destruct (hash pos) as [k|]; [|reflexivity].
  destruct (dict_get k (room g)) as [it|] eqn:E; [|reflexivity].
  destruct it; try reflexivity.
  cbn [snd room set_room]. apply (map_fst_dict_set _ _ _ _ E).
Qed.

Lemma draw_cells : preserves (fun g => map fst (room g)) draw.
Proof. intros g. unfold draw. destruct (rng g); reflexivity. Qed.

Lemma interact_cells (client : pyval) :
  preserves (fun g => map fst (room g)) (interact client).
Proof.
  unfold interact, room_item, room_contains, clients_getitem, choice.
  repeat (first [apply room_item_set_cells | apply draw_cells | preserves_step]).
Qed.

Lemma _move_room (client : pyval) (dx dy : Z) (g : Game) :
  room (snd (_move client dx dy g)) = room g.
Proof.
  destruct (_move_cases client dx dy g) as [[e ->] | (k & p & cx & cy & _ & _ & _ & ->)];
    reflexivity.
Qed.

Lemma add_client_room (client : pyval) (g : Game) :
  room (snd (add_client client g)) = room g.
Proof.
  destruct (to_key client) as [k|] eqn:Hk.
  - rewrite (add_client_eq _ _ g Hk). destruct (dict_get k (clients g)); reflexivity.
  - rewrite (add_client_unhashable _ g Hk). reflexivity.
Qed.

(** What a command other than [interact] does to the room: nothing. *)
Lemma call_room (method : string) (arg : pyval) (g : Game) :
  method <> "interact" -> room (snd (call method arg g)) = room g.
Proof.
  intros Hm. unfold call, command_map. cbn [find fst].
  destruct (String.eqb "add_client" method); cbn [find fst];
    [apply add_client_room|].
  destruct (String.eqb "up" method); cbn [find fst].
  { destruct (up_state arg g) as [-> | ->]; [reflexivity | apply _move_room]. }
  destruct (String.eqb "down" method); cbn [find fst].
  { destruct (down_state arg g) as [-> | ->]; [reflexivity | apply _move_room]. }
  destruct (String.eqb "left" method); cbn [find fst].
  { destruct (left_state arg g) as [-> | ->]; [reflexivity | apply _move_room]. }
  destruct (String.eqb "right" method); cbn [find fst].
  { destruct (right_state arg g) as [-> | ->]; [reflexivity | apply _move_room]. }
  destruct (String.eqb "interact" method) eqn:E; cbn [find fst].
  { apply String.eqb_eq in E. congruence. }
  destruct (String.eqb "get_room" method); cbn [find fst].
  { rewrite get_room_unchanged. reflexivity. }
  reflexivity.
Qed.

Lemma call_cells (method : string) (arg : pyval) (g : Game) :
  map fst (room (snd (call method arg g))) = map fst (room g).
Proof.
  destruct (String.eqb "interact" method) eqn:E.
  - apply String.eqb_eq in E. subst method. apply interact_cells.
  - apply String.eqb_neq in E. rewrite call_room; [reflexivity | congruence].
Qed.

(** X5.  No command of the engine creates, removes or relocates an item:
    the cells of the room are the same, in the same order, after any
    sequence of commands; and only [interact] changes the room at all. *)
Theorem room_cells_are_fixed (commands : list (string * pyval)) (g : Game) :
  map fst (room (run commands g)) = map fst (room g) /\
  (forall method arg,
      method <> "interact" -> room (snd (call method arg g)) = room g).
Proof.
  split; [|intros method arg; apply call_room].
  revert g. induction commands as [|[method arg] r IH]; intros g; simpl.
  - reflexivity.
  - rewrite IH. apply call_cells.
Qed.

End RoomCells.

Section TickBoundary.

Lemma key_eqb_str_neq (a c : string) : a <> c -> key_eqb (KStr a) (KStr c) = false.
Proof. intros H. unfold key_eqb. simpl. apply String.eqb_neq, H. Qed.

Lemma dict_get_in (k : key) (v : pyval) (d : dict) :
  dict_get k d = Some v -> exists k', In (k', v) d /\ key_eqb k' k = true.
Proof.
  induction d as [|[k' v'] r IH]; simpl; [discriminate|].
  destruct (key_eqb k' k) eqn:E.
  - intros [= ->]. exists k'. auto.
  - intros H. destruct (IH H) as (k'' & Hin & Hk). exists k''. auto.
Qed.

Lemma in_dict_set (c k : key) (v w : pyval) (d : dict) :
  In (c, v) (dict_set k w d) -> In (c, v) d \/ v = w.
Proof.
  induction d as [|[k' v'] r IH]; simpl.
  - intros [[= _ <-] | []]. auto.
  - destruct (key_eqb k' k); simpl.
    + intros [[= <- <-] | H]; auto.
    + intros [H | H]; [auto|]. destruct (IH H); auto.
Qed.

Lemma items_are_dicts_set (k : key) (it : dict) (d : dict) :
  items_are_dicts d -> items_are_dicts (dict_set k (PDict it) d).
Proof.
  intros H c v Hin. destruct (in_dict_set _ _ _ _ _ Hin) as [Hd | ->].
  - exact (H c v Hd).
  - exists it. reflexivity.
Qed.

Lemma items_are_dicts_reset (k : key) (d : dict) :
  items_are_dicts d -> items_are_dicts (reset_marker d k).
Proof.
  intros H. unfold reset_marker.
  destruct (dict_get k d) as [[| | | | |it]|]; try exact H.
  apply items_are_dicts_set, H.
Qed.

Lemma dict_mem_reset (k c : key) (d : dict) :
  dict_mem c d = true -> dict_mem c (reset_marker d k) = true.
Proof.
  intros H. unfold reset_marker.
  destruct (dict_get k d) as [[| | | | |it]|]; try exact H.
  apply dict_mem_set, H.
Qed.

Lemma reset_step (k : key) (g : Game) :
  items_are_dicts (room g) ->
  dict_mem k (room g) = true ->
  room_item_set (of_key k) "emptied_this_round" (PBool false) g =
  (Ok tt, set_room (reset_marker (room g) k) g).
Proof.
  intros Hd Hm. apply dict_mem_get in Hm. destruct Hm as [v Hv].
  destruct (dict_get_in _ _ _ Hv) as (k' & Hin & _).
  destruct (Hd _ _ Hin) as [it ->].
  rewrite (room_item_set_eq _ _ (to_key_of_key k) _ _ _ _ Hv).
  unfold reset_marker. rewrite Hv. reflexivity.
Qed.

Lemma for_each_reset (ks : list key) (g : Game) :
  items_are_dicts (room g) ->
  (forall k, In k ks -> dict_mem k (room g) = true) ->
  for_each ks
    (fun k => room_item_set (of_key k) "emptied_this_round" (PBool false)) g =
  (Ok tt, set_room (fold_left reset_marker ks (room g)) g).
Proof.
  revert g. induction ks as [|k r IH]; intros g Hd Hm.
  - destruct g. reflexivity.
  - cbn [for_each fold_left].
    rewrite (bind_step _ _ _ _ _ (reset_step k g Hd (Hm k (or_introl eq_refl)))).
    rewrite IH.
    + reflexivity.
    + apply items_are_dicts_reset, Hd.
    + intros c Hc. apply dict_mem_reset, Hm. right. exact Hc.
Qed.

Lemma in_keys_mem (k : key) (d : dict) :
  In k (map fst d) -> dict_mem k d = true.
Proof.
  unfold dict_mem. induction d as [|[k' v'] r IH]; simpl; [tauto|].
  intros [-> | H].
  - rewrite key_eqb_refl. reflexivity.
  - destruct (key_eqb k' k); [reflexivity | exact (IH H)].
Qed.

Lemma clear_empty_markers_eq (g : Game) :
  items_are_dicts (room g) ->
  clear_empty_markers g =
  (Ok tt, set_room (fold_left reset_marker (map fst (room g)) (room g)) g).
Proof.
  intros Hd. unfold clear_empty_markers.
  rewrite (bind_step _ _ g g g) by reflexivity.
  apply for_each_reset; [exact Hd | intros k; apply in_keys_mem].
Qed.

Lemma reset_marker_get (d : dict) (k cell : key) :
  dict_get cell (reset_marker d k) =
  match dict_get cell d with
  | Some (PDict it) =>
      Some (PDict (if key_eqb k cell
                   then dict_set (KStr "emptied_this_round") (PBool false) it
                   else it))
  | other => other
  end.
Proof.
  unfold reset_marker. destruct (key_eqb k cell) eqn:E.
  - rewrite (dict_get_congr _ _ d E).
    destruct (dict_get cell d) as [[| | | | |it]|] eqn:G; try exact G.
    rewrite dict_get_set, E. reflexivity.
  - destruct (dict_get k d) as [[| | | | |it]|];
      try (destruct (dict_get cell d) as [[| | | | |it']|]; reflexivity).
    rewrite dict_get_set, E.
    destruct (dict_get cell d) as [[| | | | |it']|]; reflexivity.
Qed.

Lemma fold_reset_get (ks : list key) (d : dict) (cell : key) (it : dict) :
  dict_get cell d = Some (PDict it) ->
  dict_get cell (fold_left reset_marker ks d) =
  Some (PDict (if existsb (fun k => key_eqb k cell) ks
               then dict_set (KStr "emptied_this_round") (PBool false) it
               else it)).
Proof.
  revert d it. induction ks as [|k r IH]; intros d it H; cbn [fold_left existsb].
  - exact H.
  - assert (H1 := reset_marker_get d k cell). rewrite H in H1.
    rewrite (IH _ _ H1). destruct (key_eqb k cell); cbn [orb]; [|reflexivity].
    rewrite dict_set_set. destruct (existsb _ r); reflexivity.
Qed.

Lemma map_fst_reset (d : dict) (k : key) : map fst (reset_marker d k) = map fst d.
Proof.
  unfold reset_marker.
  destruct (dict_get k d) as [[| | | | |it]|] eqn:E; try reflexivity.
  apply (map_fst_dict_set _ _ _ _ E).
Qed.

Lemma map_fst_fold_reset (ks : list key) (d : dict) :
  map fst (fold_left reset_marker ks d) = map fst d.
Proof.
  revert d. induction ks as [|k r IH]; intros d; cbn [fold_left]; [reflexivity|].
  rewrite IH. apply map_fst_reset.
Qed.

Lemma cell_among_keys (cell : key) (v : pyval) (d : dict) :
  dict_get cell d = Some v ->
  existsb (fun k => key_eqb k cell) (map fst d) = true.
Proof.
  intros H. destruct (dict_get_in _ _ _ H) as (k' & Hin & Hk).
  apply existsb_exists. exists k'. split; [|exact Hk].
  apply (in_map fst) in Hin. exact Hin.
Qed.

(** X6.  On a room whose items are dicts, [clear_empty_markers] returns
    and sets [emptied_this_round] of every item to [False]; it keeps the
    other fields of the items, the cells and the client directory. *)
Theorem clear_empty_markers_resets (g : Game) :
  items_are_dicts (room g) ->
  exists g',
    clear_empty_markers g = (Ok tt, g') /\
    clients g' = clients g /\
    map fst (room g') = map fst (room g) /\
    (forall cell it,
        dict_get cell (room g) = Some (PDict it) ->
        exists it',
          dict_get cell (room g') = Some (PDict it') /\
          dict_get (KStr "emptied_this_round") it' = Some (PBool false) /\
          (forall field,
              field <> "emptied_this_round" ->
              dict_get (KStr field) it' = dict_get (KStr field) it)).
Proof.
  intros Hd. eexists. split; [apply (clear_empty_markers_eq g Hd)|].
  cbn [clients room set_room]. split; [reflexivity|].
  split; [apply map_fst_fold_reset|].
  intros cell it Hcell.
  exists (dict_set (KStr "emptied_this_round") (PBool false) it).
  rewrite (fold_reset_get _ _ _ _ Hcell), (cell_among_keys _ _ _ Hcell).
  split; [reflexivity|]. split; [apply dict_get_set_same|].
  intros field Hf. apply dict_get_set_other, key_eqb_str_neq. congruence.
Qed.

(** X7.  An item with one use left, through a tick: the first [interact]
    replies the use message, a second one in the same tick the conflict
    message, and after [clear_empty_markers] the next one the empty
    message. *)
Theorem last_use_through_a_tick
  (g : Game) (client pos : pyval) (k pk : key) (it : dict)
  (use_message empty_message conflict_message : pyval) :
  items_are_dicts (room g) ->
  to_key client = Some k ->
  dict_get k (clients g) = Some pos ->
  to_key pos = Some pk ->
  dict_get pk (room g) = Some (PDict it) ->
  dict_get (KStr "emptied_this_round") it = Some (PBool false) ->
  dict_get (KStr "uses") it = Some (PInt 1) ->
  dict_get (KStr "use_message") it = Some use_message ->
  dict_get (KStr "empty_message") it = Some empty_message ->
  dict_get (KStr "conflict_message") it = Some conflict_message ->
  exists g1 g2,
    interact client g = (Ok (msg_reply use_message), g1) /\
    interact client g1 = (Ok (msg_reply conflict_message), g1) /\
    clear_empty_markers g1 = (Ok tt, g2) /\
    interact client g2 = (Ok (msg_reply empty_message), g2).
Proof.
  intros Hd Hk Hpos Hpk Hit Hflag Huses Huse Hempty Hconflict.
  set (it1 := used_item it 1).
  set (g1 := set_room (dict_set pk (PDict it1) (room g)) g).
  assert (Hit1 : dict_get pk (room g1) = Some (PDict it1)) by apply dict_get_set_same.
  assert (Hother : forall (field : string) d v w,
             field <> "emptied_this_round" -> field <> "uses" ->
             dict_get (KStr field) d = Some w ->
             dict_get (KStr field)
               (dict_set (KStr "emptied_this_round") v
                  (dict_set (KStr "uses") (PInt 0) d)) = Some w).
  { intros field d v w H1 H2 H.
    rewrite !dict_get_set_other; [exact H | |];
      apply key_eqb_str_neq; congruence. }
  assert (Hd1 : items_are_dicts (room g1)) by apply items_are_dicts_set, Hd.
  set (it2 := dict_set (KStr "emptied_this_round") (PBool false) it1).
  set (g2 := set_room (fold_left reset_marker (map fst (room g1)) (room g1)) g1).
  assert (Hit2 : dict_get pk (room g2) = Some (PDict it2)).
  { unfold g2. cbn [room set_room].
    rewrite (fold_reset_get _ _ _ _ Hit1), (cell_among_keys _ _ _ Hit1).
    reflexivity. }
  exists g1, g2. repeat split.
  - rewrite (interact_item_eq g client pos k pk it 1 false
               use_message empty_message conflict_message); auto.
  - rewrite (interact_item_eq g1 client pos k pk it1 0 true
               use_message empty_message conflict_message); auto.
    + apply dict_get_set_same.
    + unfold it1, used_item. cbn [Z.sub Z.eqb Z.add Z.opp Z.pos_sub].
      rewrite dict_get_set_other by reflexivity. apply dict_get_set_same.
    + apply Hother; [discriminate | discriminate | exact Huse].
    + apply Hother; [discriminate | discriminate | exact Hempty].
    + apply Hother; [discriminate | discriminate | exact Hconflict].
  - apply (clear_empty_markers_eq g1 Hd1).
  - rewrite (interact_item_eq g2 client pos k pk it2 0 false
               use_message empty_message conflict_message); auto.
    + apply dict_get_set_same.
    + unfold it2, it1, used_item. cbn [Z.sub Z.eqb Z.add Z.opp Z.pos_sub].
      rewrite !dict_get_set_other by reflexivity. apply dict_get_set_same.
    + unfold it2. rewrite dict_get_set_other by reflexivity.
      apply Hother; [discriminate | discriminate | exact Huse].
    + unfold it2. rewrite dict_get_set_other by reflexivity.
      apply Hother; [discriminate | discriminate | exact Hempty].
    + unfold it2. rewrite dict_get_set_other by reflexivity.
      apply Hother; [discriminate | discriminate | exact Hconflict].
Qed.

End TickBoundary.

Section EmptyCell.

Lemma all_str_names (names : list string) : all_str (map KStr names) = Ok names.
Proof.
  induction names as [|a r IH]; simpl; [reflexivity|]. rewrite IH. reflexivity.
Qed.

Lemma last_names (names : list string) :
  names <> [] -> last (map KStr names) KNone = KStr (last names EmptyString).
Proof.
  induction names as [|a r IH]; [congruence|]. intros _.
  destruct r as [|b r]; [reflexivity|].
  change (last (map KStr (b :: r)) KNone = KStr (last (b :: r) EmptyString)).
  apply IH. discriminate.
Qed.

Lemma set_last_names (s : string) (names : list string) :
  names <> [] ->
  set_last (KStr s) (map KStr names) = map KStr (removelast names ++ [s]).
Proof.
  induction names as [|a r IH]; [congruence|]. intros _.
  destruct r as [|b r]; [reflexivity|].
  change (KStr a :: set_last (KStr s) (map KStr (b :: r)) =
          KStr a :: map KStr (removelast (b :: r) ++ [s])).
  rewrite IH by discriminate. reflexivity.
Qed.

Lemma length_removelast_snoc {A : Type} (l : list A) (x : A) :
  l <> [] -> List.length (removelast l ++ [x]) = List.length l.
Proof.
  intros H. rewrite length_app. simpl.
  induction l as [|a r IH]; [congruence|].
  destruct r as [|b r]; [reflexivity|].
  change (S (List.length (removelast (b :: r))) + 1 = S (List.length (b :: r)))%nat.
  rewrite <- IH by discriminate. lia.
Qed.

(** How the clients met on a cell are named: one by its name, two as
    ["a and b"], more as ["a, b, and c"]. *)
Lemma collided_users_names (names : list string) :
  names <> [] -> collided_users (map KStr names) = Ok (sentence names).
Proof.
  intros Hne. destruct names as [|a [|b [|c r]]]; [congruence | reflexivity..|].
  unfold collided_users. rewrite length_map.
  change (Nat.ltb 1 (List.length (a :: b :: c :: r))) with true. cbv iota.
  rewrite last_names by discriminate. cbn [prepend].
  rewrite set_last_names by discriminate.
  rewrite all_str_names, length_map, length_removelast_snoc by discriminate.
  reflexivity.
Qed.

Lemma all_str_raises (l : list key) :
  (exists c, In c l /\ is_str c = false) -> all_str l = Raise TypeError.
Proof.
  induction l as [|a r IH]; intros (c & Hin & Hc); [destruct Hin|].
  destruct a as [| | |s]; try reflexivity. simpl.
  destruct Hin as [<- | Hin]; [discriminate Hc|].
  rewrite IH; [reflexivity | exists c; auto].
Qed.

Lemma in_set_last (c v : key) (l : list key) :
  In c l -> is_str c = false -> is_str (last l KNone) = true -> In c (set_last v l).
Proof.
  induction l as [|a r IH]; [tauto|]. intros Hin Hc Hl.
  destruct r as [|b r].
  - destruct Hin as [<- | []]. simpl in Hl. congruence.
  - change (In c (a :: set_last v (b :: r))).
    destruct Hin as [<- | Hin]; [left; reflexivity | right].
    apply IH; assumption.
Qed.

Lemma collided_users_raises (matching : list key) :
  (exists c, In c matching /\ is_str c = false) ->
  collided_users matching = Raise TypeError.
Proof.
  intros (c & Hin & Hc). unfold collided_users.
  destruct (Nat.ltb 1 (List.length matching)).
  - destruct (last matching KNone) as [| | |s] eqn:El; try reflexivity.
    cbn [prepend]. rewrite all_str_raises; [reflexivity|].
    exists c. split; [|exact Hc]. apply in_set_last; auto. rewrite El. reflexivity.
  - rewrite all_str_raises; [reflexivity | exists c; auto].
Qed.

Lemma bind_congr {S A B : Type} (m1 m2 : M S A) (f : A -> M S B) (s1 s2 : S) :
  m1 s1 = m2 s2 -> bind m1 f s1 = bind m2 f s2.
Proof. intros H. unfold bind. rewrite H. reflexivity. Qed.

Variables (g : Game) (client pos : pyval) (k pk : key).
Hypothesis Hk : to_key client = Some k.
Hypothesis Hpos : dict_get k (clients g) = Some pos.
Hypothesis Hpk : to_key pos = Some pk.
Hypothesis Hfree : dict_get pk (room g) = None.

(** [interact] on a cell without an item: a draw for the fail message,
    then the clients met on the cell decide. *)
Lemma interact_off_item_eq :
  exists n g1,
    draw g = (Ok n, g1) /\ clients g1 = clients g /\ room g1 = room g /\
    interact client g =
    bind
      (match matching_clients k pk g with
       | [] =>
           ret (PStr (nth (Nat.modulo n (List.length INTERACT_FAIL_MESSAGES))
                        INTERACT_FAIL_MESSAGES EmptyString))
       | matching =>
           bind (lift (collided_users matching))
             (fun names =>
                bind (choice [] INTERACT_ON_OTHER_USER)
                  (fun template => ret (PStr (format template names))))
       end)
      (fun msg => ret (PDict [(KStr "msg", msg)])) g1.
Proof.
  assert (Hdraw : exists n g1,
             draw g = (Ok n, g1) /\ clients g1 = clients g /\ room g1 = room g).
  { unfold draw. destruct (rng g) as [|n r]; eexists; eexists; repeat split. }
  destruct Hdraw as (n & g1 & Hdraw & Hc & Hr). exists n, g1.
  repeat split; try assumption.
  unfold interact.
  rewrite (bind_step _ _ g g pos).
  2:{ rewrite (clients_getitem_eq _ _ Hk). unfold getitem. rewrite Hpos. reflexivity. }
  rewrite (bind_step _ _ g g false).
  2:{ rewrite (room_contains_eq _ _ Hpk). unfold dict_mem. rewrite Hfree. reflexivity. }
  cbv iota. apply bind_congr.
  assert (Hchoice : choice EmptyString INTERACT_FAIL_MESSAGES g =
                    (Ok (nth (Nat.modulo n (List.length INTERACT_FAIL_MESSAGES))
                           INTERACT_FAIL_MESSAGES EmptyString), g1)).
  { unfold choice. rewrite (bind_step _ _ _ _ _ Hdraw). reflexivity. }
  rewrite (bind_step _ _ _ _ _ Hchoice).
  rewrite (bind_step _ _ g1 g1 k) by (unfold lift; rewrite (hash_ok _ _ Hk); reflexivity).
  rewrite (bind_step _ _ g1 g1 pk) by (unfold lift; rewrite (hash_ok _ _ Hpk); reflexivity).
  rewrite (bind_step _ _ g1 g1 g1) by reflexivity.
  assert (Hm : matching_clients k pk g1 = matching_clients k pk g).
  { unfold matching_clients. rewrite Hc. reflexivity. }
  rewrite Hm. reflexivity.
Qed.

(** X8.  With no item on the client's cell and no other client there,
    [interact] replies one of the five fail messages and changes neither
    the room nor the client directory. *)
Theorem interact_with_nothing :
  matching_clients k pk g = [] ->
  exists m g',
    interact client g = (Ok (msg_reply (PStr m)), g') /\
    In m INTERACT_FAIL_MESSAGES /\
    clients g' = clients g /\ room g' = room g.
Proof.
  intros Hnone.
  destruct interact_off_item_eq as (n & g1 & _ & Hc & Hr & ->). rewrite Hnone.
  eexists. exists g1. split; [reflexivity|]. split; [|auto].
  apply nth_In. apply Nat.mod_upper_bound. discriminate.
Qed.

(** X9.  With no item on the client's cell and other clients there, all
    with string ids, [interact] replies one of the five templates for
    company, filled with their names in directory order: one name as it
    is, two as ["a and b"], more as ["a, b, and c"]. *)
Theorem interact_with_company (names : list string) :
  names <> [] ->
  matching_clients k pk g = map KStr names ->
  exists template g',
    interact client g =
    (Ok (msg_reply (PStr (format template (sentence names)))), g') /\
    In template INTERACT_ON_OTHER_USER /\
    clients g' = clients g /\ room g' = room g.
Proof.
  intros Hne Hm.
  destruct interact_off_item_eq as (n & g1 & _ & Hc & Hr & ->). rewrite Hm.
  destruct names as [|a r]; [congruence|].
  change (map KStr (a :: r)) with (KStr a :: map KStr r).
  cbv iota. change (KStr a :: map KStr r) with (map KStr (a :: r)).
  rewrite (collided_users_names _ Hne).
  unfold choice, draw, bind, lift, ret.
  destruct (rng g1) as [|n2 r2];
    (eexists; eexists; split; [reflexivity|]; split;
     [apply nth_In; apply Nat.mod_upper_bound; discriminate | auto]).
Qed.

(** X10.  With no item on the client's cell, [interact] raises
    [TypeError] as soon as one of the other clients on the cell has an id
    that is not a string (an integer id, say). *)
Theorem interact_raises_on_unnamed_company (c : key) :
  In c (matching_clients k pk g) ->
  is_str c = false ->
  fst (interact client g) = Raise TypeError.
Proof.
  intros Hin Hc.
  destruct interact_off_item_eq as (n & g1 & _ & _ & _ & ->).
  destruct (matching_clients k pk g) as [|a r] eqn:Hm; [destruct Hin|].
  rewrite (collided_users_raises (a :: r)) by (exists c; auto).
  reflexivity.
Qed.

End EmptyCell.

(* ================================================================== *)
(** ** More about the server: dispatch *)
(* ================================================================== *)

Section DispatchFrames.

Lemma bind_assoc {S A B C : Type} (m : M S A) (f : A -> M S B) (h : B -> M S C) (s : S) :
  bind (bind m f) h s = bind m (fun a => bind (f a) h) s.
Proof. unfold bind. destruct (m s) as [[a|e] s1]; reflexivity. Qed.

Lemma on_engine_frame {A X : Type} (f : GameServer -> X) (m : M Game A) :
  (forall g s, f (set_engine g s) = f s) -> preserves f (on_engine m).
Proof.
  intros H s. unfold on_engine. destruct (m (engine s)) as [r g']. apply H.
Qed.

Lemma count_error_frame {X : Type} (f : GameServer -> X) :
  (forall l s, f (set_lifetime_stats l s) = f s) -> preserves f count_error.
Proof.
  intros H s. unfold count_error, modify. cbn [snd].
  destruct (stats_get "errors" (lifetime_stats s)); apply H.
Qed.

End DispatchFrames.

Ltac server_frame :=
  unfold alive_clients, connections_setitem, log_write, log_flush, log_fsync,
    _update_ckpt, ckpt_new_open, ckpt_new_write, os_replace, _truncate_log,
    log_truncate;
  repeat first
    [ apply on_engine_frame; intros ? ?; reflexivity
    | apply count_error_frame; intros ? ?; reflexivity
    | preserves_step ].

Section DispatchLaws.

Lemma parse_command_replay_frame (cmd : pyval) :
  preserves durable (_parse_command cmd true).
Proof. unfold _parse_command. cbn [negb]. server_frame. Qed.

(** X11.  With [read_from_log] set, [_parse_command] leaves log,
    checkpoint and [log_length] alone and issues no file operation,
    whatever the command and whatever becomes of it. *)
Theorem parse_command_from_log_keeps_disk (cmd : pyval) (s : GameServer) :
  durable (snd (_parse_command cmd true s)) = durable s.
Proof. apply parse_command_replay_frame. Qed.

Lemma stats_get_set (name : string) (v : Z) (l : list (string * Z)) :
  stats_get name (stats_set name v l) = Some v.
Proof.
  induction l as [|[n' v'] r IH]; simpl.
  - rewrite String.eqb_refl. reflexivity.
  - destruct (String.eqb n' name) eqn:E; simpl; rewrite E; [reflexivity | exact IH].
Qed.

Lemma errors_counted (s : GameServer) : errors (snd (count_error s)) = errors s + 1.
Proof.
  unfold errors, count_error, modify. cbn [snd].
  destruct (stats_get "errors" (lifetime_stats s)) as [n|];
    cbn [lifetime_stats set_lifetime_stats]; rewrite stats_get_set; reflexivity.
Qed.

(** A reply of [_parse_command] went through the count of errors, and
    nothing before that touched the statistics. *)
Lemma parse_command_split
  (cmd : pyval) (rfl : bool) (s s' : GameServer) (reply : pyval) :
  _parse_command cmd rfl s = (Ok reply, s') ->
  exists s1, lifetime_stats s1 = lifetime_stats s /\ s' = counted reply s1.
Proof.
  unfold _parse_command. intros H.
  apply bind_ok in H. destruct H as (complete & s0 & H0 & H).
  assert (s0 = s) as -> by (unfold lift in H0; congruence). clear H0.
  apply bind_ok in H. destruct H as (rm & s1 & Hbody & Hfin).
  exists s1. split.
  - match type of Hbody with
    | ?m s = _ => assert (HP : preserves lifetime_stats m)
    end.
    { destruct rfl; cbn [negb]; server_frame. }
    specialize (HP s). rewrite Hbody in HP. exact HP.
  - unfold bind, lift in Hfin. unfold counted.
    destruct (contains "error" rm) as [[|]|] eqn:E; [| |discriminate Hfin].
    + unfold count_error, modify, ret in Hfin.
      injection Hfin as <- <-. rewrite E. reflexivity.
    + unfold ret in Hfin. injection Hfin as <- <-. rewrite E. reflexivity.
Qed.

(** X12.  Every reply of [_parse_command] that has an ["error"] entry
    adds exactly one to the [errors] statistic (which starts at 1), and a
    reply without one leaves the statistic as it was. *)
Theorem errors_count_error_replies
  (cmd : pyval) (rfl : bool) (s s' : GameServer) (reply : pyval) :
  _parse_command cmd rfl s = (Ok reply, s') ->
  exists is_error,
    contains "error" reply = Ok is_error /\
    errors s' = errors s + (if is_error then 1 else 0).
Proof.
  intros H. pose proof H as H'. apply parse_command_split in H.
  destruct H as (s1 & Hstats & ->).
  assert (Hc : exists b, contains "error" reply = Ok b).
  { unfold _parse_command in H'.
    apply bind_ok in H'. destruct H' as (complete & s0 & _ & H').
    apply bind_ok in H'. destruct H' as (rm & s2 & _ & Hfin).
    unfold bind, lift in Hfin.
    destruct (contains "error" rm) as [b|] eqn:E; [|discriminate Hfin].
    destruct b; unfold count_error, modify, ret in Hfin;
      injection Hfin as <- _; eexists; exact E. }
  destruct Hc as [b Hb]. exists b. split; [exact Hb|].
  unfold counted. rewrite Hb.
  assert (He : errors s1 = errors s) by (unfold errors; rewrite Hstats; reflexivity).
  destruct b; [rewrite errors_counted|]; lia.
Qed.

Lemma all_in_dict (d : dict) :
  all_in REQUIRED_ITEMS (PDict d) =
  Ok (dict_mem (KStr "method") d && dict_mem (KStr "client") d).
Proof.
  unfold all_in, REQUIRED_ITEMS, contains.
  destruct (dict_mem (KStr "method") d); [|reflexivity].
  destruct (dict_mem (KStr "client") d); reflexivity.
Qed.

(** X13.  A request object that lacks [method] or [client] is answered
    [{error: malformed incomming command}]: one error is counted and
    nothing else in the server changes. *)
Theorem malformed_request (d : dict) (rfl : bool) (s : GameServer) :
  dict_get (KStr "method") d = None \/ dict_get (KStr "client") d = None ->
  _parse_command (PDict d) rfl s =
  (Ok (error "malformed incomming command"), snd (count_error s)).
Proof.
  intros H. unfold _parse_command.
  rewrite (bind_step _ _ s s false).
  2:{ unfold lift. rewrite all_in_dict. unfold dict_mem.
      destruct H as [-> | ->]; [reflexivity|].
      destruct (dict_get (KStr "method") d); reflexivity. }
  cbn [negb]. rewrite (bind_step _ _ s s _) by reflexivity.
  reflexivity.
Qed.

Variables (d : dict) (method client : pyval).
Hypothesis Hmethod : dict_get (KStr "method") d = Some method.
Hypothesis Hclient : dict_get (KStr "client") d = Some client.

(** The state in which a well-formed request reaches the dispatch. *)
Lemma parse_command_reaches_dispatch (rfl : bool) (s : GameServer) :
  (dict_get (KStr "broadcast_addr") d = None \/ exists k, to_key client = Some k) ->
  exists s1 rest,
    _parse_command (PDict d) rfl s = rest s1 /\
    engine s1 = engine s /\ durable s1 = durable s /\
    lifetime_stats s1 = lifetime_stats s /\
    socket_id_map s1 = socket_id_map s /\
    (forall k a,
        to_key client = Some k ->
        dict_get (KStr "broadcast_addr") d = Some a ->
        dict_get k (connections s1) = Some a) /\
    rest =
    bind (lift (subscript (PDict d) "method"))
      (fun method =>
         bind
           (bind (lift (hash method))
              (fun name =>
                 match find_handler name with
                 | None =>
                     ret (GameEngine.error
                            ("method " ++ str_of_key name ++
                             " does not exist for engine: <class 'GameEngine.Game'>"))
                 | Some handler =>
                     bind
                       (if eq_key method (KStr "get_room") then
                          bind alive_clients
                            (fun alive => on_engine (handler (PDict alive)))
                        else
                          bind (lift (subscript (PDict d) "client"))
                            (fun client => on_engine (handler client)))
                       (fun return_message =>
                          bind
                            (if negb rfl then
                               bind (log_write (json_line (PDict d)))
                                 (fun _ => bind log_flush
                                    (fun _ => bind log_fsync
                                       (fun _ => bind
                                          (modify (fun s => set_log_length (log_length s + 1) s))
                                          (fun _ => bind get
                                             (fun s => if 100 <? log_length s
                                                       then _update_ckpt else ret tt)))))
                             else ret tt)
                            (fun _ => ret return_message))
                 end))
           (fun return_message =>
              bind (lift (contains "error" return_message))
                (fun is_error =>
                   bind (if is_error then count_error else ret tt)
                     (fun _ => ret return_message)))).
Proof.
  intros Haddr. unfold _parse_command.
  rewrite (bind_step _ _ s s true).
  2:{ unfold lift. rewrite all_in_dict. unfold dict_mem.
      rewrite Hmethod, Hclient. reflexivity. }
  cbn [negb]. rewrite bind_assoc.
  rewrite (bind_step _ _ s s (dict_mem (KStr "broadcast_addr") d)) by reflexivity.
  rewrite bind_assoc. unfold dict_mem.
  destruct (dict_get (KStr "broadcast_addr") d) as [a|] eqn:Ha.
  - destruct Haddr as [Haddr | [k Hk]]; [discriminate Haddr|].
    rewrite (bind_step _ _ s (set_connections (dict_set k a (connections s)) s) tt).
    2:{ unfold subscript, getitem. rewrite Ha, Hclient.
        unfold bind, lift, connections_setitem. rewrite (hash_ok _ _ Hk). reflexivity. }
    eexists. eexists. split; [rewrite bind_assoc; reflexivity|].
    repeat split.
    intros k' a' Hk' [= <-]. assert (k' = k) as -> by congruence.
    cbn [connections set_connections]. apply dict_get_set_same.
  - rewrite (bind_step _ _ s s tt) by reflexivity.
    eexists. eexists. split; [rewrite bind_assoc; reflexivity|].
    repeat split. intros k a _ [=].
Qed.

(** X14.  A request whose method is not a command of the engine (a
    name outside the command map, or a number, [true], [null]) is
    answered [{error: method ... does not exist for engine: ...}]: one
    error is counted, and neither the engine nor the disk changes. *)
Theorem unknown_method (name : key) (rfl : bool) (s : GameServer) :
  to_key method = Some name ->
  find_handler name = None ->
  (dict_get (KStr "broadcast_addr") d = None \/ exists k, to_key client = Some k) ->
  fst (_parse_command (PDict d) rfl s) =
  Ok (error ("method " ++ str_of_key name ++
             " does not exist for engine: <class 'GameEngine.Game'>")) /\
  engine (snd (_parse_command (PDict d) rfl s)) = engine s /\
  durable (snd (_parse_command (PDict d) rfl s)) = durable s /\
  errors (snd (_parse_command (PDict d) rfl s)) = errors s + 1.
Proof.
  intros Hname Hfind Haddr.
  destruct (parse_command_reaches_dispatch rfl s Haddr)
    as (s1 & rest & -> & He & Hd & Hl & _ & _ & ->).
  rewrite (bind_step _ _ s1 s1 method)
    by (unfold lift, subscript, getitem; rewrite Hmethod; reflexivity).
  rewrite bind_assoc.
  rewrite (bind_step _ _ s1 s1 name)
    by (unfold lift; rewrite (hash_ok _ _ Hname); reflexivity).
  rewrite Hfind. rewrite (bind_step _ _ s1 s1 _) by reflexivity.
  unfold error. rewrite finish_eq. cbn [fst snd].
  split; [reflexivity|]. split; [rewrite counted_engine; exact He|].
  split; [rewrite counted_durable; exact Hd|].
  match goal with
  | |- errors (counted ?r s1) = _ =>
      change (counted r s1) with (snd (count_error s1))
  end.
  rewrite errors_counted. unfold errors. rewrite Hl. reflexivity.
Qed.

(** X15.  A request that carries [broadcast_addr] has it recorded under
    its client in the connection table before the dispatch: the entry is
    there afterwards whatever the method is and whether or not the
    handler returns. *)
Theorem broadcast_addr_is_recorded
  (k : key) (addr : pyval) (rfl : bool) (s : GameServer) :
  to_key client = Some k ->
  dict_get (KStr "broadcast_addr") d = Some addr ->
  dict_get k (connections (snd (_parse_command (PDict d) rfl s))) = Some addr.
Proof.
  intros Hk Ha.
  destruct (parse_command_reaches_dispatch rfl s (or_intror (ex_intro _ k Hk)))
    as (s1 & rest & -> & _ & _ & _ & _ & Hconn & ->).
  match goal with
  | |- dict_get k (connections (snd (?m s1))) = _ =>
      assert (HP : preserves connections m)
  end.
  { destruct rfl; cbn [negb]; server_frame. }
  rewrite (HP s1). exact (Hconn k addr Hk Ha).
Qed.

End DispatchLaws.

Section ConnectedClients.

Lemma alive_clients_of_raises (ids : list pyval) (clients acc : dict) (c : pyval) (k : key) :
  In c ids -> to_key c = Some k -> dict_get k clients = None ->
  exists e,
    alive_clients_of ids clients acc = Raise e /\ (e = KeyError \/ e = TypeError).
Proof.
  revert acc. induction ids as [|a r IH]; intros acc Hin Hk Hnone; [destruct Hin|].
  simpl. unfold hash, getitem.
  destruct (to_key a) as [ka|] eqn:Ea; [|exists TypeError; auto].
  destruct (dict_get ka clients) as [pos|] eqn:Eg.
  - destruct Hin as [-> | Hin]; [congruence|]. apply IH; assumption.
  - exists KeyError. auto.
Qed.

(** X16.  [get_room] needs every client recorded for a connected socket
    to be in the engine's directory: when one is not (it sent a request
    without ever being added, say), every [get_room] request raises
    [KeyError] (or [TypeError] when an earlier recorded id is not
    hashable), and engine and disk are left as they were. *)
Theorem get_room_needs_known_connections
  (d : dict) (client c : pyval) (k : key) (sock : nat) (rfl : bool) (s : GameServer) :
  dict_get (KStr "method") d = Some (PStr "get_room") ->
  dict_get (KStr "client") d = Some client ->
  (dict_get (KStr "broadcast_addr") d = None \/ exists k', to_key client = Some k') ->
  In (sock, c) (socket_id_map s) ->
  to_key c = Some k ->
  dict_get k (clients (engine s)) = None ->
  exists e,
    fst (_parse_command (PDict d) rfl s) = Raise e /\
    (e = KeyError \/ e = TypeError) /\
    engine (snd (_parse_command (PDict d) rfl s)) = engine s /\
    durable (snd (_parse_command (PDict d) rfl s)) = durable s.
Proof.
  intros Hmethod Hclient Haddr Hin Hk Hnone.
  destruct (parse_command_reaches_dispatch d (PStr "get_room") client
              Hmethod Hclient rfl s Haddr)
    as (s1 & rest & -> & He & Hd & _ & Hmap & _ & ->).
  destruct (alive_clients_of_raises (map snd (socket_id_map s1))
              (clients (engine s1)) [] c k) as (e & Hraise & Hcases).
  { rewrite Hmap. apply (in_map snd) in Hin. exact Hin. }
  { exact Hk. }
  { rewrite He. exact Hnone. }
  exists e.
  rewrite (bind_step _ _ s1 s1 (PStr "get_room"))
    by (unfold lift, subscript, getitem; rewrite Hmethod; reflexivity).
  rewrite bind_assoc.
  rewrite (bind_step _ _ s1 s1 (KStr "get_room")) by reflexivity.
  change (find_handler (KStr "get_room")) with (Some get_room).
  change (eq_key (PStr "get_room") (KStr "get_room")) with true. cbv iota.
  rewrite (bind_raise_step _ _ s1 s1 e).
  - cbn [fst snd]. auto.
  - apply bind_raise_step, bind_raise_step.
    unfold alive_clients. rewrite (bind_step _ _ s1 s1 s1) by reflexivity.
    unfold lift. rewrite Hraise. reflexivity.
Qed.

End ConnectedClients.

Section LogBound.

Lemma logged_state_log (cmd : pyval) (s : GameServer) :
  log_file (logged_state cmd s) =
    (if 100 <=? log_length s then [] else log_file s ++ [json_line cmd]) /\
  log_length (logged_state cmd s) =
    (if 100 <=? log_length s then 0 else log_length s + 1).
Proof.
  unfold logged_state.
  replace (100 <? log_length (appended (json_line cmd) s)) with (100 <=? log_length s).
  2:{ simpl. destruct (100 <=? log_length s) eqn:E; symmetry;
      [apply Z.ltb_lt; apply Z.leb_le in E | apply Z.ltb_ge; apply Z.leb_gt in E]; lia. }
  destruct (100 <=? log_length s); split; reflexivity.
Qed.

Lemma log_bound_step (extra : Z) (cmd : pyval) (rfl : bool) (s : GameServer) :
  0 <= extra -> log_bound extra s -> log_bound extra (snd (_parse_command cmd rfl s)).
Proof.
  unfold log_bound. intros Hextra [Hlen Hmax].
  assert (Hsame : forall s', durable s' = durable s ->
            Z.of_nat (List.length (log_file s')) <= log_length s' + extra /\
            log_length s' <= 100).
  { unfold durable. intros s' [= _ -> -> _ _]. auto. }
  destruct rfl; [apply Hsame, parse_command_replay_frame|].
  destruct (_parse_command cmd false s) as [r s'] eqn:H.
  destruct (parse_command_cases _ _ _ _ H)
    as [[Hd _] | (_ & reply & s2 & _ & Hd2 & ->)]; [exact (Hsame _ Hd)|].
  cbn [snd].
  pose proof (counted_durable reply (logged_state cmd s2)) as Hc.
  unfold durable in Hc, Hd2. injection Hc as _ -> -> _ _.
  injection Hd2 as _ Hf Hn _ _.
  destruct (logged_state_log cmd s2) as [-> ->]. rewrite Hf, Hn.
  destruct (100 <=? log_length s) eqn:E.
  - simpl. lia.
  - apply Z.leb_gt in E. rewrite length_app. simpl. lia.
Qed.

(** X17.  [_parse_command] keeps the log short: when the log holds at
    most [extra] lines more than [log_length] counts and [log_length]
    is at most 100 before a command, both hold again after it, whatever
    the command and the mode; with [extra = 0] the log never holds more
    than 100 lines. *)
Theorem log_stays_short (extra : Z) (cmd : pyval) (rfl : bool) (s : GameServer) :
  0 <= extra ->
  Z.of_nat (List.length (log_file s)) <= log_length s + extra ->
  log_length s <= 100 ->
  Z.of_nat (List.length (log_file (snd (_parse_command cmd rfl s)))) <=
    log_length (snd (_parse_command cmd rfl s)) + extra /\
  log_length (snd (_parse_command cmd rfl s)) <= 100.
Proof.
  intros Hextra Hlen Hmax. apply (log_bound_step extra cmd rfl s Hextra).
  split; assumption.
Qed.

End LogBound.

(* ================================================================== *)
(** ** More about the server: start, replay and checkpoints *)
(* ================================================================== *)

Section Replay.

Lemma load_from_log_replay (s : GameServer) : _load_from_log s = replay (log_file s) s.
Proof. reflexivity. Qed.

Lemma replay_cons (l : line) (r : list line) (s : GameServer) :
  replay (l :: r) s =
  replay r (match l with
            | LJson v => snd (_parse_command v false s)
            | LBad _ => s
            end).
Proof.
  unfold replay. cbn [for_each]. unfold bind at 1, try_except.
  destruct l as [v|t].
  - unfold bind at 1. unfold lift, json_loads. unfold bind at 1.
    destruct (_parse_command v false s) as [[a|e] s1]; reflexivity.
  - reflexivity.
Qed.

Lemma replay_ok (lines : list line) (s : GameServer) : fst (replay lines s) = Ok tt.
Proof.
  revert s. induction lines as [|l r IH]; intros s; [reflexivity|].
  rewrite replay_cons. apply IH.
Qed.

Lemma replay_bound (extra : Z) (lines : list line) (s : GameServer) :
  0 <= extra -> log_bound extra s -> log_bound extra (snd (replay lines s)).
Proof.
  intros Hextra. revert s. induction lines as [|l r IH]; intros s H; [exact H|].
  rewrite replay_cons. apply IH. destruct l; [|exact H].
  apply log_bound_step; assumption.
Qed.

Lemma load_server_log (s : GameServer) :
  log_file (snd (_load_server s)) = log_file s /\
  log_length (snd (_load_server s)) = log_length s.
Proof.
  unfold _load_server, try_except, ckpt_readlines. run_monad.
  destruct (ckpt_file s) as [ls|]; [|split; reflexivity].
  destruct ls as [|l0 [|l1 [|l2 r]]]; try (split; reflexivity).
  destruct l0 as [v0|t0]; [|split; reflexivity].
  destruct l1 as [v1|t1]; [|split; reflexivity].
  cbn [json_loads].
  destruct v0 as [| | | | |room0]; try (split; reflexivity).
  destruct v1 as [| | | | |clients0]; try (split; reflexivity).
  destruct room0, clients0; split; reflexivity.
Qed.

(** X18.  The replay of the log at the start never raises: a line that
    does not parse, and a command whose handler raises, are dropped and
    the replay goes on with the next line. *)
Theorem load_from_log_never_raises (s : GameServer) : fst (_load_from_log s) = Ok tt.
Proof. rewrite load_from_log_replay. apply replay_ok. Qed.

(** X19.  The lines of the log that are not JSON play no part in the
    replay: it ends in the state, and with the result, of the replay of
    the lines that parse. *)
Theorem load_from_log_skips_unparseable (s : GameServer) :
  _load_from_log s = replay (filter is_json (log_file s)) s.
Proof.
  rewrite load_from_log_replay. generalize (log_file s) as lines. intros lines.
  revert s. induction lines as [|l r IH]; intros s; [reflexivity|].
  destruct l as [v|t]; cbn [filter is_json].
  - rewrite !replay_cons. apply IH.
  - rewrite replay_cons. apply IH.
Qed.

(** X20.  However the server starts, [log_length] ends at most at 100
    and the log holds at most as many lines more than [log_length]
    counts as the log had at the start: [log_length] starts at 0 and
    not at the number of lines found. *)
Theorem log_after_start
  (log : list line) (checkpoint : option (list line)) (seed : list nat) :
  log_bound (Z.of_nat (List.length log))
    (snd (GameServer.__init__ log checkpoint seed)).
Proof.
  unfold GameServer.__init__.
  set (s0 := mkServer _ _ _ _ _ _ _ _ _).
  assert (H0 : log_bound (Z.of_nat (List.length log)) (snd (_load_server s0))).
  { unfold log_bound. destruct (load_server_log s0) as [-> ->]. simpl. lia. }
  unfold bind. destruct (_load_server s0) as [[[]|e] s1]; [|exact H0].
  rewrite load_from_log_replay. apply replay_bound; [lia | exact H0].
Qed.

End Replay.

Section Checkpoints.

(** X21.  [_load_server] leaves the server as it is when there is no
    checkpoint, when the checkpoint has not exactly two lines, when one
    of two JSON lines is not an object, and when both are the empty
    object. *)
Theorem load_server_ignores (s : GameServer) :
  ckpt_file s = None \/
  (exists ls, ckpt_file s = Some ls /\ List.length ls <> 2%nat) \/
  (exists room clients,
     ckpt_file s = Some [LJson room; LJson clients] /\
     (is_dict room && is_dict clients = false \/
      (room = PDict [] /\ clients = PDict []))) ->
  _load_server s = (Ok tt, s).
Proof.
  intros [H | [(ls & H & Hlen) | (room0 & clients0 & H & Hcase)]].
  - apply (checkpoint_of_other_length_ignored s []). auto.
  - apply (checkpoint_of_other_length_ignored s ls). auto.
  - unfold _load_server, try_except, ckpt_readlines. run_monad. rewrite H.
    cbn [json_loads].
    destruct Hcase as [Hd | [-> ->]]; [|reflexivity].
    destruct room0; try reflexivity.
    destruct clients0; try reflexivity. discriminate Hd.
Qed.

Lemma dict_set_not_nil (k : key) (v : pyval) (d : dict) : dict_set k v d <> [].
Proof. destruct d as [|[k' v'] r]; simpl; [|destruct (key_eqb k' k)]; discriminate. Qed.

Lemma dict_update_not_nil (d e : dict) : d <> [] \/ e <> [] -> dict_update d e <> [].
Proof.
  unfold dict_update. revert d. induction e as [|[k v] r IH]; intros d H; simpl.
  - destruct H as [H | H]; [exact H | congruence].
  - apply IH. left. apply dict_set_not_nil.
Qed.

Lemma reload_dict_nil (d : dict) :
  dict_of_pairs (map (fun kv => (KStr (json_key (fst kv)), json_reload (snd kv))) d) = [] ->
  d = [].
Proof.
  destruct d as [|kv r]; [reflexivity|]. intros H. exfalso.
  revert H. apply dict_update_not_nil. right. discriminate.
Qed.

Lemma truthy_dict (d : dict) : truthy (PDict d) = false -> d = [].
Proof. destruct d; [reflexivity | discriminate]. Qed.

(** The start of the server on the files left by a checkpoint. *)
Lemma restart_after_checkpoint (seed : list nat) (s : GameServer) :
  room (engine s) <> [] ->
  fst (restarted seed (snd (_update_ckpt s))) = Ok tt /\
  PDict (room (engine (snd (restarted seed (snd (_update_ckpt s)))))) =
    json_reload (PDict (room (engine s))) /\
  PDict (clients (engine (snd (restarted seed (snd (_update_ckpt s)))))) =
    json_reload (PDict (clients (engine s))).
Proof.
  intros Hroom. rewrite update_ckpt_eq. cbn [snd].
  unfold restarted, checkpointed, ckpt_lines. cbn [log_file ckpt_file].
  unfold GameServer.__init__, json_line. cbn [json_reload].
  set (room' := dict_of_pairs _). set (clients' := dict_of_pairs _).
  set (s0 := mkServer _ _ _ _ _ _ _ _ _).
  assert (Hroom' : truthy (PDict room') = true).
  { destruct (truthy (PDict room')) eqn:E; [reflexivity|].
    apply truthy_dict in E. apply reload_dict_nil in E. contradiction. }
  assert (Hload : _load_server s0 =
            (Ok tt, set_engine
                      (if truthy (PDict clients')
                       then set_clients clients' (set_room room' (engine s0))
                       else set_room room' (engine s0)) s0)).
  { unfold _load_server, try_except, ckpt_readlines. run_monad.
    unfold s0 at 1. cbn [ckpt_file json_loads]. rewrite Hroom'.
    unfold on_engine. cbn beta iota.
    destruct (truthy (PDict clients')); reflexivity. }
  unfold bind. rewrite Hload.
  match goal with
  | |- context [_load_from_log ?st] =>
      rewrite (load_from_log_replay st); change (log_file st) with (@nil line)
  end.
  unfold replay. cbn [for_each]. unfold ret. cbn [fst snd].
  unfold set_engine. cbn [engine].
  split; [reflexivity|].
  destruct (truthy (PDict clients')) eqn:E.
  - split; reflexivity.
  - split; [reflexivity|]. apply truthy_dict in E. rewrite E.
    unfold s0. cbn [engine]. destruct (init_shape seed) as (a & b & c & rest & ->).
    reflexivity.
Qed.

End Checkpoints.

Section CheckpointRoundTrip.

Lemma dict_get_none_in (k k' : key) (v : pyval) (d : dict) :
  dict_get k d = None -> In (k', v) d -> key_eqb k' k = false.
Proof.
  induction d as [|[k1 v1] r IH]; simpl; [tauto|].
  destruct (key_eqb k1 k) eqn:E; [discriminate|].
  intros H [[= <- <-] | Hin]; [exact E | exact (IH H Hin)].
Qed.

Lemma dict_get_app (k : key) (d e : dict) :
  dict_get k (d ++ e) =
  match dict_get k d with
  | Some v => Some v
  | None => dict_get k e
  end.
Proof.
  induction d as [|[k1 v1] r IH]; simpl; [reflexivity|].
  destruct (key_eqb k1 k); [reflexivity | exact IH].
Qed.

Lemma dict_update_fresh (e acc : dict) :
  (forall k v, In (k, v) e -> dict_get k acc = None) ->
  nodup_keys e = true ->
  dict_update acc e = acc ++ e.
Proof.
  unfold dict_update. revert acc.
  induction e as [|[k v] r IH]; intros acc Hfresh Hnodup; simpl.
  - rewrite app_nil_r. reflexivity.
  - simpl in Hnodup. apply andb_prop in Hnodup. destruct Hnodup as [Hk Hr].
    unfold dict_mem in Hk. destruct (dict_get k r) eqn:Ek; [discriminate|].
    rewrite (dict_set_absent k v acc) by (apply (Hfresh k v); left; reflexivity).
    rewrite IH; [rewrite <- app_assoc; reflexivity | | exact Hr].
    intros k' v' Hin. rewrite dict_get_app.
    rewrite (Hfresh k' v') by (right; exact Hin). simpl.
    rewrite key_eqb_sym, (dict_get_none_in k k' v' r Ek Hin). reflexivity.
Qed.

Lemma dict_of_pairs_nodup (d : dict) : nodup_keys d = true -> dict_of_pairs d = d.
Proof.
  intros H. unfold dict_of_pairs. rewrite dict_update_fresh; [reflexivity | | exact H].
  reflexivity.
Qed.

Lemma json_reload_native : forall v, json_native v = true -> json_reload v = v.
Proof.
  fix IH 1. intros [| b | z | t | l | d]; try reflexivity.
  - cbn [json_native json_reload]. intros H. f_equal.
    induction l as [|x r IHr]; [reflexivity|].
    cbn [forallb] in H. apply andb_prop in H. destruct H as [Hx Hr].
    cbn [map]. rewrite (IH x Hx), (IHr Hr). reflexivity.
  - cbn [json_native json_reload]. intros H.
    apply andb_prop in H. destruct H as [Hall Hnodup]. f_equal.
    assert (Hmap : map (fun kv : key * pyval =>
                          (KStr (json_key (fst kv)), json_reload (snd kv))) d = d).
    { clear Hnodup. induction d as [|[k v] r IHr]; [reflexivity|].
      cbn [forallb fst snd] in Hall. apply andb_prop in Hall.
      destruct Hall as [Hkv Hr]. apply andb_prop in Hkv. destruct Hkv as [Hk Hv].
      cbn [map fst snd]. rewrite (IH v Hv), (IHr Hr).
      destruct k; try discriminate Hk. reflexivity. }
    rewrite Hmap. apply dict_of_pairs_nodup, Hnodup.
Qed.

Lemma dict_get_update_none (k : key) (e acc : dict) :
  dict_get k acc = None ->
  (forall kv, In kv e -> key_eqb (fst kv) k = false) ->
  dict_get k (dict_update acc e) = None.
Proof.
  unfold dict_update. revert acc.
  induction e as [|[k1 v1] r IH]; intros acc Hacc He; simpl; [exact Hacc|].
  apply IH.
  - pose proof (He (k1, v1) (or_introl eq_refl)) as E. cbn [fst] in E.
    cbn [fst snd]. rewrite dict_get_set, E. exact Hacc.
  - intros kv Hin. apply He. right. exact Hin.
Qed.

Lemma in_dict_update (kv : key * pyval) (e acc : dict) :
  In kv e -> dict_mem (fst kv) (dict_update acc e) = true.
Proof.
  unfold dict_update. revert acc.
  induction e as [|[k1 v1] r IH]; intros acc Hin; [destruct Hin|].
  simpl. destruct Hin as [<- | Hin]; [|apply IH, Hin].
  apply (dict_mem_update k1 (dict_set k1 v1 acc) r).
  unfold dict_mem. rewrite dict_get_set_same. reflexivity.
Qed.

Lemma key_eqb_str_other (t : string) (k : key) : is_str k = false -> key_eqb (KStr t) k = false.
Proof. destruct k; try discriminate; reflexivity. Qed.

(** X22.  A checkpoint brings the room back: when the item map and the
    client map are as JSON gives them (text keys, each once) and there
    is an item, a server started on the files that [_update_ckpt]
    leaves has the same item map and the same client map, and its
    start does not raise. *)
Theorem checkpoint_restores (seed : list nat) (s : GameServer) :
  room (engine s) <> [] ->
  json_native (PDict (room (engine s))) = true ->
  json_native (PDict (clients (engine s))) = true ->
  fst (restarted seed (snd (_update_ckpt s))) = Ok tt /\
  room (engine (snd (restarted seed (snd (_update_ckpt s))))) = room (engine s) /\
  clients (engine (snd (restarted seed (snd (_update_ckpt s))))) = clients (engine s).
Proof.
  intros Hroom Hr Hc.
  destruct (restart_after_checkpoint seed s Hroom) as (Hok & Hroom' & Hclients').
  rewrite (json_reload_native _ Hr) in Hroom'.
  rewrite (json_reload_native _ Hc) in Hclients'.
  injection Hroom' as Hroom'. injection Hclients' as Hclients'. auto.
Qed.

(** X23.  A client whose id is not text does not survive a checkpoint:
    after the restart its position is filed under the text of the id
    ([1] under ["1"], [None] under ["null"]), and the id itself is not
    in the directory any more. *)
Theorem checkpoint_loses_other_ids
  (seed : list nat) (s : GameServer) (k : key) (pos : pyval) :
  room (engine s) <> [] ->
  In (k, pos) (clients (engine s)) ->
  is_str k = false ->
  dict_get k (clients (engine (snd (restarted seed (snd (_update_ckpt s)))))) = None /\
  dict_mem (KStr (json_key k))
    (clients (engine (snd (restarted seed (snd (_update_ckpt s)))))) = true.
Proof.
  intros Hroom Hin Hk.
  destruct (restart_after_checkpoint seed s Hroom) as (_ & _ & Hclients').
  set (s' := snd (restarted seed (snd (_update_ckpt s)))) in *. clearbody s'.
  cbn [json_reload] in Hclients'. injection Hclients' as ->.
  unfold dict_of_pairs. split.
  - apply dict_get_update_none; [reflexivity|].
    intros kv Hkv. apply in_map_iff in Hkv. destruct Hkv as (kv0 & <- & _).
    apply key_eqb_str_other, Hk.
  - apply (in_dict_update (KStr (json_key k), json_reload pos)).
    apply in_map_iff. exists (k, pos). split; [reflexivity | exact Hin].
Qed.

End CheckpointRoundTrip.

(* ================================================================== *)
(** ** Message framing *)
(* ================================================================== *)

Section FramingLaws.

Lemma str_length_app (a b : string) :
  String.length (a ++ b) = (String.length a + String.length b)%nat.
Proof. induction a as [|c r IH]; simpl; [reflexivity | rewrite IH; reflexivity]. Qed.

Lemma str_app_assoc (a b c : string) : ((a ++ b) ++ c = a ++ (b ++ c))%string.
Proof. induction a as [|x r IH]; simpl; [reflexivity | rewrite IH; reflexivity]. Qed.

Lemma str_app_nil (a : string) : (a ++ "" = a)%string.
Proof. induction a as [|x r IH]; simpl; [reflexivity | rewrite IH; reflexivity]. Qed.

Lemma drop_app (n : nat) (a b : string) :
  drop (String.length a + n) (a ++ b) = drop n b.
Proof. induction a as [|x r IH]; simpl; [reflexivity | exact IH]. Qed.

Lemma take_app (a b : string) : take (String.length a) (a ++ b) = a.
Proof.
  induction a as [|x r IH]; simpl; [destruct b; reflexivity | rewrite IH; reflexivity].
Qed.

Lemma last_chars_app (n : nat) (body ending : string) :
  (n <= String.length ending)%nat ->
  last_chars n (body ++ ending) = drop (String.length ending - n) ending.
Proof.
  intros H. unfold last_chars. rewrite str_length_app.
  replace (String.length body + String.length ending - n)%nat
    with (String.length body + (String.length ending - n))%nat by lia.
  apply drop_app.
Qed.

Lemma without_last_app (body ending : string) :
  without_last (String.length ending) (body ++ ending) = body.
Proof.
  unfold without_last. rewrite str_length_app.
  replace (String.length body + String.length ending - String.length ending)%nat
    with (String.length body) by lia.
  apply take_app.
Qed.

Lemma strip_ending_terminated (body ending : string) :
  In ending END_SEQ -> strip_ending END_SEQ (body ++ ending) = Some body.
Proof.
  intros [<- | [<- | []]]; unfold END_SEQ; cbn [strip_ending].
  - rewrite last_chars_app by (simpl; lia). rewrite without_last_app.
    cbn [String.length Nat.sub drop]. rewrite String.eqb_refl. reflexivity.
  - rewrite (last_chars_app (String.length "END_OF_MESSAGE")) by (simpl; lia).
    change (drop _ "ALT_TERMINATION" =? "END_OF_MESSAGE")%string with false.
    cbv iota.
    rewrite last_chars_app by (simpl; lia). rewrite without_last_app.
    cbn [String.length Nat.sub drop]. rewrite String.eqb_refl. reflexivity.
Qed.

Lemma terminated_not_empty (body ending : string) :
  In ending END_SEQ -> ((body ++ ending) =? "")%string = false.
Proof.
  intros H. apply String.eqb_neq. intros E.
  apply (f_equal String.length) in E. rewrite str_length_app in E.
  destruct H as [<- | [<- | []]]; simpl in E; lia.
Qed.

Lemma recv_loop_unterminated (pre rest : list string) (data : string) :
  forallb unterminated pre = true ->
  recv_loop (pre ++ rest) data = recv_loop rest (data ++ text pre).
Proof.
  revert data. induction pre as [|c r IH]; intros data H.
  - simpl. rewrite str_app_nil. reflexivity.
  - cbn [forallb] in H. apply andb_prop in H. destruct H as [Hc Hr].
    unfold unterminated in Hc. apply andb_prop in Hc. destruct Hc as [Hne Hend].
    cbn [app recv_loop]. apply negb_true_iff in Hne. rewrite Hne.
    destruct (strip_ending END_SEQ c); [discriminate|].
    rewrite (IH _ Hr). cbn [text fold_right]. rewrite str_app_assoc. reflexivity.
Qed.

(** X24.  [_recv_all] returns one message: the texts received before
    the first one that ends with a terminator, and that one without its
    terminator, in one piece; what arrives later is left unread. *)
Theorem recv_all_returns_message
  (pre rest : list string) (body ending : string) :
  forallb unterminated pre = true ->
  In ending END_SEQ ->
  _recv_all (pre ++ (body ++ ending)%string :: rest) = ((text pre ++ body)%string, rest).
Proof.
  intros Hpre Hend. unfold _recv_all. rewrite (recv_loop_unterminated _ _ _ Hpre).
  cbn [recv_loop]. rewrite (terminated_not_empty _ _ Hend).
  rewrite (strip_ending_terminated _ _ Hend). reflexivity.
Qed.

(** X25.  Without a text that ends with a terminator, [_recv_all] reads
    until the connection is closed and returns everything received: a
    terminator that arrives in the middle of a text, or split over two
    texts, is not seen and stays in the result. *)
Theorem recv_all_until_closed (pre rest : list string) :
  forallb unterminated pre = true ->
  _recv_all (pre ++ EmptyString :: rest) = (text pre, rest) /\
  _recv_all pre = (text pre, []).
Proof.
  intros Hpre. unfold _recv_all. split.
  - rewrite (recv_loop_unterminated _ _ _ Hpre). reflexivity.
  - rewrite <- (app_nil_r pre) at 1. rewrite (recv_loop_unterminated _ _ _ Hpre).
    reflexivity.
Qed.

End FramingLaws.

(* ================================================================== *)
(** ** The further properties at concrete inputs *)
(* ================================================================== *)

Section MoreWitnesses.

Lemma items_of_last_use : items_are_dicts (room last_use).
Proof.
  intros cell v [H | []]. injection H as _ <-. eexists. reflexivity.
Defined.

Lemma items_of_spent : items_are_dicts (room spent).
Proof.
  intros cell v [H | []]. injection H as _ <-. eexists. reflexivity.
Defined.

(** Nobody is in the empty engine: moving ["a"] is an error. *)
Lemma move_of_unknown_client_witness :
  up (PStr "a") empty_engine = (Ok (error "client not in room"), empty_engine) /\
  down (PStr "a") empty_engine = (Ok (error "client not in room"), empty_engine) /\
  left (PStr "a") empty_engine = (Ok (error "client not in room"), empty_engine) /\
  right (PStr "a") empty_engine = (Ok (error "client not in room"), empty_engine).
Proof.
  apply (move_of_unknown_client empty_engine (PStr "a") (KStr "a")); reflexivity.
Defined.

(** A list as client id, and a position that is no position. *)
Lemma move_raises_and_keeps_engine_witness :
  up (PList []) empty_engine = (Raise TypeError, empty_engine) /\
  left (PStr "a") (engine_with_a "nowhere") = (Raise ValueError, engine_with_a "nowhere").
Proof.
  split.
  - destruct (move_raises_and_keeps_engine empty_engine (PList [])) as [H _].
    destruct (H eq_refl) as [Hup _]. exact Hup.
  - destruct (move_raises_and_keeps_engine (engine_with_a "nowhere") (PStr "a"))
      as [_ H].
    destruct (H (KStr "a") (PStr "nowhere") ValueError eq_refl eq_refl eq_refl)
      as [(_ & _ & Hleft & _) _].
    exact Hleft.
Defined.

(** From [3:5], five times left and five times right end on [5:5]. *)
Lemma lefts_then_rights_witness :
  dict_get (KStr "a")
    (clients (run (times 5 "left" (PStr "a") ++ times 5 "right" (PStr "a"))
                (engine_with_a "3:5"))) =
  Some (PStr "5:5").
Proof.
  apply (proj1 (lefts_then_rights (PStr "a") (KStr "a") eq_refl
                  (engine_with_a "3:5") 3 5 5 eq_refl eq_refl
                  ltac:(lia) ltac:(lia))).
Defined.

(** The chest emptied in this tick has its marker cleared. *)
Lemma clear_empty_markers_resets_witness :
  exists g',
    clear_empty_markers spent = (Ok tt, g') /\
    clients g' = clients spent /\
    map fst (room g') = map fst (room spent) /\
    (forall cell it,
        dict_get cell (room spent) = Some (PDict it) ->
        exists it',
          dict_get cell (room g') = Some (PDict it') /\
          dict_get (KStr "emptied_this_round") it' = Some (PBool false) /\
          (forall field,
              field <> "emptied_this_round" ->
              dict_get (KStr field) it' = dict_get (KStr field) it)).
Proof. apply (clear_empty_markers_resets spent items_of_spent). Defined.

(** The last use of the chest of [last_use], through a tick. *)
Lemma last_use_through_a_tick_witness :
  exists g1 g2,
    interact (PStr "a") last_use =
    (Ok (msg_reply (PStr "you put your hand in the box and get a surprise")), g1) /\
    interact (PStr "a") g1 =
    (Ok (msg_reply (PStr "you put your hand in the box and feel someone else's hand")),
     g1) /\
    clear_empty_markers g1 = (Ok tt, g2) /\
    interact (PStr "a") g2 =
    (Ok (msg_reply (PStr "you put your hand in an empty box")), g2).
Proof.
  apply (last_use_through_a_tick last_use (PStr "a") (PStr "4:4") (KStr "a")
           (KStr "4:4") (fields_of (worn_chest 1 false))
           (PStr "you put your hand in the box and get a surprise")
           (PStr "you put your hand in an empty box")
           (PStr "you put your hand in the box and feel someone else's hand")
           items_of_last_use);
    reflexivity.
Defined.

(** Alone on an empty cell. *)
Lemma interact_with_nothing_witness :
  exists m g',
    interact (PStr "a") (engine_with_a "4:4") = (Ok (msg_reply (PStr m)), g') /\
    In m INTERACT_FAIL_MESSAGES /\
    clients g' = clients (engine_with_a "4:4") /\ room g' = room (engine_with_a "4:4").
Proof.
  apply (interact_with_nothing (engine_with_a "4:4") (PStr "a") (PStr "4:4")
           (KStr "a") (KStr "4:4"));
    reflexivity.
Defined.

(** ["a"] meets ["b"] and ["c"]. *)
Lemma interact_with_company_witness :
  exists template g',
    interact (PStr "a") crowd =
    (Ok (msg_reply (PStr (format template "b and c"))), g') /\
    In template INTERACT_ON_OTHER_USER /\
    clients g' = clients crowd /\ room g' = room crowd.
Proof.
  apply (interact_with_company crowd (PStr "a") (PStr "4:4") (KStr "a") (KStr "4:4")
           eq_refl eq_refl eq_refl eq_refl ["b"; "c"]);
    [discriminate | reflexivity].
Defined.

(** Client [1] meets client [2]. *)
Lemma interact_raises_on_unnamed_company_witness :
  fst (interact (PInt 1) numbered) = Raise TypeError.
Proof.
  apply (interact_raises_on_unnamed_company numbered (PInt 1) (PStr "4:4")
           (KInt 1) (KStr "4:4") eq_refl eq_refl eq_refl eq_refl (KInt 2));
    [left; reflexivity | reflexivity].
Defined.

(** The reply to [up] for a client that is not in the room is counted. *)
Lemma errors_count_error_replies_witness :
  exists is_error,
    contains "error" (error "client not in room") = Ok is_error /\
    errors (snd (_parse_command (request "up" "a") false (server empty_engine [] 0))) =
    errors (server empty_engine [] 0) + (if is_error then 1 else 0).
Proof.
  apply (errors_count_error_replies (request "up" "a") false (server empty_engine [] 0)).
  reflexivity.
Defined.

(** A request without [client]. *)
Lemma malformed_request_witness :
  _parse_command (PDict [(KStr "method", PStr "up")]) false (server empty_engine [] 0) =
  (Ok (error "malformed incomming command"),
   snd (count_error (server empty_engine [] 0))).
Proof.
  apply (malformed_request [(KStr "method", PStr "up")] false (server empty_engine [] 0)).
  right. reflexivity.
Defined.

(** There is no command [fly]. *)
Lemma unknown_method_witness :
  fst (_parse_command (request "fly" "a") false (server empty_engine [] 0)) =
  Ok (error "method fly does not exist for engine: <class 'GameEngine.Game'>") /\
  engine (snd (_parse_command (request "fly" "a") false (server empty_engine [] 0))) =
  empty_engine /\
  durable (snd (_parse_command (request "fly" "a") false (server empty_engine [] 0))) =
  durable (server empty_engine [] 0) /\
  errors (snd (_parse_command (request "fly" "a") false (server empty_engine [] 0))) =
  errors (server empty_engine [] 0) + 1.
Proof.
  apply (unknown_method (fields (request "fly" "a")) (PStr "fly") (PStr "a")
           eq_refl eq_refl (KStr "fly") false (server empty_engine [] 0)
           eq_refl eq_refl).
  left. reflexivity.
Defined.

(** The address of ["a"] is recorded, also with a method that does not
    exist. *)
Lemma broadcast_addr_is_recorded_witness :
  dict_get (KStr "a")
    (connections
       (snd (_parse_command (request_from "fly" "a" "10.0.0.7:9000") false
               (server empty_engine [] 0)))) =
  Some (PStr "10.0.0.7:9000").
Proof.
  apply (broadcast_addr_is_recorded
           (fields (request_from "fly" "a" "10.0.0.7:9000")) (PStr "fly") (PStr "a")
           eq_refl eq_refl (KStr "a") (PStr "10.0.0.7:9000") false
           (server empty_engine [] 0));
    reflexivity.
Defined.

(** [get_room] on the server whose socket 3 belongs to ["ghost"]. *)
Lemma get_room_needs_known_connections_witness :
  exists e,
    fst (_parse_command (request "get_room" "a") false haunted) = Raise e /\
    (e = KeyError \/ e = TypeError) /\
    engine (snd (_parse_command (request "get_room" "a") false haunted)) =
    engine haunted /\
    durable (snd (_parse_command (request "get_room" "a") false haunted)) =
    durable haunted.
Proof.
  apply (get_room_needs_known_connections (fields (request "get_room" "a"))
           (PStr "a") (PStr "ghost") (KStr "ghost") 3%nat false haunted
           eq_refl eq_refl (or_introl eq_refl) (or_introl eq_refl) eq_refl eq_refl).
Defined.

(** The first command of a server with an empty log. *)
Lemma log_stays_short_witness :
  Z.of_nat
    (List.length
       (log_file (snd (_parse_command (request "add_client" "a") false
                         (server empty_engine [] 0))))) <=
  log_length (snd (_parse_command (request "add_client" "a") false
                     (server empty_engine [] 0))) + 0 /\
  log_length (snd (_parse_command (request "add_client" "a") false
                     (server empty_engine [] 0))) <= 100.
Proof.
  apply (log_stays_short 0 (request "add_client" "a") false (server empty_engine [] 0));
    simpl; lia.
Defined.

(** A checkpoint whose first line is a list. *)
Lemma load_server_ignores_witness :
  _load_server
    (with_checkpoint [LJson (PList []); LJson (PDict [(KStr "a", PStr "4:4")])]) =
  (Ok tt,
   with_checkpoint [LJson (PList []); LJson (PDict [(KStr "a", PStr "4:4")])]).
Proof.
  apply load_server_ignores. right. right.
  exists (PList []), (PDict [(KStr "a", PStr "4:4")]).
  split; [reflexivity | left; reflexivity].
Defined.

(** The room of [two_chests] comes back from its checkpoint. *)
Lemma checkpoint_restores_witness :
  fst (restarted [] (snd (_update_ckpt (server two_chests [] 0)))) = Ok tt /\
  room (engine (snd (restarted [] (snd (_update_ckpt (server two_chests [] 0)))))) =
  room two_chests /\
  clients (engine (snd (restarted [] (snd (_update_ckpt (server two_chests [] 0)))))) =
  clients two_chests.
Proof.
  apply (checkpoint_restores [] (server two_chests [] 0));
    [discriminate | reflexivity | reflexivity].
Defined.

(** Client [1] is filed under ["1"] after the restart. *)
Lemma checkpoint_loses_other_ids_witness :
  dict_get (KInt 1)
    (clients (engine (snd (restarted [] (snd (_update_ckpt (server numbered [] 0))))))) =
  None /\
  dict_mem (KStr "1")
    (clients (engine (snd (restarted [] (snd (_update_ckpt (server numbered [] 0))))))) =
  true.
Proof.
  apply (checkpoint_loses_other_ids [] (server numbered [] 0) (KInt 1) (PStr "4:4"));
    [discriminate | left; reflexivity | reflexivity].
Defined.

(** A message in three pieces, and the start of the next one. *)
Lemma recv_all_returns_message_witness :
  _recv_all ["hel"; "lo "; "worldEND_OF_MESSAGE"; "next"] = ("hello world", ["next"]).
Proof.
  apply (recv_all_returns_message ["hel"; "lo "] ["next"] "world" "END_OF_MESSAGE");
    [reflexivity | left; reflexivity].
Defined.

(** A terminator that arrives in two pieces. *)
Lemma recv_all_until_closed_witness :
  _recv_all ["helloEND_OF_"; "MESSAGE"] = ("helloEND_OF_MESSAGE", []).
Proof.
  apply (proj2 (recv_all_until_closed ["helloEND_OF_"; "MESSAGE"] [] eq_refl)).
Defined.

End MoreWitnesses.
